(** * ecrnow-script: a shallow embedding of the token, resolver, bundle and
    launch code, and the properties of its specification.

    Sources embedded here:
    - scripts/ecr_flow_node.js  (CFG, need, getPatientIdFromEncounter,
      getFhirToken, getEcrToken, runLaunchFlow)
    - utils/fhirQueries.js      (buildCodeParam,
      fetchEncountersByConditionCodes, fetchEncountersByDateRange)
    - utils/fhirQueriesPost.js  (fetchEncountersByConditionCodesPost)
    - utils/clientAssertion.js  (signClientAssertion)
    - utils/submitEncounter.js  (buildNotificationBundle, cryptoRandomUuid)

    Modelling conventions.
    - A JavaScript string is a [string], one [ascii] per UTF-16 code unit:
      the strings modelled are those of code units below 256, and what is
      proved about white space, letter case and separators is proved of
      these.  [undefined] and [null] are [None].
      The JSON objects the code receives are records of the fields it
      reads, with the types FHIR gives them (ids, references, relations and
      urls are strings when present).
    - A JavaScript [Map] keeps insertion order, so it is an association list
      with unique keys ([JsMap]).
    - Asynchronous code runs strictly sequentially (every call is awaited),
      so it is a state-and-exception monad [M] over a [World] that records
      the HTTP requests issued and the console output.  The outside (HTTP
      servers, clock, random sources, file system, library codecs) is a
      [Platform]; its server answers a request knowing all earlier ones.
    - [while] loops that follow server-supplied links need not terminate;
      they take fuel, and running out is the separate outcome [OutOfFuel].
    - A loop body or a phase of a long function is a definition of its own
      ([followPages], [launchEncounter], [acquireAndResolve], ...), named
      after what the source does there. *)

From Stdlib Require Import String Ascii List ZArith Bool Lia.
From Stdlib Require Import DecimalString FinFun.
Import ListNotations.
Open Scope string_scope.
Open Scope list_scope.

(** String concatenation, as in a template literal. *)
Infix "+++" := String.append (right associativity, at level 60).

(* ===================================================================== *)
(** * JavaScript strings *)
(* ===================================================================== *)

Module Js.

(** Truthiness of a string-or-undefined value: [undefined] and [""] are
    falsy. *)
Definition truthy (v : option string) : bool :=
  match v with
  | None => false
  | Some s => negb (String.eqb s "")
  end.

(** [a || b] on strings. *)
Definition or_else (v : option string) (d : string) : string :=
  if truthy v then match v with Some s => s | None => d end else d.

Definition or_opt (v w : option string) : option string :=
  if truthy v then v else w.

(** [s.startsWith(p)]. *)
Definition startsWith (p s : string) : bool := String.prefix p s.

(** [s.split(sep)] for a one-character separator. *)
Fixpoint split (sep : ascii) (s : string) : list string :=
  match s with
  | EmptyString => [EmptyString]
  | String c r =>
      if Ascii.eqb c sep then EmptyString :: split sep r
      else match split sep r with
           | [] => [String c EmptyString]
           | h :: t => String c h :: t
           end
  end.

(** [l.join(sep)]. *)
Definition join (sep : string) (l : list string) : string :=
  String.concat sep l.

(** White space removed by [String.prototype.trim], among the code units
    below 256: TAB, LF, VT, FF, CR, SPACE and NBSP. *)
Definition is_ws (c : ascii) : bool :=
  let n := nat_of_ascii c in
  (((9 <=? n) && (n <=? 13)) || (n =? 32) || (n =? 160))%nat.

Fixpoint trimStart (s : string) : string :=
  match s with
  | EmptyString => EmptyString
  | String c r => if is_ws c then trimStart r else s
  end.

Fixpoint trimEnd (s : string) : string :=
  match s with
  | EmptyString => EmptyString
  | String c r =>
      match trimEnd r with
      | EmptyString => if is_ws c then EmptyString else String c EmptyString
      | r' => String c r'
      end
  end.

Definition trim (s : string) : string := trimEnd (trimStart s).

(** [String(n)] for an integer. *)
Definition String_of_Z (z : Z) : string :=
  NilZero.string_of_int (Z.to_int z).

(** [toUpperCase] and [toLowerCase] on ASCII letters; other characters are
    left as they are. *)
Definition upper_ascii (c : ascii) : ascii :=
  let n := nat_of_ascii c in
  if ((97 <=? n) && (n <=? 122))%nat then ascii_of_nat (n - 32) else c.

Definition lower_ascii (c : ascii) : ascii :=
  let n := nat_of_ascii c in
  if ((65 <=? n) && (n <=? 90))%nat then ascii_of_nat (n + 32) else c.

Fixpoint map_string (f : ascii -> ascii) (s : string) : string :=
  match s with
  | EmptyString => EmptyString
  | String c r => String (f c) (map_string f r)
  end.

Definition toUpperCase := map_string upper_ascii.
Definition toLowerCase := map_string lower_ascii.

(** [v === "lit"]. *)
Definition equals (v : option string) (lit : string) : bool :=
  match v with
  | Some s => String.eqb s lit
  | None => false
  end.

(** A value inside a template literal or as a property name. *)
Definition str (v : option string) : string :=
  match v with
  | Some s => s
  | None => "undefined"
  end.

(** A string as a condition: [""] is falsy. *)
Definition nonEmpty (s : string) : option string :=
  if String.eqb s "" then None else Some s.

(** [ref.split('/')[1]]. *)
Definition segment1 (ref : string) : option string :=
  nth_error (split "/" ref) 1.

End Js.

(* ===================================================================== *)
(** * JavaScript [Map] with string keys *)
(* ===================================================================== *)

Module JsMap.
Section WithValue.
Variable V : Type.

Definition t := list (string * V).

Definition empty : t := [].

(** [m.set(k, v)]: an existing key keeps its place and takes the new
    value; a new key goes last. *)
Fixpoint set (k : string) (v : V) (m : t) : t :=
  match m with
  | [] => [(k, v)]
  | (k', v') :: r =>
      if String.eqb k' k then (k', v) :: r else (k', v') :: set k v r
  end.

Definition has (k : string) (m : t) : bool :=
  existsb (fun kv => String.eqb (fst kv) k) m.

Definition size (m : t) : nat := length m.

(** [Array.from(m.values())]. *)
Definition values (m : t) : list V := map snd m.

Definition keys (m : t) : list string := map fst m.

End WithValue.
Arguments empty {V}.
Arguments set {V} k v m.
Arguments has {V} k m.
Arguments size {V} m.
Arguments values {V} m.
Arguments keys {V} m.
End JsMap.

(* ===================================================================== *)
(** * Data model *)
(* ===================================================================== *)

(** A FHIR reference object, [{ reference: "Patient/56089" }]. *)
Record Reference := mkReference { reference : option string }.

(** A Bundle link, [{ relation: "next", url: ... }]. *)
Record Link := mkLink { relation : option string; url : option string }.

(** A JSON object as the code reads it.  [entry] and [link] are the Bundle
    fields, [subject] and [encounter] the Encounter and Condition ones,
    [access_token] the token endpoint's; [content] stands for everything the
    code never inspects. *)
Inductive Resource := mkResource {
  resourceType : option string;
  res_id : option string;
  subject : option Reference;
  encounter : option Reference;
  entry : option (list Entry);
  link : option (list Link);
  access_token : option string;
  content : string
}
with Entry := mkEntry { resource : option Resource }.

(** The empty object [{}]. *)
Definition emptyObject : Resource :=
  mkResource None None None None None None None "".

(** ** HTTP *)

Definition Headers := list (string * string).

(** What axios is asked to send.  A form body is the string
    [form.toString()]; the launch body is the JSON object of
    [runLaunchFlow]. *)
Record LaunchBody := mkLaunchBody {
  fhirServerURL : option string;
  patientId : string;
  encounterId : string;
  validationMode : string;
  throttleContext : string
}.

Inductive Request :=
| Get (target : string) (headers : Headers) (timeout : Z)
| PostForm (target : string) (body : string) (headers : Headers) (timeout : Z)
| PostJson (target : string) (body : LaunchBody) (headers : Headers)
    (timeout : Z).

(** axios resolves with the response ([r.data]) or rejects (transport
    error, timeout, status outside 2xx). *)
Inductive Response :=
| Resolved (data : Resource)
| Rejected (status : option Z).

(** ** Client assertion *)

Inductive CryptoKey := mkKey (pem : string).

Record JwtHeader := mkJwtHeader { alg : string; kid : option string }.

Record JwtPayload := mkJwtPayload {
  iss : option string;
  sub : option string;
  aud : option string;
  jti : string;
  iat : Z;
  exp : Z
}.

(* ===================================================================== *)
(** * The platform and the monad of effects *)
(* ===================================================================== *)

(** Everything outside the program.  The nondeterministic sources are
    indexed by the number of reads made so far. *)
Record Platform := mkPlatform {
  (** the HTTP peers: earlier requests (latest first), then the request *)
  server : list Request -> Request -> Response;
  (** [Date.now()], in milliseconds *)
  Date_now : nat -> Z;
  (** [uuidv4()] of the uuid package *)
  uuidv4 : nat -> string;
  (** the global [crypto.randomUUID], [None] where the runtime has none *)
  crypto_randomUUID : option (nat -> string);
  (** [(Math.random() * 16) | 0] *)
  Math_random16 : nat -> Z;
  (** [fs.readFileSync(path, 'utf8')], [None] when it throws *)
  readFileSync : option string -> option string;
  (** jose's [importPKCS8(pem, 'RS256')], [None] when it throws *)
  importPKCS8 : string -> option CryptoKey;
  (** jose's [new SignJWT(payload).setProtectedHeader(h).sign(key)] *)
  jose_sign : CryptoKey -> JwtHeader -> JwtPayload -> option string;
  (** [new Date(ms).toISOString()] *)
  toISOString : Z -> string;
  (** [Buffer.from(s).toString('base64')] *)
  base64 : string -> string;
  (** [new URLSearchParams(...).toString()] *)
  URLSearchParams_toString : list (string * string) -> string;
  (** [JSON.stringify(data)] *)
  JSON_stringify : Resource -> string
}.

Inductive Exn :=
| Error (message : string)
| TypeError
| ReferenceError
| FsError
| JoseError
| AxiosError (status : option Z).

(** Console output, one constructor per call of [console.log], [warn] or
    [error]; the interpolated values are kept, the decoration is not. *)
Inductive ConsoleEvent :=
| LogUrl (u : string)
| InfoFoundConditions (n : nat)
| InfoConditionsReferencing (n : nat)
| WarnNoReferences
| InfoPulled (id : string)
| WarnNotEncounter (ref : string)
| ErrorFailedFetch (ref : string) (status : option Z)
| InfoTotalCollected (n : nat)
| LogGettingFhirToken (mode : string)
| LogFhirTokenOk
| LogGettingEcrToken
| LogEcrTokenOk
| LogQuerying (usePost : bool)
| LogFound (n : nat)
| WarnSkipping (encounterId patientId : option string)
| LogLaunchPost (target encounterId patientId : string)
| LogLaunchOk (encounterId : string)
| ErrorLaunchFailed (encounterId : string) (status : option Z)
| LogNotifyFlow
| LogDone
| ErrorFatal (e : Exn).

(** The program's view of the world: requests issued and console lines
    written (latest first), and the number of reads of the clock and the
    random sources. *)
Record World := mkWorld {
  requests : list Request;
  console : list ConsoleEvent;
  ticks : nat
}.

Definition world0 : World := mkWorld [] [] 0.

Inductive Outcome (A : Type) :=
| Ok (a : A)
| Throw (e : Exn)
| OutOfFuel.
Arguments Ok {A} a.
Arguments Throw {A} e.
Arguments OutOfFuel {A}.

Definition M (A : Type) := World -> Outcome A * World.

Definition ret {A} (a : A) : M A := fun w => (Ok a, w).

Definition bind {A B} (m : M A) (k : A -> M B) : M B :=
  fun w =>
    match m w with
    | (Ok a, w') => k a w'
    | (Throw e, w') => (Throw e, w')
    | (OutOfFuel, w') => (OutOfFuel, w')
    end.

Definition throw {A} (e : Exn) : M A := fun w => (Throw e, w).

Definition out_of_fuel {A} : M A := fun w => (OutOfFuel, w).

(** [try { m } catch (e) { h e }]. *)
Definition try_catch {A} (m : M A) (h : Exn -> M A) : M A :=
  fun w =>
    match m w with
    | (Throw e, w') => h e w'
    | r => r
    end.

Declare Scope js_scope.
Delimit Scope js_scope with js.
Notation "x <- m ;; k" := (bind m (fun x => k))
  (at level 100, m at next level, right associativity) : js_scope.
Notation "m ;;; k" := (bind m (fun _ => k))
  (at level 100, right associativity) : js_scope.
Open Scope js_scope.

(** [for (const x of l) { body }] over a local state [s]. *)
Fixpoint for_of {A S} (l : list A) (body : A -> S -> M S) (s : S) : M S :=
  match l with
  | [] => ret s
  | x :: r => s' <- body x s ;; for_of r body s'
  end.

Definition console_log (e : ConsoleEvent) : M unit :=
  fun w => (Ok tt, mkWorld (requests w) (e :: console w) (ticks w)).

(** One read of a nondeterministic source. *)
Definition tick : M nat :=
  fun w => (Ok (ticks w), mkWorld (requests w) (console w) (S (ticks w))).

Section Effects.
Variable P : Platform.

(** [await axios.get/post(...)], then [.data] of the response. *)
Definition axios (rq : Request) : M Resource :=
  fun w =>
    let w' := mkWorld (rq :: requests w) (console w) (ticks w) in
    match server P (requests w) rq with
    | Resolved d => (Ok d, w')
    | Rejected st => (Throw (AxiosError st), w')
    end.

(* ===================================================================== *)
(** * utils/fhirQueries.js and utils/fhirQueriesPost.js *)
(* ===================================================================== *)

Definition EncounterMap := JsMap.t Resource.

(** [(codesCsv || '').split(',').map(s => s.trim()).filter(Boolean)
    .join(',')] (the same function in both files). *)
Definition buildCodeParam (codesCsv : option string) : string :=
  Js.join ","
    (filter (fun s => negb (String.eqb s ""))
       (map Js.trim (Js.split "," (Js.or_else codesCsv "")))).

(** [b.entry || []] and [b.link || []]. *)
Definition entries (b : Resource) : list Entry :=
  match entry b with Some l => l | None => [] end.

Definition links (b : Resource) : list Link :=
  match link b with Some l => l | None => [] end.

(** [res?.resourceType === 'Encounter' && res.id]. *)
Definition isEncounterWithId (res : Resource) : bool :=
  Js.equals (resourceType res) "Encounter" && Js.truthy (res_id res).

(** The body of the three identical [forEach] callbacks:
    [if (res?.resourceType === 'Encounter' && res.id) encs.set(res.id, res)]. *)
Definition harvestEntry (encs : EncounterMap) (e : Entry) : EncounterMap :=
  match resource e with
  | Some res =>
      if isEncounterWithId res
      then JsMap.set (Js.str (res_id res)) res encs
      else encs
  | None => encs
  end.

(** [harvestEncounters] of fhirQueriesPost.js; fhirQueries.js has the same
    loop inline, twice. *)
Definition harvestEncounters (b : Resource) (encs : EncounterMap)
  : EncounterMap :=
  fold_left harvestEntry (entries b) encs.

(** [(b.link || []).find(l => l.relation === 'next')?.url || null]. *)
Definition nextUrl (b : Resource) : option string :=
  match find (fun l => Js.equals (relation l) "next") (links b) with
  | Some l => if Js.truthy (url l) then url l else None
  | None => None
  end.

(** [while (url) { b = GET url; harvest b; url = next(b) }]: the page loop
    of [fetchEncountersByDateRange], of pass 1 of
    [fetchEncountersByConditionCodes] and of step 2 of
    [fetchEncountersByConditionCodesPost]. *)
Fixpoint followPages (fuel : nat) (headers : Headers) (u : option string)
    (encs : EncounterMap) : M EncounterMap :=
  match u with
  | None => ret encs
  | Some target =>
      match fuel with
      | O => out_of_fuel
      | S fuel' =>
          b <- axios (Get target headers 30000) ;;
          followPages fuel' headers (nextUrl b) (harvestEncounters b encs)
      end
  end.

(** The search parameters the three strategies share. *)
Definition dateParams (dateField start end_ : option string)
  : list (string * string) :=
  (if Js.truthy start
   then [(Js.str dateField, "ge" +++ Js.str start)] else [])
  ++ (if Js.truthy end_
      then [(Js.str dateField, "le" +++ Js.str end_)] else []).

Definition codeParams (codeParam : string) : list (string * string) :=
  if Js.truthy (Some codeParam) then [("code", codeParam)] else [].

(** ** fetchEncountersByDateRange *)

(** [{ Authorization: `Bearer ${token}`, Accept: 'application/fhir+json' }] *)
Definition fhirHeaders (token : string) : Headers :=
  [("Authorization", "Bearer " +++ token);
   ("Accept", "application/fhir+json")].

(** The first [url] of [fetchEncountersByDateRange]. *)
Definition dateRangeUrl (fhirBase : string)
    (start end_ dateField patientId status : option string) (count : option Z)
  : string :=
  let dateField := Some (match dateField with Some d => d | None => "date" end) in
  let count := match count with Some c => c | None => 100%Z end in
  let params :=
    dateParams dateField start end_
    ++ (if Js.truthy patientId
        then [("patient",
               if Js.startsWith "Patient/" (Js.str patientId)
               then Js.str patientId
               else "Patient/" +++ Js.str patientId)]
        else [])
    ++ (if Js.truthy status then [("status", Js.str status)] else [])
    ++ [("_count", Js.String_of_Z count)] in
  fhirBase +++ "/Encounter?" +++ URLSearchParams_toString P params.

Definition fetchEncountersByDateRange (fuel : nat)
    (fhirBase token : string) (start end_ dateField patientId status
      : option string) (count : option Z) : M (list Resource) :=
  let headers := fhirHeaders token in
  let target :=
    dateRangeUrl fhirBase start end_ dateField patientId status count in
  console_log (LogUrl target) ;;;
  encs <- followPages fuel headers (Js.nonEmpty target) JsMap.empty ;;
  ret (JsMap.values encs).

(** ** fetchEncountersByConditionCodes *)

(** One entry of a Condition page in pass 2: a Condition whose
    [encounter.reference] starts with [Encounter/] has that Encounter
    fetched, unless the id is a key already; the fetch is not guarded. *)
Definition followReference (headers : Headers) (fhirBase : string)
    (e : Entry) (encs : EncounterMap) : M EncounterMap :=
  match resource e with
  | Some c =>
      if Js.equals (resourceType c) "Condition" then
        match encounter c with
        | Some (mkReference (Some ref)) =>
            if Js.startsWith "Encounter/" ref then
              match Js.segment1 ref with
              | Some id =>
                  if negb (JsMap.has id encs) then
                    er <- axios (Get (fhirBase +++ "/Encounter/" +++ id)
                                   headers 15000) ;;
                    ret (JsMap.set id er encs)
                  else ret encs
              | None => ret encs (* not reached: [ref] has a slash *)
              end
            else ret encs
        | _ => ret encs
        end
      else ret encs
  | None => ret encs
  end.

(** [while (url2) { ... }] of pass 2. *)
Fixpoint followConditions (fuel : nat) (headers : Headers)
    (fhirBase : string) (u : option string) (encs : EncounterMap)
  : M EncounterMap :=
  match u with
  | None => ret encs
  | Some target =>
      match fuel with
      | O => out_of_fuel
      | S fuel' =>
          b <- axios (Get target headers 30000) ;;
          encs' <- for_of (entries b) (followReference headers fhirBase) encs ;;
          followConditions fuel' headers fhirBase (nextUrl b) encs'
      end
  end.

Definition fetchEncountersByConditionCodes (fuel : nat)
    (fhirBase token : string) (start end_ dateField codesCsv : option string)
  : M (list Resource) :=
  let codeParam := buildCodeParam codesCsv in
  let params :=
    codeParams codeParam ++ dateParams dateField start end_
    ++ [("_count", "100")] in
  let target := fhirBase +++ "/Encounter?" +++ URLSearchParams_toString P params in
  console_log (LogUrl target) ;;;
  let headers := fhirHeaders token in
  (* Pass 1 *)
  encs <- followPages fuel headers (Js.nonEmpty target) JsMap.empty ;;
  (* Pass 2 (fallback) *)
  encs <- (if (JsMap.size encs =? 0)%nat then
             let target2 :=
               fhirBase +++ "/Condition?" +++ URLSearchParams_toString P params in
             console_log (LogUrl target2) ;;;
             followConditions fuel headers fhirBase (Js.nonEmpty target2) encs
           else ret encs) ;;
  ret (JsMap.values encs).

(** ** fetchEncountersByConditionCodesPost *)

(** [e.response?.status] in a catch clause. *)
Definition response_status (e : Exn) : option Z :=
  match e with
  | AxiosError st => st
  | _ => None
  end.

(** The body of [for (const ref of encounterRefs)] (step 1). *)
Definition fetchReferenced (headers : Headers) (fhirBase : string)
    (ref : string) (encounters : EncounterMap) : M EncounterMap :=
  match Js.segment1 ref with
  | Some encId =>
      if negb (Js.truthy (Some encId)) then ret encounters
      else if JsMap.has encId encounters then ret encounters
      else
        try_catch
          (enc <- axios (Get (fhirBase +++ "/Encounter/" +++ encId)
                           headers 20000) ;;
           if isEncounterWithId enc then
             console_log (InfoPulled (Js.str (res_id enc))) ;;;
             ret (JsMap.set (Js.str (res_id enc)) enc encounters)
           else
             console_log (WarnNotEncounter ref) ;;;
             ret encounters)
          (fun e =>
             console_log (ErrorFailedFetch ref (response_status e)) ;;;
             ret encounters)
  | None => ret encounters
  end.

(** [c.resource?.encounter?.reference] kept when it is a string that starts
    with [Encounter/]. *)
Definition encounterRefOf (c : Entry) : list string :=
  match resource c with
  | Some r =>
      match encounter r with
      | Some (mkReference (Some ref)) =>
          if Js.startsWith "Encounter/" ref then [ref] else []
      | _ => []
      end
  | None => []
  end.

(** Step 1, the block under
    [bundle.resourceType === 'Bundle' && Array.isArray(bundle.entry)].
    The filter reads [e.resource.resourceType] unguarded, so an entry
    without a resource is a TypeError. *)
Definition fetchFirstPageReferences (headers : Headers) (fhirBase : string)
    (bundle : Resource) (encounters : EncounterMap) : M EncounterMap :=
  match entry bundle with
  | Some es =>
      if Js.equals (resourceType bundle) "Bundle" then
        if forallb (fun e => match resource e with
                             | Some _ => true | None => false end) es
        then
          let conditions :=
            filter (fun e => match resource e with
                             | Some r => Js.equals (resourceType r) "Condition"
                             | None => false
                             end) es in
          console_log (InfoFoundConditions (length conditions)) ;;;
          let encounterRefs := flat_map encounterRefOf conditions in
          console_log (InfoConditionsReferencing (length encounterRefs)) ;;;
          (if (length encounterRefs =? 0)%nat
           then console_log WarnNoReferences else ret tt) ;;;
          encounters' <- for_of encounterRefs
                           (fetchReferenced headers fhirBase) encounters ;;
          console_log (InfoTotalCollected (JsMap.size encounters')) ;;;
          ret encounters'
        else throw TypeError
      else ret encounters
  | None => ret encounters
  end.

(** [fetchEncounterByRef] of step 3: a failed GET becomes [null]. *)
Definition fetchEncounterByRef (headers : Headers) (fhirBase : string)
    (ref : option string) (encounters : EncounterMap) : M EncounterMap :=
  match ref with
  | Some r =>
      if negb (Js.startsWith "Encounter/" r) then ret encounters
      else
        match Js.segment1 r with
        | Some id =>
            if negb (Js.truthy (Some id)) || JsMap.has id encounters
            then ret encounters
            else
              enc <- try_catch
                       (d <- axios (Get (fhirBase +++ "/Encounter/" +++ id)
                                      headers 20000) ;;
                        ret (Some d))
                       (fun _ => ret None) ;;
              match enc with
              | Some d =>
                  if isEncounterWithId d
                  then ret (JsMap.set (Js.str (res_id d)) d encounters)
                  else ret encounters
              | None => ret encounters
              end
        | None => ret encounters
        end
  | None => ret encounters
  end.

(** [processBundleConditions] of step 3. *)
Definition processBundleConditions (headers : Headers) (fhirBase : string)
    (bundlePage : Resource) (encounters : EncounterMap) : M EncounterMap :=
  for_of (entries bundlePage)
    (fun e encs =>
       match resource e with
       | Some res =>
           if Js.equals (resourceType res) "Condition" then
             fetchEncounterByRef headers fhirBase
               (match encounter res with
                | Some r => reference r
                | None => None
                end) encs
           else ret encs
       | None => ret encs
       end)
    encounters.

(** [while (next2) { ... }] of step 3. *)
Fixpoint followFallbackPages (fuel : nat) (headers : Headers)
    (fhirBase : string) (u : option string) (encounters : EncounterMap)
  : M EncounterMap :=
  match u with
  | None => ret encounters
  | Some target =>
      match fuel with
      | O => out_of_fuel
      | S fuel' =>
          b <- axios (Get target headers 30000) ;;
          encounters' <- processBundleConditions headers fhirBase b
                           encounters ;;
          followFallbackPages fuel' headers fhirBase (nextUrl b) encounters'
      end
  end.

(** The headers and the two search requests of
    [fetchEncountersByConditionCodesPost]. *)
Definition postHeaders (token : string) : Headers :=
  [("Authorization", "Bearer " +++ token);
   ("Accept", "application/fhir+json");
   ("Content-Type", "application/x-www-form-urlencoded")].

Definition conditionSearch (fhirBase token : string)
    (start end_ dateField codesCsv : option string)
    (includePatient : option bool) (count : option Z) : Request :=
  let codesCsv := Some (match codesCsv with Some c => c | None => "" end) in
  let includePatient :=
    match includePatient with Some b => b | None => true end in
  let count := match count with Some c => c | None => 100%Z end in
  let codeParam := buildCodeParam codesCsv in
  let form :=
    codeParams codeParam ++ dateParams dateField start end_
    ++ [("_include", "Condition:encounter")]
    ++ (if includePatient then [("_include", "Condition:subject")] else [])
    ++ [("_count", Js.String_of_Z count)] in
  PostForm (fhirBase +++ "/Condition/_search")
    (URLSearchParams_toString P form) (postHeaders token) 30000.

Definition fallbackSearch (fhirBase token : string)
    (start end_ dateField codesCsv : option string) (count : option Z)
  : Request :=
  let codesCsv := Some (match codesCsv with Some c => c | None => "" end) in
  let count := match count with Some c => c | None => 100%Z end in
  let codeParam := buildCodeParam codesCsv in
  let fallbackForm :=
    codeParams codeParam ++ dateParams dateField start end_
    ++ [("_count", Js.String_of_Z count)] in
  PostForm (fhirBase +++ "/Condition/_search")
    (URLSearchParams_toString P fallbackForm) (postHeaders token) 30000.

Definition fetchEncountersByConditionCodesPost (fuel : nat)
    (fhirBase token : string) (start end_ dateField codesCsv : option string)
    (includePatient : option bool) (count : option Z) : M (list Resource) :=
  let headers := postHeaders token in
  (* 1) POST /Condition/_search *)
  bundle <- axios (conditionSearch fhirBase token start end_ dateField
                     codesCsv includePatient count) ;;
  encounters <- fetchFirstPageReferences headers fhirBase bundle
                  JsMap.empty ;;
  let encounters := harvestEncounters bundle encounters in
  (* 2) pagination *)
  encounters <- followPages fuel headers (nextUrl bundle) encounters ;;
  (* 3) fallback *)
  encounters <-
    (if (JsMap.size encounters =? 0)%nat then
       b <- axios (fallbackSearch fhirBase token start end_ dateField
                     codesCsv count) ;;
       encounters' <- processBundleConditions headers fhirBase b
                        encounters ;;
       followFallbackPages fuel headers fhirBase (nextUrl b) encounters'
     else ret encounters) ;;
  ret (JsMap.values encounters).

(* ===================================================================== *)
(** * utils/clientAssertion.js *)
(* ===================================================================== *)

Definition signClientAssertion (clientId aud kid privateKeyPath : option string)
  : M string :=
  match readFileSync P privateKeyPath with
  | None => throw FsError
  | Some pkcs8 =>
      match importPKCS8 P pkcs8 with
      | None => throw JoseError
      | Some key =>
          t <- tick ;;
          let now := (Date_now P t / 1000)%Z in
          u <- tick ;;
          match jose_sign P key
                  (mkJwtHeader "RS256" kid)
                  (mkJwtPayload clientId clientId aud (uuidv4 P u)
                     now (now + 300)%Z) with
          | Some token => ret token
          | None => throw JoseError
          end
      end
  end.

(* ===================================================================== *)
(** * scripts/ecr_flow_node.js *)
(* ===================================================================== *)

Record Config := mkConfig {
  AUTH_MODE : string;
  CLIENT_ID : option string;
  CLIENT_SECRET : option string;
  TOKEN_URL : option string;
  SCOPE : string;
  KID : option string;
  PRIVATE_KEY_PATH : option string;
  REQUIRE_AUD : bool;
  AUD : option string;
  FHIR_BASE : option string;
  START_DATE : option string;
  END_DATE : option string;
  DATE_FIELD : string;
  CODES_CSV : string;
  USE_POST_SEARCH : bool;
  ECRNOW_TOKEN_URL : option string;
  ECRNOW_CLIENT_ID : option string;
  ECRNOW_CLIENT_SECRET : option string;
  ECRNOW_USER_ID : option string;
  ECRNOW_API_BASE : string;
  FLOW_MODE : string;
  VALIDATION_MODE : string;
  THROTTLE_CONTEXT : string
}.

(** The [CFG] object literal, from [process.env]. *)
Definition loadConfig (env : string -> option string) : Config :=
  {| AUTH_MODE := Js.toUpperCase (Js.or_else (env "AUTH_MODE") "SOF_BACKEND");
     CLIENT_ID := env "CLIENT_ID";
     CLIENT_SECRET := env "CLIENT_SECRET";
     TOKEN_URL := env "TOKEN_URL";
     SCOPE := Js.or_else (env "SCOPE") "system/*.read";
     KID := env "KID";
     PRIVATE_KEY_PATH := env "PRIVATE_KEY_PATH";
     REQUIRE_AUD :=
       String.eqb (Js.toLowerCase (Js.or_else (env "REQUIRE_AUD") "true"))
         "true";
     AUD := env "AUD";
     FHIR_BASE := env "FHIR_BASE";
     START_DATE := env "START_DATE";
     END_DATE := env "END_DATE";
     DATE_FIELD := Js.or_else (env "DATE_FIELD") "recorded-date";
     CODES_CSV :=
       Js.or_else (Js.or_opt (env "CANCER_CODES") (env "CODES_CSV")) "";
     USE_POST_SEARCH :=
       String.eqb (Js.toLowerCase (Js.or_else (env "USE_POST_SEARCH") "false"))
         "true";
     ECRNOW_TOKEN_URL := env "ECRNOW_TOKEN_URL";
     ECRNOW_CLIENT_ID := env "ECRNOW_CLIENT_ID";
     ECRNOW_CLIENT_SECRET := env "ECRNOW_CLIENT_SECRET";
     ECRNOW_USER_ID := env "ECRNOW_USER_ID";
     ECRNOW_API_BASE :=
       Js.or_else (env "ECRNOW_API_BASE") "http://localhost:8081";
     FLOW_MODE := Js.toLowerCase (Js.or_else (env "FLOW_MODE") "notify");
     VALIDATION_MODE := Js.or_else (env "VALIDATION_MODE") "false";
     THROTTLE_CONTEXT := Js.or_else (env "THROTTLE_CONTEXT") "1" |}.

(** [CFG[k]] for the keys [need] is called with. *)
Definition CFG_prop (CFG : Config) (k : string) : option string :=
  if String.eqb k "TOKEN_URL" then TOKEN_URL CFG
  else if String.eqb k "CLIENT_ID" then CLIENT_ID CFG
  else if String.eqb k "FHIR_BASE" then FHIR_BASE CFG
  else if String.eqb k "KID" then KID CFG
  else if String.eqb k "PRIVATE_KEY_PATH" then PRIVATE_KEY_PATH CFG
  else if String.eqb k "CLIENT_SECRET" then CLIENT_SECRET CFG
  else if String.eqb k "ECRNOW_TOKEN_URL" then ECRNOW_TOKEN_URL CFG
  else if String.eqb k "ECRNOW_CLIENT_ID" then ECRNOW_CLIENT_ID CFG
  else if String.eqb k "ECRNOW_API_BASE" then Some (ECRNOW_API_BASE CFG)
  else None.

(** [!obj[k] || String(obj[k]).trim() === ''] *)
Definition missing (v : option string) : bool :=
  negb (Js.truthy v) || String.eqb (Js.trim (Js.str v)) "".

Definition need (obj : string -> option string) (keys : list string)
  : M unit :=
  let miss := filter (fun k => missing (obj k)) keys in
  if (length miss =? 0)%nat then ret tt
  else throw (Error ("Missing env: " +++ Js.join ", " miss)).

Definition getPatientIdFromEncounter (enc : Resource) : option string :=
  let ref :=
    Js.or_else (match subject enc with
                | Some s => reference s
                | None => None
                end) "" in
  if Js.startsWith "Patient/" ref then Js.segment1 ref else None.

Definition getFhirToken (CFG : Config) : M string :=
  need (CFG_prop CFG) ["TOKEN_URL"; "CLIENT_ID"; "FHIR_BASE"] ;;;
  let mode := AUTH_MODE CFG in
  let headers := [("Accept", "application/json");
                  ("Content-Type", "application/x-www-form-urlencoded")] in
  let form :=
    [("grant_type", "client_credentials")]
    ++ (if Js.truthy (Some (SCOPE CFG)) then [("scope", SCOPE CFG)] else []) in
  let aud := Js.or_opt (AUD CFG) (TOKEN_URL CFG) in
  let addAud := REQUIRE_AUD CFG && Js.truthy aud in
  let audParam := if addAud then [("aud", Js.str aud)] else [] in
  hf <- (if String.eqb mode "SOF_BACKEND" || String.eqb mode "PRIVATE_KEY_JWT"
         then
           need (CFG_prop CFG) ["KID"; "PRIVATE_KEY_PATH"] ;;;
           clientAssertion <- signClientAssertion (CLIENT_ID CFG) aud
                                (KID CFG) (PRIVATE_KEY_PATH CFG) ;;
           ret (headers,
                form
                ++ [("client_id", Js.str (CLIENT_ID CFG));
                    ("client_assertion_type",
                     "urn:ietf:params:oauth:client-assertion-type:jwt-bearer");
                    ("client_assertion", clientAssertion)]
                ++ audParam)
         else if String.eqb mode "CLIENT_SECRET_BASIC" then
           need (CFG_prop CFG) ["CLIENT_SECRET"] ;;;
           let basic :=
             base64 P (Js.str (CLIENT_ID CFG) +++ ":"
                       +++ Js.str (CLIENT_SECRET CFG)) in
           ret (headers ++ [("Authorization", "Basic " +++ basic)],
                form ++ audParam)
         else if String.eqb mode "CLIENT_SECRET_POST" then
           need (CFG_prop CFG) ["CLIENT_SECRET"] ;;;
           ret (headers,
                form
                ++ [("client_id", Js.str (CLIENT_ID CFG));
                    ("client_secret", Js.str (CLIENT_SECRET CFG))]
                ++ audParam)
         else throw (Error ("Unsupported AUTH_MODE: " +++ mode))) ;;
  resp <- axios (PostForm (Js.str (TOKEN_URL CFG))
                   (URLSearchParams_toString P (snd hf)) (fst hf) 25000) ;;
  if negb (Js.truthy (access_token resp)) then
    throw (Error ("FHIR token endpoint did not return access_token. Body: "
                  +++ JSON_stringify P resp))
  else ret (Js.str (access_token resp)).

Definition getEcrToken (CFG : Config) : M (option string) :=
  need (CFG_prop CFG) ["ECRNOW_TOKEN_URL"; "ECRNOW_CLIENT_ID"] ;;;
  let form :=
    [("grant_type", "client_credentials");
     ("client_id", Js.str (ECRNOW_CLIENT_ID CFG))]
    ++ (if Js.truthy (ECRNOW_CLIENT_SECRET CFG)
        then [("client_secret", Js.str (ECRNOW_CLIENT_SECRET CFG))] else [])
    ++ (if Js.truthy (ECRNOW_USER_ID CFG)
        then [("userId", Js.str (ECRNOW_USER_ID CFG))] else []) in
  r <- axios (PostForm (Js.str (ECRNOW_TOKEN_URL CFG))
                (URLSearchParams_toString P form)
                [("Content-Type", "application/x-www-form-urlencoded")]
                20000) ;;
  ret (access_token r).

(** The global [crypto.randomUUID()]. *)
Definition randomUUID : M string :=
  match crypto_randomUUID P with
  | Some gen => t <- tick ;; ret (gen t)
  | None => throw ReferenceError
  end.

(** The body of [for (const enc of encounters)] in [runLaunchFlow]. *)
Definition launchEncounter (CFG : Config) (ecrBearer target : string)
    (enc : Resource) : M unit :=
  let encounterId := res_id enc in
  let patientId := getPatientIdFromEncounter enc in
  if negb (Js.truthy encounterId) || negb (Js.truthy patientId) then
    console_log (WarnSkipping encounterId patientId)
  else
    let body :=
      {| fhirServerURL := FHIR_BASE CFG;
         patientId := Js.str patientId;
         encounterId := Js.str encounterId;
         validationMode := VALIDATION_MODE CFG;
         throttleContext := THROTTLE_CONTEXT CFG |} in
    console_log (LogLaunchPost target (Js.str encounterId) (Js.str patientId)) ;;;
    try_catch
      (requestId <- randomUUID ;;
       correlationId <- randomUUID ;;
       axios (PostJson target body
                [("Content-Type", "application/json");
                 ("Authorization", "Bearer " +++ ecrBearer);
                 ("X-Request-ID", requestId);
                 ("X-Correlation-ID", correlationId)]
                60000) ;;;
       console_log (LogLaunchOk (Js.str encounterId)))
      (fun e =>
         console_log (ErrorLaunchFailed (Js.str encounterId)
                        (response_status e))).

(** [runLaunchFlow] up to the resolution of the encounters: the two
    tokens, the checks and the search.  It hands the case-reporting token
    and the encounters to the rest of the function. *)
Definition acquireAndResolve (fuel : nat) (CFG : Config)
  : M (option string * list Resource) :=
  console_log (LogGettingFhirToken (AUTH_MODE CFG)) ;;;
  fhirToken <- getFhirToken CFG ;;
  console_log LogFhirTokenOk ;;;
  console_log LogGettingEcrToken ;;;
  ecrBearer <- getEcrToken CFG ;;
  need (fun k => if String.eqb k "ecrBearer" then ecrBearer else None)
    ["ecrBearer"] ;;;
  console_log LogEcrTokenOk ;;;
  need (CFG_prop CFG) ["FHIR_BASE"; "ECRNOW_API_BASE"] ;;;
  console_log (LogQuerying (USE_POST_SEARCH CFG)) ;;;
  encounters <- fetchEncountersByDateRange fuel (Js.str (FHIR_BASE CFG))
                  fhirToken (START_DATE CFG) (END_DATE CFG)
                  (Some (DATE_FIELD CFG)) None None None ;;
  ret (ecrBearer, encounters).

Definition runLaunchFlow (fuel : nat) (CFG : Config) : M unit :=
  resolved <- acquireAndResolve fuel CFG ;;
  let ecrBearer := fst resolved in
  let encounters := snd resolved in
  console_log (LogFound (length encounters)) ;;;
  let target := ECRNOW_API_BASE CFG +++ "/api/launchPatient" in
  for_of encounters
    (fun enc _ => launchEncounter CFG (Js.str ecrBearer) target enc) tt.

(** The placeholder flow. *)
Definition runNotifyFlow : M unit := console_log LogNotifyFlow.

(** The entry point: the flow chosen by FLOW_MODE, then the exit code
    (0 when the function returns, 1 from [process.exit(1)]). *)
Definition main (fuel : nat) (CFG : Config) : M Z :=
  try_catch
    ((if String.eqb (FLOW_MODE CFG) "launch"
      then runLaunchFlow fuel CFG
      else runNotifyFlow) ;;;
     console_log LogDone ;;;
     ret 0%Z)
    (fun e => console_log (ErrorFatal e) ;;; ret 1%Z).

End Effects.

(* ===================================================================== *)
(** * utils/submitEncounter.js *)
(* ===================================================================== *)

Module Notification.

(** [encounter.id] (the names below are reused by the Bundle records). *)
Definition encounter_id (encounter : Resource) : option string :=
  res_id encounter.

Inductive ParameterValue :=
| valueReference (reference : string)
| valueCanonical (canonical : string)
| valueCode (code : string)
| valueUnsignedInt (n : Z).

Record StatusParameter := mkParameter {
  name : string;
  value : ParameterValue
}.

Record Meta := mkMeta { lastUpdated : string; profile : list string }.

Record ParametersBody := mkParameters {
  p_resourceType : string;
  p_id : string;
  p_meta : Meta;
  parameter : list StatusParameter
}.

Inductive EntryResource :=
| ParametersResource (p : ParametersBody)
| EncounterResource (encounter : Resource).

Record EntryRequest := mkEntryRequest { method : string; url : string }.

Record EntryResponse := mkEntryResponse { status : string }.

Record BundleEntry := mkBundleEntry {
  fullUrl : string;
  resource : EntryResource;
  request : option EntryRequest;
  response : option EntryResponse
}.

Record Bundle := mkBundle {
  resourceType : string;
  id : string;
  meta : Meta;
  type : string;
  timestamp : string;
  entry : list BundleEntry
}.

(** The options argument; an absent option takes its default. *)
Record Options := mkOptions {
  subscriptionUrl : option string;
  topicCanonical : option string;
  eventsSinceStart : option Z;
  eventsInNotification : option Z
}.

Definition noOptions : Options := mkOptions None None None None.

(** [v.toString(16)] for [0 <= v < 16]. *)
Definition hexDigit (v : Z) : ascii :=
  if (v <? 10)%Z then ascii_of_nat (48 + Z.to_nat v)
  else ascii_of_nat (87 + Z.to_nat v).

Section WithPlatform.
Variable P : Platform.

(** The replacement of one character of the template in the fallback of
    [cryptoRandomUuid]. *)
Definition replaceXY (c : ascii) : M ascii :=
  if Ascii.eqb c "x" || Ascii.eqb c "y" then
    t <- tick ;;
    let r := (Math_random16 P t mod 16)%Z in
    let v := if Ascii.eqb c "x" then r else Z.lor (Z.land r 3) 8 in
    ret (hexDigit v)
  else ret c.

Fixpoint replaceAll (template : string) : M string :=
  match template with
  | EmptyString => ret EmptyString
  | String c r =>
      d <- replaceXY c ;;
      r' <- replaceAll r ;;
      ret (String d r')
  end.

Definition cryptoRandomUuid : M string :=
  try_catch (randomUUID P)
    (fun _ => replaceAll "xxxxxxxx-xxxx-4xxx-yxxx-xxxxxxxxxxxx").

(** [a.pop()] of a non-empty array of strings. *)
Definition pop (l : list string) : string := last l "".

Definition buildNotificationBundle (encounter : Resource) (o : Options)
  : M Bundle :=
  let subscriptionUrl :=
    match subscriptionUrl o with
    | Some u => u
    | None =>
        "http://ecr.drajer.com/secure/fhir-r4/fhir/Subscription/encounter-end"
    end in
  let topicCanonical :=
    match topicCanonical o with
    | Some u => u
    | None => "http://hl7.org/fhir/us/medmorph/SubscriptionTopic/encounter-end"
    end in
  let eventsSinceStart :=
    match eventsSinceStart o with Some n => n | None => 1%Z end in
  let eventsInNotification :=
    match eventsInNotification o with Some n => n | None => 1%Z end in
  t <- tick ;;
  let nowIso := toISOString P (Date_now P t) in
  u <- cryptoRandomUuid ;;
  let paramsUrn := "urn:uuid:" +++ u in
  ret {| resourceType := "Bundle";
         id := "notification-full-resource";
         meta := {| lastUpdated := nowIso;
                    profile := ["http://hl7.org/fhir/uv/subscriptions-backport/StructureDefinition/backport-subscription-notification"] |};
         type := "history";
         timestamp := nowIso;
         entry :=
           [ {| fullUrl := paramsUrn;
                resource :=
                  ParametersResource
                    {| p_resourceType := "Parameters";
                       p_id := pop (Js.split ":" paramsUrn);
                       p_meta :=
                         {| lastUpdated := nowIso;
                            profile := ["http://hl7.org/fhir/uv/subscriptions-backport/StructureDefinition/backport-subscriptionstatus"] |};
                       parameter :=
                         [ mkParameter "subscription"
                             (valueReference subscriptionUrl);
                           mkParameter "topic" (valueCanonical topicCanonical);
                           mkParameter "type" (valueCode "event-notification");
                           mkParameter "status" (valueCode "active");
                           mkParameter "events-since-subscription-start"
                             (valueUnsignedInt eventsSinceStart);
                           mkParameter "events-in-notification"
                             (valueUnsignedInt eventsInNotification) ] |};
                request :=
                  Some (mkEntryRequest "GET" (subscriptionUrl +++ "/$status"));
                response := Some (mkEntryResponse "200") |};
             {| fullUrl :=
                  if match encounter_id encounter with
                     | Some i => Js.startsWith "Encounter/" i
                     | None => false
                     end
                  then Js.str (encounter_id encounter)
                  else "Encounter/"
                       +++ Js.or_else (encounter_id encounter) "unknown";
                resource := EncounterResource encounter;
                request := None;
                response := None |} ] |}.

End WithPlatform.
End Notification.

(* ===================================================================== *)
(** * Specification-side definitions *)
(* ===================================================================== *)

(** The Encounter entries of one page, as the harvest accepts them. *)
Definition pageEncounters (b : Resource) : list Resource :=
  flat_map (fun e => match resource e with
                     | Some r => if isEncounterWithId r then [r] else []
                     | None => []
                     end) (entries b).

Definition allEncounters (pages : list Resource) : list Resource :=
  flat_map pageEncounters pages.

(** An element of a returned sequence is a proper Encounter. *)
Definition properEncounter (r : Resource) : Prop :=
  resourceType r = Some "Encounter"
  /\ exists i, res_id r = Some i /\ i <> "".

(** The invariant of the Encounter map while only harvests write to it:
    every value is a proper Encounter filed under its own id, and no key
    occurs twice. *)
Definition harvested (m : EncounterMap) : Prop :=
  NoDup (JsMap.keys m)
  /\ Forall (fun kv => properEncounter (snd kv)
                       /\ res_id (snd kv) = Some (fst kv)) m.

(** Folding the harvest over the pages of a search, in order. *)
Definition harvestAll (pages : list Resource) (m : EncounterMap)
  : EncounterMap :=
  fold_left (fun acc b => harvestEncounters b acc) pages m.

(** ** Paginated searches *)

(** The page carries no link with relation [next]. *)
Definition noNextLink (b : Resource) : Prop :=
  Forall (fun l => relation l <> Some "next") (links b).

(** The page carries a link with relation [next], and the first such link
    has the URL [u]. *)
Definition nextLinkTo (b : Resource) (u : string) : Prop :=
  exists pre l post,
    links b = pre ++ l :: post
    /\ Forall (fun l' => relation l' <> Some "next") pre
    /\ relation l = Some "next"
    /\ url l = Some u /\ u <> "".

(** The server answers [rq], asked after the requests [h], with the first of
    [pages]; every page but the last links to the next one, which the
    server returns when that link is fetched next. *)
Inductive pageChain (P : Platform) (headers : Headers)
  : list Request -> Request -> list Resource -> Prop :=
| chain_last h rq b :
    server P h rq = Resolved b ->
    noNextLink b ->
    pageChain P headers h rq [b]
| chain_next h rq b u bs :
    server P h rq = Resolved b ->
    nextLinkTo b u ->
    pageChain P headers (rq :: h) (Get u headers 30000) bs ->
    pageChain P headers h rq (b :: bs).




(** Requests by kind. *)
Definition isPageGet (headers : Headers) (rq : Request) : Prop :=
  exists u, rq = Get u headers 30000.

Definition isDirectFetch (fhirBase : string) (headers : Headers)
    (rq : Request) : Prop :=
  exists i, rq = Get (fhirBase +++ "/Encounter/" +++ i) headers 20000.

(** A server whose answer does not depend on what it was asked before. *)
Definition stateless (P : Platform) : Prop :=
  forall h h' rq, server P h rq = server P h' rq.

(** A relation between the world before and after that a computation
    keeps, whatever its outcome. *)
Definition keeps (R : World -> World -> Prop) {A} (m : M A) : Prop :=
  forall w, R w (snd (m w)).

(** ** Required configuration of [getFhirToken] *)

Definition commonKeys : list string := ["TOKEN_URL"; "CLIENT_ID"; "FHIR_BASE"].

Definition keyMode (mode : string) : bool :=
  String.eqb mode "SOF_BACKEND" || String.eqb mode "PRIVATE_KEY_JWT".

Definition secretMode (mode : string) : bool :=
  String.eqb mode "CLIENT_SECRET_BASIC" || String.eqb mode "CLIENT_SECRET_POST".

Definition fourModes : list string :=
  ["SOF_BACKEND"; "PRIVATE_KEY_JWT"; "CLIENT_SECRET_BASIC";
   "CLIENT_SECRET_POST"].

(** The fields a mode requires beyond the common ones. *)
Definition modeKeys (mode : string) : list string :=
  if keyMode mode then ["KID"; "PRIVATE_KEY_PATH"]
  else if secretMode mode then ["CLIENT_SECRET"]
  else [].

Definition missingAmong (CFG : Config) (keys : list string) : list string :=
  filter (fun k => missing (CFG_prop CFG k)) keys.

(** All required fields that are absent or blank. *)
Definition allMissing (CFG : Config) : list string :=
  missingAmong CFG (commonKeys ++ modeKeys (AUTH_MODE CFG)).

(** The fields the two-stage check reports: the missing common fields if
    there are any, otherwise the missing fields of the mode. *)
Definition stagedMissing (CFG : Config) : list string :=
  match missingAmong CFG commonKeys with
  | [] => missingAmong CFG (modeKeys (AUTH_MODE CFG))
  | miss => miss
  end.

(** The value of the [aud] parameter: the override if one is configured,
    else the token endpoint URL. *)
Definition audValue (CFG : Config) : string :=
  if Js.truthy (AUD CFG) then Js.str (AUD CFG) else Js.str (TOKEN_URL CFG).

(** The four auth modes. *)
Inductive AuthMode :=
| SofBackend
| PrivateKeyJwt
| ClientSecretBasic
| ClientSecretPost.

Definition authModeOf (mode : string) : option AuthMode :=
  if String.eqb mode "SOF_BACKEND" then Some SofBackend
  else if String.eqb mode "PRIVATE_KEY_JWT" then Some PrivateKeyJwt
  else if String.eqb mode "CLIENT_SECRET_BASIC" then Some ClientSecretBasic
  else if String.eqb mode "CLIENT_SECRET_POST" then Some ClientSecretPost
  else None.

(** The headers of the token request of a mode: only CLIENT_SECRET_BASIC
    authenticates in a header, with [Basic] and the base64 of
    [id:secret]. *)
Definition expectedHeaders (P : Platform) (m : AuthMode)
    (clientId clientSecret : string) : Headers :=
  match m with
  | ClientSecretBasic =>
      [("Accept", "application/json");
       ("Content-Type", "application/x-www-form-urlencoded");
       ("Authorization",
        "Basic " +++ base64 P (clientId +++ ":" +++ clientSecret))]
  | _ =>
      [("Accept", "application/json");
       ("Content-Type", "application/x-www-form-urlencoded")]
  end.

(** The form fields by which a mode authenticates: the signed assertion in
    the key-based modes, the secret itself in CLIENT_SECRET_POST, none in
    CLIENT_SECRET_BASIC. *)
Definition credentialFields (m : AuthMode)
    (clientId clientSecret assertion : string) : list (string * string) :=
  match m with
  | SofBackend | PrivateKeyJwt =>
      [("client_id", clientId);
       ("client_assertion_type",
        "urn:ietf:params:oauth:client-assertion-type:jwt-bearer");
       ("client_assertion", assertion)]
  | ClientSecretBasic => []
  | ClientSecretPost =>
      [("client_id", clientId); ("client_secret", clientSecret)]
  end.

(** The form of the token request: the grant, the scope, the credentials
    of the mode and, when an audience is required, [aud]. *)
Definition expectedForm (m : AuthMode)
    (scope clientId clientSecret assertion : string)
    (audience : option string) : list (string * string) :=
  ("grant_type", "client_credentials")
  :: ("scope", scope)
  :: credentialFields m clientId clientSecret assertion
  ++ match audience with
     | Some a => [("aud", a)]
     | None => []
     end.

(** The address of the Encounter entry of a notification Bundle: the id
    itself when it already starts with [Encounter/], else [Encounter/]
    followed by the id, or by [unknown] when there is none. *)
Definition derivedFullUrl (i : option string) : string :=
  match i with
  | None => "Encounter/unknown"
  | Some s =>
      if String.eqb s "" then "Encounter/unknown"
      else if Js.startsWith "Encounter/" s then s
      else "Encounter/" +++ s
  end.

(** ** The launch loop *)

(** Both ids can be taken from the encounter. *)
Definition launchable (enc : Resource) : bool :=
  Js.truthy (res_id enc) && Js.truthy (getPatientIdFromEncounter enc).

(** The launch request for an encounter: the target and the JSON body. *)
Definition launchOf (CFG : Config) (enc : Resource) : string * LaunchBody :=
  (ECRNOW_API_BASE CFG +++ "/api/launchPatient",
   {| fhirServerURL := FHIR_BASE CFG;
      patientId := Js.str (getPatientIdFromEncounter enc);
      encounterId := Js.str (res_id enc);
      validationMode := VALIDATION_MODE CFG;
      throttleContext := THROTTLE_CONTEXT CFG |}).

(** The ids in the warning for an encounter that is skipped. *)
Definition skipOf (enc : Resource) : option string * option string :=
  (res_id enc, getPatientIdFromEncounter enc).

(** The launch POSTs issued and the skip warnings written so far, oldest
    first. *)
Definition postOf (rq : Request) : list (string * LaunchBody) :=
  match rq with
  | PostJson target body _ _ => [(target, body)]
  | _ => []
  end.

Definition warningOf (e : ConsoleEvent)
  : list (option string * option string) :=
  match e with
  | WarnSkipping a b => [(a, b)]
  | _ => []
  end.

Definition postsOf (rs : list Request) : list (string * LaunchBody) :=
  flat_map postOf (rev rs).

Definition warningsOf (c : list ConsoleEvent)
  : list (option string * option string) :=
  flat_map warningOf (rev c).

Definition launchPosts (w : World) : list (string * LaunchBody) :=
  postsOf (requests w).

Definition skipWarnings (w : World)
  : list (option string * option string) :=
  warningsOf (console w).

(** Neither a launch POST nor a skip warning is added. *)
Definition quiet (w w' : World) : Prop :=
  launchPosts w' = launchPosts w /\ skipWarnings w' = skipWarnings w.

(** The console lines and the requests that [quiet] rules out. *)
Definition isSkip (e : ConsoleEvent) : bool :=
  match e with WarnSkipping _ _ => true | _ => false end.

Definition isLaunch (rq : Request) : bool :=
  match rq with PostJson _ _ _ _ => true | _ => false end.

(** ** Patient references *)

(** [s] without its first [n] characters. *)
Fixpoint dropChars (n : nat) (s : string) : string :=
  match n, s with
  | O, _ => s
  | S k, String _ r => dropChars k r
  | S _, EmptyString => EmptyString
  end.

(** [s] up to its first slash. *)
Fixpoint upToSlash (s : string) : string :=
  match s with
  | EmptyString => EmptyString
  | String c r =>
      if Ascii.eqb c "/" then EmptyString else String c (upToSlash r)
  end.

(** The path segment that follows [Patient/] in the subject reference,
    when the reference starts with [Patient/]. *)
Definition patientIdSegment (enc : Resource) : option string :=
  match subject enc with
  | Some (mkReference (Some ref)) =>
      if Js.startsWith "Patient/" ref
      then Some (upToSlash (dropChars 8 ref))
      else None
  | _ => None
  end.

(** ** Encounters with both ids *)

(** An id that is present and not the empty string. *)
Definition presentId (v : option string) : option string :=
  match v with
  | Some s => if String.eqb s "" then None else Some s
  | None => None
  end.

(** The Encounter id and the Patient id of an encounter, when both can be
    resolved: the resource's [id], and the path segment that follows
    [Patient/] in its subject reference, both present and not empty. *)
Definition bothIds (enc : Resource) : option (string * string) :=
  match presentId (res_id enc), presentId (patientIdSegment enc) with
  | Some encId, Some patId => Some (encId, patId)
  | _, _ => None
  end.

Definition resolvable (enc : Resource) : bool :=
  match bothIds enc with
  | Some _ => true
  | None => false
  end.

(** What the launch loop owes an encounter: the launch POST, with the two
    ids in its body, when both ids resolve; the skip warning, with what
    there is of the two ids, otherwise. *)
Definition expectedLaunch (CFG : Config) (enc : Resource)
  : list (string * LaunchBody) :=
  match bothIds enc with
  | Some (encId, patId) =>
      [(ECRNOW_API_BASE CFG +++ "/api/launchPatient",
        {| fhirServerURL := FHIR_BASE CFG;
           patientId := patId;
           encounterId := encId;
           validationMode := VALIDATION_MODE CFG;
           throttleContext := THROTTLE_CONTEXT CFG |})]
  | None => []
  end.

Definition expectedWarning (enc : Resource)
  : list (option string * option string) :=
  match bothIds enc with
  | Some _ => []
  | None => [(res_id enc, patientIdSegment enc)]
  end.

(** ** Test doubles *)

Module Demo.

(** A plain serialisation standing in for [URLSearchParams.toString]. *)
Definition toString (ps : list (string * string)) : string :=
  Js.join "&" (map (fun kv => fst kv +++ "=" +++ snd kv) ps).

(** An identifier source that never repeats: [n] letters [u]. *)
Fixpoint unary (n : nat) : string :=
  match n with
  | O => EmptyString
  | S k => String "u" (unary k)
  end.

Definition platform (srv : list Request -> Request -> Response) : Platform :=
  {| server := srv;
     Date_now := fun n => (1740441600123 + Z.of_nat n)%Z;
     uuidv4 := unary;
     crypto_randomUUID := Some unary;
     Math_random16 := fun n => Z.of_nat n;
     readFileSync := fun _ => Some "PEM";
     importPKCS8 := fun pem => Some (mkKey pem);
     jose_sign := fun _ _ _ => Some "header.payload.signature";
     toISOString := fun _ => "2025-02-25T00:00:00.123Z";
     base64 := fun s => s;
     URLSearchParams_toString := toString;
     JSON_stringify := fun r => content r |}.

Definition mkEncounter (i : string) (patientRef : option string) : Resource :=
  mkResource (Some "Encounter") (Some i)
    (Some (mkReference patientRef)) None None None None "".

Definition mkCondition (i : string) (encounterRef : option string)
  : Resource :=
  mkResource (Some "Condition") (Some i) None
    (Some (mkReference encounterRef)) None None None "".

Definition mkBundle (rs : list Resource) (next : option string) : Resource :=
  mkResource (Some "Bundle") None None None
    (Some (map (fun r => mkEntry (Some r)) rs))
    (match next with
     | Some u => Some [mkLink (Some "self") (Some "http://fhir/self");
                       mkLink (Some "next") (Some u)]
     | None => Some [mkLink (Some "self") (Some "http://fhir/self")]
     end)
    None "".

(** [process.env] from a table. *)
Fixpoint env (table : list (string * string)) (k : string) : option string :=
  match table with
  | [] => None
  | (k', v) :: t => if String.eqb k' k then Some v else env t k
  end.

(** The target of a request. *)
Definition targetOf (rq : Request) : string :=
  match rq with
  | Get u _ _ => u
  | PostForm u _ _ _ => u
  | PostJson u _ _ _ => u
  end.

(** A stateless server given by the resources at some URLs; anything else
    is a 404. *)
Fixpoint route (table : list (string * Resource)) (u : string) : Response :=
  match table with
  | [] => Rejected (Some 404%Z)
  | (k, r) :: t => if String.eqb k u then Resolved r else route t u
  end.

Definition serve (table : list (string * Resource))
  : list Request -> Request -> Response :=
  fun _ rq => route table (targetOf rq).

(** Two pages of an Encounter search. *)
Definition twoPages : Platform :=
  platform (serve
    [("http://fhir/Encounter?date=ge2025-02-25&date=le2025-02-27&_count=100",
      mkBundle [mkEncounter "1" (Some "Patient/7");
                mkCondition "c" None] (Some "http://fhir/page2"));
     ("http://fhir/page2",
      mkBundle [mkEncounter "2" None; mkEncounter "1" (Some "Patient/8")]
        None)]).




(** A Condition search whose only page includes the Encounter that its
    Condition refers to. *)
Definition includingPage : Resource :=
  mkBundle [mkCondition "c1" (Some "Encounter/1");
            mkEncounter "1" (Some "Patient/7")] None.

Definition includedEncounter : Platform :=
  platform (serve
    [("http://fhir/Condition/_search", includingPage);
     ("http://fhir/Encounter/1", mkEncounter "1" (Some "Patient/7"))]).

(** Two Conditions whose Encounters are not included; [Encounter/1] cannot
    be fetched (404), [Encounter/2] can.  The Encounter search finds
    nothing, and the Condition search with [_include] finds nothing
    either. *)
Definition twoReferences : Resource :=
  mkBundle [mkCondition "c1" (Some "Encounter/1");
            mkCondition "c2" (Some "Encounter/2")] None.

Definition oneBrokenReference : Platform :=
  platform (fun _ rq =>
    match rq with
    | PostForm _ body _ _ =>
        if String.eqb body "_count=100"
        then Resolved twoReferences
        else Resolved (mkBundle [] None)
    | _ =>
        route [("http://fhir/Encounter?_count=100", mkBundle [] None);
               ("http://fhir/Condition?_count=100", twoReferences);
               ("http://fhir/Encounter/2", mkEncounter "2" None)]
          (targetOf rq)
    end).

(** No token URL and no client secret, in [CLIENT_SECRET_POST] mode. *)
Definition twoFieldsMissing : Config :=
  loadConfig (env [("AUTH_MODE", "client_secret_post");
                   ("CLIENT_ID", "app");
                   ("FHIR_BASE", "http://fhir")]).

(** A complete configuration for the key-based modes. *)
Definition backendEnv : string -> option string :=
  env [("TOKEN_URL", "http://auth/token");
       ("CLIENT_ID", "app");
       ("FHIR_BASE", "http://fhir");
       ("KID", "key-1");
       ("PRIVATE_KEY_PATH", "private.pem")].

(** The end-to-end scenario: launch flow, CLIENT_SECRET_POST, a date range,
    and a FHIR server with the Encounters 1 (with a patient reference) and
    2 (without). *)
Definition launchEnv : string -> option string :=
  env [("FLOW_MODE", "launch");
       ("AUTH_MODE", "CLIENT_SECRET_POST");
       ("START_DATE", "2025-02-25");
       ("END_DATE", "2025-02-27");
       ("TOKEN_URL", "http://auth/token");
       ("CLIENT_ID", "app");
       ("CLIENT_SECRET", "s3cret");
       ("FHIR_BASE", "http://fhir");
       ("ECRNOW_TOKEN_URL", "http://ecr/token");
       ("ECRNOW_CLIENT_ID", "ecr-app")].

Definition tokenResponse (t : string) : Resource :=
  mkResource None None None None None None (Some t) "".

Definition launchScenario : Platform :=
  platform (serve
    [("http://auth/token", tokenResponse "fhir-token");
     ("http://ecr/token", tokenResponse "ecr-token");
     ("http://fhir/Encounter?recorded-date=ge2025-02-25&recorded-date=le2025-02-27&_count=100",
      mkBundle [mkEncounter "1" (Some "Patient/56089");
                mkEncounter "2" None] None);
     ("http://localhost:8081/api/launchPatient", emptyObject)]).

(** A versioned and an absolute patient reference. *)
Definition versionedReference : Resource :=
  mkEncounter "1" (Some "Patient/56089/_history/1").

Definition absoluteReference : Resource :=
  mkEncounter "1" (Some "http://fhir/Patient/56089").

End Demo.

(* ===================================================================== *)
(** * Further specification-side definitions *)
(* ===================================================================== *)

(** The blank characters.  A string here is a sequence of code units
    below 256, one per character, and among those the white space and line
    terminators of ECMAScript are these seven: TAB, LF, VT, FF, CR, SPACE
    and NO-BREAK SPACE.  (Its other white space - U+1680, U+2000 to
    U+200A, U+2028, U+2029, U+202F, U+205F, U+3000 and U+FEFF - lies above
    and has no place in these strings.) *)
Definition blankChars : list ascii :=
  map ascii_of_nat [9; 10; 11; 12; 13; 32; 160].

Definition blank (c : ascii) : bool := existsb (Ascii.eqb c) blankChars.

(** Every character of [s] is blank. *)
Fixpoint allWhitespace (s : string) : bool :=
  match s with
  | EmptyString => true
  | String c r => blank c && allWhitespace r
  end.

(** The character [c] occurs in [s]. *)
Fixpoint occursIn (c : ascii) (s : string) : bool :=
  match s with
  | EmptyString => false
  | String d r => Ascii.eqb d c || occursIn c r
  end.

(** The requests and the console are as before. *)
Definition sameLog (w w' : World) : Prop :=
  requests w' = requests w /\ console w' = console w.

(** ** Further test doubles *)

Module Cases.

(** A platform like [Demo.platform], with its own file system and global
    [crypto]. *)
Definition platformWith (srv : list Request -> Request -> Response)
    (files : option string -> option string)
    (crypto : option (nat -> string)) : Platform :=
  {| server := srv;
     Date_now := Date_now (Demo.platform srv);
     uuidv4 := Demo.unary;
     crypto_randomUUID := crypto;
     Math_random16 := fun n => Z.of_nat (7 * n + 3);
     readFileSync := files;
     importPKCS8 := importPKCS8 (Demo.platform srv);
     jose_sign := jose_sign (Demo.platform srv);
     toISOString := toISOString (Demo.platform srv);
     base64 := base64 (Demo.platform srv);
     URLSearchParams_toString := Demo.toString;
     JSON_stringify := JSON_stringify (Demo.platform srv) |}.

(** No key file can be read. *)
Definition noKeyFile : Platform :=
  platformWith (Demo.serve []) (fun _ => None) (Some Demo.unary).

(** An AUTH_MODE that is not supported. *)
Definition passwordMode : Config :=
  loadConfig (Demo.env [("AUTH_MODE", "password");
                        ("TOKEN_URL", "http://auth/token");
                        ("CLIENT_ID", "app");
                        ("FHIR_BASE", "http://fhir")]).

(** The launch scenario on a runtime without the global [crypto]. *)
Definition launchWithoutCrypto : Platform :=
  platformWith (server Demo.launchScenario) (fun _ => Some "PEM") None.

(** The launch scenario with a case-reporting token endpoint that answers
    without an [access_token]. *)
Definition noReportingToken : Platform :=
  Demo.platform (Demo.serve
    [("http://auth/token", Demo.tokenResponse "fhir-token");
     ("http://ecr/token", emptyObject)]).

(** An Encounter search whose second page cannot be fetched. *)
Definition secondPageFails : Platform :=
  Demo.platform (Demo.serve
    [("http://fhir/Encounter?_count=100",
      Demo.mkBundle [Demo.mkEncounter "1" None] (Some "http://fhir/page2"))]).

(** An Encounter search whose page links to itself. *)
Definition selfLink : Platform :=
  Demo.platform (Demo.serve
    [("http://fhir/Encounter?_count=100",
      Demo.mkBundle [Demo.mkEncounter "1" None]
        (Some "http://fhir/Encounter?_count=100"))]).

(** An Encounter search by condition codes that finds an Encounter. *)
Definition encounterFound : Platform :=
  Demo.platform (Demo.serve
    [("http://fhir/Encounter?_count=100",
      Demo.mkBundle [Demo.mkEncounter "1" None] None)]).

(** A Condition page in which two Conditions refer to the same Encounter. *)
Definition sameReferenceTwice : Platform :=
  Demo.platform (Demo.serve
    [("http://fhir/Encounter?_count=100", Demo.mkBundle [] None);
     ("http://fhir/Condition?_count=100",
      Demo.mkBundle [Demo.mkCondition "c1" (Some "Encounter/2");
                     Demo.mkCondition "c2" (Some "Encounter/2")] None);
     ("http://fhir/Encounter/2", Demo.mkEncounter "2" None)]).

(** A Condition search answered with a Bundle that has an entry without a
    resource. *)
Definition entryWithoutResource : Platform :=
  Demo.platform (Demo.serve
    [("http://fhir/Condition/_search",
      mkResource (Some "Bundle") None None None
        (Some [mkEntry (Some (Demo.mkEncounter "1" None)); mkEntry None])
        None None "")]).

(** A runtime without the global [crypto]. *)
Definition withoutCrypto : Platform :=
  platformWith (Demo.serve []) (fun _ => None) None.

(** A runtime whose [crypto.randomUUID] yields one fixed UUID. *)
Definition fixedUuid : Platform :=
  platformWith (Demo.serve []) (fun _ => None)
    (Some (fun _ => "123e4567-e89b-42d3-a456-426614174000")).

(** A server that rejects every request. *)
Definition nothingServed : Platform := Demo.platform (Demo.serve []).






End Cases.


(** The server answers [rq], asked after the requests [h], and the [n]
    links that follow with pages, and then rejects the next link with
    status [st]. *)
Inductive brokenChain (P : Platform) (headers : Headers)
  : list Request -> Request -> nat -> option Z -> Prop :=
| broken_here h rq st :
    server P h rq = Rejected st ->
    brokenChain P headers h rq 0 st
| broken_later h rq b u n st :
    server P h rq = Resolved b ->
    nextLinkTo b u ->
    brokenChain P headers (rq :: h) (Get u headers 30000) n st ->
    brokenChain P headers h rq (S n) st.

(** A set of URLs that the server never lets the page loop leave: whatever
    was asked before, each of them is answered with a page whose next link
    leads to one of them again (a cycle of links, or an endless chain). *)
Definition endless (P : Platform) (headers : Headers)
    (urls : string -> Prop) : Prop :=
  forall u, urls u ->
    exists b u',
      (forall h, server P h (Get u headers 30000) = Resolved b)
      /\ nextLinkTo b u' /\ urls u'.

(** [m.get(k)]. *)
Fixpoint mapGet {V : Type} (k : string) (m : JsMap.t V) : option V :=
  match m with
  | [] => None
  | (k', v) :: r => if String.eqb k' k then Some v else mapGet k r
  end.

(** The last resource of [l] with the id [k], or [acc] when there is
    none. *)
Definition lastFrom (k : string) (acc : option Resource) (l : list Resource)
  : option Resource :=
  fold_left (fun a r => if String.eqb (Js.str (res_id r)) k then Some r else a)
    l acc.

(** The first [url] ([resource] is ["/Encounter?"]) and [url2]
    (["/Condition?"]) of [fetchEncountersByConditionCodes]. *)
Definition conditionCodesUrl (P : Platform) (fhirBase resource : string)
    (start end_ dateField codesCsv : option string) : string :=
  fhirBase +++ resource
  +++ URLSearchParams_toString P
        (codeParams (buildCodeParam codesCsv)
         ++ dateParams dateField start end_ ++ [("_count", "100")]).

(** The targets of the requests among [rs] that fetch one Encounter by id
    in [fetchEncountersByConditionCodes]: its GETs with the 15 s timeout. *)
Definition directTargets (rs : list Request) : list string :=
  flat_map (fun rq => match rq with
                      | Get u _ t => if (t =? 15000)%Z then [u] else []
                      | _ => []
                      end) rs.

(** The direct fetches among [new] are pairwise different and each of
    them filed its Encounter under the id it asked for. *)
Definition fetchedOnce (fhirBase : string) (m : EncounterMap)
    (new : list Request) : Prop :=
  NoDup (directTargets new)
  /\ Forall (fun u => exists i, u = fhirBase +++ "/Encounter/" +++ i
                                /\ In i (JsMap.keys m))
       (directTargets new).

(** The requests made since the world [w0] satisfy [Q]. *)
Definition since (w0 : World) (Q : list Request -> Prop) (w : World) : Prop :=
  exists new, requests w = new ++ requests w0 /\ Q new.

(** The shape of a string made from a template of [cryptoRandomUuid]'s
    fallback: a hexadecimal digit for every [x], one of [8 9 a b] for every
    [y], the template's own character elsewhere. *)
Definition isHexDigit (d : ascii) : bool :=
  existsb (Ascii.eqb d) (list_ascii_of_string "0123456789abcdef").

Definition isVariantDigit (d : ascii) : bool :=
  existsb (Ascii.eqb d) (list_ascii_of_string "89ab").

Definition conformsChar (c d : ascii) : bool :=
  if Ascii.eqb c "x" then isHexDigit d
  else if Ascii.eqb c "y" then isVariantDigit d
  else Ascii.eqb c d.

Fixpoint conforms (template u : string) : bool :=
  match template, u with
  | EmptyString, EmptyString => true
  | String c t, String d r => conformsChar c d && conforms t r
  | _, _ => false
  end.

(** The number of [x] and [y] in a template: one random draw each. *)
Fixpoint draws (template : string) : nat :=
  match template with
  | EmptyString => 0
  | String c t =>
      (if Ascii.eqb c "x" || Ascii.eqb c "y" then 1 else 0) + draws t
  end.

(** The global [crypto.randomUUID], where there is one, yields strings
    without a colon. *)
Definition colonFree (P : Platform) : Prop :=
  match crypto_randomUUID P with
  | Some gen => forall t, occursIn ":" (gen t) = false
  | None => True
  end.

(** A search or page request of the strategies: sent with a 30 s
    timeout. *)
Definition searchOrPage (rq : Request) : bool :=
  match rq with
  | Get _ _ t => (t =? 30000)%Z
  | PostForm _ _ _ t => (t =? 30000)%Z
  | PostJson _ _ _ _ => false
  end.

(** The exception [e] is the rejection of the last request made, which was
    a search or page request. *)
Definition abortedBy (P : Platform) (e : Exn) (w' : World) : Prop :=
  exists rq rest st,
    requests w' = rq :: rest
    /\ server P rest rq = Rejected st
    /\ e = AxiosError st
    /\ searchOrPage rq = true.


(* ===================================================================== *)
(** * Lemmas on the JavaScript model *)
(* ===================================================================== *)

Module JsMapFacts.
Section WithValue.
Variable V : Type.
Implicit Types (m : JsMap.t V) (k : string) (v : V).

Lemma has_In k m : JsMap.has k m = true <-> In k (JsMap.keys m).
Proof.
  unfold JsMap.has, JsMap.keys. rewrite existsb_exists, in_map_iff.
  split; intros [[k' v'] [H1 H2]]; exists (k', v'); simpl in *.
  - apply String.eqb_eq in H2. split; [ exact H2 | exact H1 ].
  - subst. split; [ exact H2 | apply String.eqb_refl ].
Qed.

Lemma has_false_not_In k m : JsMap.has k m = false <-> ~ In k (JsMap.keys m).
Proof.
  rewrite <- has_In. destruct (JsMap.has k m); split; congruence.
Qed.

Lemma keys_set k v m :
  JsMap.keys (JsMap.set k v m)
  = if JsMap.has k m then JsMap.keys m else JsMap.keys m ++ [k].
Proof.
  induction m as [| [k' v'] r IH]; [ reflexivity | ].
  cbn [JsMap.set JsMap.has existsb fst].
  destruct (String.eqb_spec k' k) as [-> | Hne]; [ reflexivity | ].
  cbn [orb]. fold (JsMap.has k r).
  change (JsMap.keys ((k', v') :: JsMap.set k v r))
    with (k' :: JsMap.keys (JsMap.set k v r)).
  rewrite IH. destruct (JsMap.has k r); reflexivity.
Qed.

Lemma In_set kv k v m :
  In kv (JsMap.set k v m) -> kv = (k, v) \/ In kv m.
Proof.
  induction m as [| [k' v'] r IH]; simpl.
  - intros [<- | []]. now left.
  - destruct (String.eqb_spec k' k) as [-> | Hne]; simpl.
    + intros [<- | Hin]; [ now left | right; now right ].
    + intros [<- | Hin]; [ right; now left | ].
      destruct (IH Hin) as [-> | H1]; [ now left | right; now right ].
Qed.

Lemma Forall_set (Q : string * V -> Prop) k v m :
  Forall Q m -> Q (k, v) -> Forall Q (JsMap.set k v m).
Proof.
  intros Hm Hk. apply Forall_forall. intros kv Hin.
  destruct (In_set _ _ _ _ Hin) as [-> | H]; [ exact Hk | ].
  rewrite Forall_forall in Hm. now apply Hm.
Qed.

Lemma NoDup_keys_set k v m :
  NoDup (JsMap.keys m) -> NoDup (JsMap.keys (JsMap.set k v m)).
Proof.
  intros Hnd. rewrite keys_set.
  destruct (JsMap.has k m) eqn:Hh; [ exact Hnd | ].
  apply has_false_not_In in Hh.
  apply NoDup_app; [ exact Hnd | constructor; [ intros [] | constructor ] | ].
  intros x Hx [<- | []]. contradiction.
Qed.

Lemma keys_set_incl k v m x :
  In x (JsMap.keys m) -> In x (JsMap.keys (JsMap.set k v m)).
Proof.
  intros H. rewrite keys_set. destruct (JsMap.has k m); [ exact H | ].
  apply in_or_app. now left.
Qed.

Lemma key_set_In k v m : In k (JsMap.keys (JsMap.set k v m)).
Proof.
  rewrite keys_set. destruct (JsMap.has k m) eqn:Hh.
  - now apply has_In.
  - apply in_or_app. right. now left.
Qed.

Lemma size_set_pos k v m : JsMap.size (JsMap.set k v m) <> 0.
Proof.
  destruct m as [| [k' v'] r]; simpl; [ discriminate | ].
  destruct (String.eqb k' k); discriminate.
Qed.

End WithValue.
End JsMapFacts.

(* ===================================================================== *)
(** * Lemmas on JavaScript strings *)
(* ===================================================================== *)

Lemma split_head s : hd_error (Js.split "/" s) = Some (upToSlash s).
Proof.
  induction s as [| c r IH]; simpl; [ reflexivity | ].
  destruct (Ascii.eqb c "/"); simpl; [ reflexivity | ].
  destruct (Js.split "/" r) as [| h t]; [ discriminate | ].
  simpl in *. now inversion IH.
Qed.

Lemma prefix_dropChars p s :
  String.prefix p s = true -> s = p +++ dropChars (String.length p) s.
Proof.
  revert s. induction p as [| c p IH]; intros s H; simpl in *.
  - reflexivity.
  - destruct s as [| d s]; [ discriminate | ]. simpl in H.
    destruct (Ascii.ascii_dec c d) as [-> | Hne]; [ | discriminate ].
    now rewrite <- (IH s H).
Qed.

Lemma segment1_Patient s :
  Js.segment1 ("Patient/" +++ s) = Some (upToSlash s).
Proof.
  unfold Js.segment1. cbn [String.append Js.split Ascii.eqb Bool.eqb].
  destruct (Js.split "/" s) as [| h t] eqn:Hs.
  - pose proof (split_head s) as H. rewrite Hs in H. discriminate.
  - pose proof (split_head s) as H. rewrite Hs in H. simpl in *. exact H.
Qed.

(** A reference that starts with [Encounter/] has a segment after the
    slash: the [None] branches after that test are never taken. *)
Lemma segment1_after_prefix ref :
  Js.startsWith "Encounter/" ref = true ->
  exists i, Js.segment1 ref = Some i.
Proof.
  intros H. unfold Js.startsWith in H.
  rewrite (prefix_dropChars _ _ H). unfold Js.segment1.
  cbn [String.append Js.split Ascii.eqb Bool.eqb String.length].
  destruct (Js.split "/" (dropChars 10 ref)) as [| h t] eqn:Hs.
  - pose proof (split_head (dropChars 10 ref)) as Hh. rewrite Hs in Hh.
    discriminate.
  - exists h. reflexivity.
Qed.

(* ===================================================================== *)
(** * Lemmas on the monad *)
(* ===================================================================== *)

Lemma bind_Ok_inv {A B} (m : M A) (k : A -> M B) w b w' :
  bind m k w = (Ok b, w') ->
  exists a w1, m w = (Ok a, w1) /\ k a w1 = (Ok b, w').
Proof.
  unfold bind. destruct (m w) as [[a | e |] w1]; try discriminate.
  intros H. now exists a, w1.
Qed.

Lemma bind_Ok {A B} (m : M A) (k : A -> M B) w a w1 :
  m w = (Ok a, w1) -> bind m k w = k a w1.
Proof. unfold bind. now intros ->. Qed.

Lemma bind_Throw {A B} (m : M A) (k : A -> M B) w e w1 :
  m w = (Throw e, w1) -> bind m k w = (Throw e, w1).
Proof. unfold bind. now intros ->. Qed.

Lemma bind_OutOfFuel {A B} (m : M A) (k : A -> M B) w w1 :
  m w = (OutOfFuel, w1) -> bind m k w = (OutOfFuel, w1).
Proof. unfold bind. now intros ->. Qed.

(** A relation between the world before and after that every step of a
    computation keeps. *)
Section Footprint.
Variable R : World -> World -> Prop.
Hypothesis R_refl : forall w, R w w.
Hypothesis R_trans : forall a b c, R a b -> R b c -> R a c.

Lemma keeps_ret {A} (a : A) : keeps R (ret a).
Proof. intros w. apply R_refl. Qed.

Lemma keeps_throw {A} e : keeps R (@throw A e).
Proof. intros w. apply R_refl. Qed.

Lemma keeps_out_of_fuel {A} : keeps R (@out_of_fuel A).
Proof. intros w. apply R_refl. Qed.

Lemma keeps_bind {A B} (m : M A) (k : A -> M B) :
  keeps R m -> (forall a, keeps R (k a)) -> keeps R (bind m k).
Proof.
  intros Hm Hk w. unfold bind. specialize (Hm w).
  destruct (m w) as [[a | e |] w1]; simpl in *; try exact Hm.
  eapply R_trans; [ exact Hm | apply Hk ].
Qed.

Lemma keeps_try_catch {A} (m : M A) h :
  keeps R m -> (forall e, keeps R (h e)) -> keeps R (try_catch m h).
Proof.
  intros Hm Hh w. unfold try_catch. specialize (Hm w).
  destruct (m w) as [[a | e |] w1]; simpl in *; try exact Hm.
  eapply R_trans; [ exact Hm | apply Hh ].
Qed.

Lemma keeps_for_of {A S} (l : list A) (body : A -> S -> M S) s :
  (forall x s', keeps R (body x s')) -> keeps R (for_of l body s).
Proof.
  intros Hb. revert s. induction l as [| x r IH]; intros s; simpl.
  - apply keeps_ret.
  - apply keeps_bind; [ apply Hb | intros s'; apply IH ].
Qed.

Lemma keeps_if {A} (c : bool) (m1 m2 : M A) :
  keeps R m1 -> keeps R m2 -> keeps R (if c then m1 else m2).
Proof. destruct c; auto. Qed.

End Footprint.

(* ===================================================================== *)
(** * The harvest invariant *)
(* ===================================================================== *)

Lemma isEncounterWithId_proper r :
  isEncounterWithId r = true ->
  properEncounter r /\ res_id r = Some (Js.str (res_id r)).
Proof.
  unfold isEncounterWithId, properEncounter, Js.equals, Js.truthy.
  destruct (resourceType r) as [t |]; [ | discriminate ].
  destruct (res_id r) as [i |]; [ | now rewrite andb_false_r ].
  intros H. apply andb_prop in H. destruct H as [Ht Hi].
  apply String.eqb_eq in Ht. subst t.
  repeat split. exists i. split; [ reflexivity | ].
  intros ->. discriminate.
Qed.

Lemma harvested_empty : harvested JsMap.empty.
Proof. split; constructor. Qed.

Lemma harvested_set r m :
  isEncounterWithId r = true -> harvested m ->
  harvested (JsMap.set (Js.str (res_id r)) r m).
Proof.
  intros Hr [Hnd Hall]. split.
  - now apply JsMapFacts.NoDup_keys_set.
  - apply JsMapFacts.Forall_set; [ exact Hall | ].
    simpl. now apply isEncounterWithId_proper.
Qed.

Lemma harvestEntry_harvested m e :
  harvested m -> harvested (harvestEntry m e).
Proof.
  intros Hm. unfold harvestEntry.
  destruct (resource e) as [r |]; [ | exact Hm ].
  destruct (isEncounterWithId r) eqn:Hr; [ | exact Hm ].
  now apply harvested_set.
Qed.

Lemma harvestEncounters_harvested b m :
  harvested m -> harvested (harvestEncounters b m).
Proof.
  unfold harvestEncounters. generalize (entries b) as es.
  intros es. revert m. induction es as [| e r IH]; intros m Hm; simpl.
  - exact Hm.
  - apply IH. now apply harvestEntry_harvested.
Qed.

Lemma followPages_harvested P fuel headers :
  forall u m w m' w',
    harvested m ->
    followPages P fuel headers u m w = (Ok m', w') ->
    harvested m'.
Proof.
  induction fuel as [| fuel IH]; intros u m w m' w' Hm Hrun.
  - destruct u; simpl in Hrun; [ discriminate | ].
    inversion Hrun; subst. exact Hm.
  - destruct u as [target |]; simpl in Hrun.
    + apply bind_Ok_inv in Hrun. destruct Hrun as (b & w1 & _ & Hrest).
      eapply IH; [ | exact Hrest ].
      now apply harvestEncounters_harvested.
    + inversion Hrun; subst. exact Hm.
Qed.

Lemma harvested_values m :
  harvested m ->
  Forall properEncounter (JsMap.values m)
  /\ NoDup (map res_id (JsMap.values m)).
Proof.
  intros [Hnd Hall]. split.
  - unfold JsMap.values. apply Forall_map.
    eapply Forall_impl; [ | exact Hall ]. now intros kv [H _].
  - assert (Heq : map res_id (JsMap.values m) = map Some (JsMap.keys m)).
    { unfold JsMap.values, JsMap.keys. rewrite !map_map.
      apply map_ext_Forall.
      eapply Forall_impl; [ | exact Hall ]. now intros kv [_ H]. }
    rewrite Heq. apply Injective_map_NoDup; [ | exact Hnd ].
    intros x y H. now inversion H.
Qed.

(* ===================================================================== *)
(** * fetchEncountersByDateRange returns proper, distinct Encounters *)
(* ===================================================================== *)

(** C9. Every element of the sequence returned by
    [fetchEncountersByDateRange] has resourceType ['Encounter'] and a
    present, non-empty id (other bundle entries are dropped by the harvest),
    and no two returned elements share an id. *)
Theorem fetchEncountersByDateRange_proper_distinct
    P fuel fhirBase token start end_ dateField patientId status count
    w encs w' :
  fetchEncountersByDateRange P fuel fhirBase token start end_ dateField
    patientId status count w = (Ok encs, w') ->
  Forall properEncounter encs /\ NoDup (map res_id encs).
Proof.
  unfold fetchEncountersByDateRange. intros Hrun.
  apply bind_Ok_inv in Hrun. destruct Hrun as (_ & w1 & _ & Hrun).
  apply bind_Ok_inv in Hrun. destruct Hrun as (m & w2 & Hloop & Hret).
  inversion Hret; subst.
  apply harvested_values.
  eapply followPages_harvested; [ apply harvested_empty | exact Hloop ].
Qed.

Lemma fetchEncountersByDateRange_proper_distinct_witness :
  let encs := [Demo.mkEncounter "1" (Some "Patient/8");
               Demo.mkEncounter "2" None] in
  Forall properEncounter encs /\ NoDup (map res_id encs).
Proof.
  eapply (fetchEncountersByDateRange_proper_distinct Demo.twoPages 5
            "http://fhir" "tok" (Some "2025-02-25") (Some "2025-02-27")
            None None None None world0).
  vm_compute. reflexivity.
Defined.

(* ===================================================================== *)
(** * Pagination *)
(* ===================================================================== *)

Lemma equals_next_false l :
  relation l <> Some "next" -> Js.equals (relation l) "next" = false.
Proof.
  unfold Js.equals. destruct (relation l) as [r |]; [ | reflexivity ].
  intros H. destruct (String.eqb_spec r "next"); [ subst; congruence | ].
  reflexivity.
Qed.

Lemma nextUrl_noNextLink b : noNextLink b -> nextUrl b = None.
Proof.
  unfold noNextLink, nextUrl. intros H.
  induction H as [| l ls Hl _ IH]; simpl; [ reflexivity | ].
  now rewrite (equals_next_false _ Hl).
Qed.

Lemma nextUrl_nextLinkTo b u : nextLinkTo b u -> nextUrl b = Some u.
Proof.
  unfold nextLinkTo, nextUrl.
  intros (pre & l & post & -> & Hpre & Hrel & Hurl & Hne).
  induction Hpre as [| l' ls Hl _ IH]; simpl.
  - unfold Js.equals at 1. rewrite Hrel. simpl.
    rewrite Hurl. unfold Js.truthy.
    destruct (String.eqb_spec u ""); [ contradiction | reflexivity ].
  - now rewrite (equals_next_false _ Hl).
Qed.

Lemma followPages_chain P headers h rq pages :
  pageChain P headers h rq pages ->
  forall u fuel m w,
    rq = Get u headers 30000 ->
    h = requests w ->
    length pages <= fuel ->
    exists w' gets,
      followPages P fuel headers (Some u) m w = (Ok (harvestAll pages m), w')
      /\ requests w' = gets ++ requests w
      /\ length gets = length pages
      /\ Forall (isPageGet headers) gets
      /\ console w' = console w
      /\ ticks w' = ticks w.
Proof.
  induction 1 as [h rq b Hsrv Hlast | h rq b u' bs Hsrv Hnext Hchain IH];
    intros u fuel m w -> -> Hfuel;
    (destruct fuel as [| fuel]; [ simpl in Hfuel; lia | ]); simpl.
  - unfold bind, axios. rewrite Hsrv.
    rewrite (nextUrl_noNextLink _ Hlast).
    destruct fuel; simpl;
      (eexists; exists [Get u headers 30000]; repeat split;
       [ repeat constructor; now exists u ]).
  - unfold bind at 1. unfold axios at 1. rewrite Hsrv.
    rewrite (nextUrl_nextLinkTo _ _ Hnext).
    set (w1 := mkWorld (Get u headers 30000 :: requests w) (console w)
                 (ticks w)).
    destruct (IH u' fuel (harvestEncounters b m) w1 eq_refl eq_refl)
      as (w' & gets & Hrun & Hreq & Hlen & Hall & Hcon & Htick).
    { simpl in Hfuel. lia. }
    exists w', (gets ++ [Get u headers 30000]). repeat split.
    + exact Hrun.
    + rewrite Hreq. simpl. now rewrite <- app_assoc.
    + rewrite length_app, Hlen. simpl. lia.
    + apply Forall_app. split; [ exact Hall | ].
      repeat constructor. now exists u.
    + exact Hcon.
    + exact Htick.
Qed.

(** What a harvest leaves in the map. *)
Lemma harvestEntry_keys m e x :
  In x (JsMap.keys m) -> In x (JsMap.keys (harvestEntry m e)).
Proof.
  intros H. unfold harvestEntry.
  destruct (resource e) as [r |]; [ | exact H ].
  destruct (isEncounterWithId r); [ | exact H ].
  now apply JsMapFacts.keys_set_incl.
Qed.

Lemma harvestEncounters_keys b m x :
  In x (JsMap.keys m) -> In x (JsMap.keys (harvestEncounters b m)).
Proof.
  unfold harvestEncounters. generalize (entries b) as es. intros es.
  revert m. induction es as [| e r IH]; intros m H; simpl; [ exact H | ].
  apply IH. now apply harvestEntry_keys.
Qed.

Lemma harvestEncounters_adds b m r :
  In r (pageEncounters b) ->
  In (Js.str (res_id r)) (JsMap.keys (harvestEncounters b m)).
Proof.
  unfold harvestEncounters, pageEncounters.
  generalize (entries b) as es. intros es. revert m.
  induction es as [| e t IH]; intros m H; simpl in *; [ contradiction | ].
  apply in_app_or in H. destruct H as [H | H].
  - assert (Hk : In (Js.str (res_id r)) (JsMap.keys (harvestEntry m e))).
    { unfold harvestEntry. destruct (resource e) as [r0 |]; [ | contradiction ].
      destruct (isEncounterWithId r0); [ | contradiction ].
      destruct H as [<- | []]. apply JsMapFacts.key_set_In. }
    clear H. revert Hk. generalize (harvestEntry m e) as m1.
    clear IH. induction t as [| e' t' IHt]; intros m1 Hk; simpl;
      [ exact Hk | ].
    apply IHt. now apply harvestEntry_keys.
  - now apply IH.
Qed.

Lemma harvestEncounters_values b m r :
  In r (JsMap.values (harvestEncounters b m)) ->
  In r (JsMap.values m) \/ In r (pageEncounters b).
Proof.
  unfold harvestEncounters, pageEncounters.
  generalize (entries b) as es. intros es. revert m.
  induction es as [| e t IH]; intros m H; simpl in *; [ now left | ].
  destruct (IH _ H) as [H1 | H1].
  - unfold harvestEntry in H1. destruct (resource e) as [r0 |]; [ | now left ].
    destruct (isEncounterWithId r0); [ | now left ].
    unfold JsMap.values in H1. apply in_map_iff in H1.
    destruct H1 as (kv & <- & Hin).
    destruct (JsMapFacts.In_set _ _ _ _ _ Hin) as [-> | Hm].
    + right. simpl. now left.
    + left. unfold JsMap.values. now apply in_map.
  - right. apply in_or_app. now right.
Qed.

Lemma harvestAll_keys pages m x :
  In x (JsMap.keys m) -> In x (JsMap.keys (harvestAll pages m)).
Proof.
  unfold harvestAll. revert m.
  induction pages as [| b t IH]; intros m H; simpl; [ exact H | ].
  apply IH. now apply harvestEncounters_keys.
Qed.

Lemma harvestAll_adds pages m r :
  In r (allEncounters pages) ->
  In (Js.str (res_id r)) (JsMap.keys (harvestAll pages m)).
Proof.
  unfold harvestAll, allEncounters. revert m.
  induction pages as [| b t IH]; intros m H; simpl in *; [ contradiction | ].
  apply in_app_or in H. destruct H as [H | H].
  - apply (harvestAll_keys t). now apply harvestEncounters_adds.
  - now apply IH.
Qed.

Lemma harvestAll_values pages m r :
  In r (JsMap.values (harvestAll pages m)) ->
  In r (JsMap.values m) \/ In r (allEncounters pages).
Proof.
  unfold harvestAll, allEncounters. revert m.
  induction pages as [| b t IH]; intros m H; simpl in *; [ now left | ].
  destruct (IH _ H) as [H1 | H1].
  - destruct (harvestEncounters_values _ _ _ H1) as [H2 | H2];
      [ now left | right; apply in_or_app; now left ].
  - right. apply in_or_app. now right.
Qed.

Lemma harvestAll_harvested pages m :
  harvested m -> harvested (harvestAll pages m).
Proof.
  unfold harvestAll. revert m.
  induction pages as [| b t IH]; intros m H; simpl; [ exact H | ].
  apply IH. now apply harvestEncounters_harvested.
Qed.

Lemma pageEncounters_accepted b r :
  In r (pageEncounters b) -> isEncounterWithId r = true.
Proof.
  unfold pageEncounters. intros H. apply in_flat_map in H.
  destruct H as (e & _ & H). destruct (resource e) as [r0 |]; [ | contradiction ].
  destruct (isEncounterWithId r0) eqn:Hr; [ | contradiction ].
  destruct H as [<- | []]. exact Hr.
Qed.

Lemma allEncounters_accepted pages r :
  In r (allEncounters pages) -> isEncounterWithId r = true.
Proof.
  unfold allEncounters. intros H. apply in_flat_map in H.
  destruct H as (b & _ & H). eapply pageEncounters_accepted; eassumption.
Qed.

(** Under the invariant, a key of the map is the id of one of its values. *)
Lemma harvested_key_value m k :
  harvested m -> In k (JsMap.keys m) ->
  exists r, In r (JsMap.values m) /\ res_id r = Some k.
Proof.
  intros [_ Hall] Hk. unfold JsMap.keys in Hk. apply in_map_iff in Hk.
  destruct Hk as ([k' r] & <- & Hin). exists r. split.
  - unfold JsMap.values. now apply (in_map snd) in Hin.
  - rewrite Forall_forall in Hall. now destruct (Hall _ Hin).
Qed.

(** The result of harvesting [pages] into a map that satisfies the
    invariant is the union of the map and the pages, one entry per id. *)
Lemma harvestAll_union pages m r :
  harvested m ->
  In r (allEncounters pages) ->
  exists r', In r' (JsMap.values (harvestAll pages m))
             /\ res_id r' = res_id r.
Proof.
  intros Hm Hr.
  destruct (harvested_key_value _ _ (harvestAll_harvested pages _ Hm)
              (harvestAll_adds pages m r Hr)) as (r' & Hin & Hid).
  exists r'. split; [ exact Hin | ].
  rewrite Hid. symmetry.
  now apply isEncounterWithId_proper, allEncounters_accepted with pages.
Qed.

Lemma append_nonEmpty a c b :
  Js.nonEmpty (a +++ String c b) = Some (a +++ String c b).
Proof.
  unfold Js.nonEmpty. destruct a; reflexivity.
Qed.

Lemma pageChain_stateless P headers h rq pages :
  stateless P ->
  pageChain P headers h rq pages ->
  forall h', pageChain P headers h' rq pages.
Proof.
  intros Hst. induction 1 as [h rq b Hsrv Hlast | h rq b u bs Hsrv Hnext _ IH];
    intros h'.
  - apply chain_last; [ now rewrite (Hst h' h) | exact Hlast ].
  - eapply chain_next; [ now rewrite (Hst h' h) | exact Hnext | apply IH ].
Qed.

(** The pages after the first, from the point where the first page has been
    answered. *)
Lemma followPages_rest P headers h rq b bs :
  stateless P ->
  pageChain P headers h rq (b :: bs) ->
  forall fuel m w,
    length bs <= fuel ->
    exists w' gets,
      followPages P fuel headers (nextUrl b) m w = (Ok (harvestAll bs m), w')
      /\ requests w' = gets ++ requests w
      /\ length gets = length bs
      /\ Forall (isPageGet headers) gets
      /\ console w' = console w
      /\ ticks w' = ticks w.
Proof.
  intros Hst Hchain fuel m w Hfuel.
  inversion Hchain
    as [h0 rq0 b0 Hsrv Hlast | h0 rq0 b0 u bs0 Hsrv Hnext Hrest]; subst.
  - rewrite (nextUrl_noNextLink _ Hlast). exists w, []. simpl.
    destruct fuel; repeat split; constructor.
  - rewrite (nextUrl_nextLinkTo _ _ Hnext).
    eapply followPages_chain; [ | reflexivity | reflexivity | exact Hfuel ].
    eapply pageChain_stateless; eassumption.
Qed.

(** Step 1 of the POST strategy always completes when every entry of the
    first page has a resource: each direct fetch is guarded. *)
Lemma fetchReferenced_completes P headers fhirBase ref m w :
  harvested m ->
  exists m' w' directs,
    fetchReferenced P headers fhirBase ref m w = (Ok m', w')
    /\ requests w' = directs ++ requests w
    /\ Forall (isDirectFetch fhirBase headers) directs
    /\ harvested m'.
Proof.
  intros Hm. unfold fetchReferenced.
  destruct (Js.segment1 ref) as [encId |];
    [ | exists m, w, []; repeat split; try constructor; apply Hm ].
  destruct (negb (Js.truthy (Some encId)));
    [ exists m, w, []; repeat split; try constructor; apply Hm | ].
  destruct (JsMap.has encId m);
    [ exists m, w, []; repeat split; try constructor; apply Hm | ].
  unfold try_catch, bind, axios.
  set (rq := Get (fhirBase +++ "/Encounter/" +++ encId) headers 20000).
  assert (Hd : Forall (isDirectFetch fhirBase headers) [rq])
    by (repeat constructor; now exists encId).
  destruct (server P (requests w) rq) as [enc | st].
  - destruct (isEncounterWithId enc) eqn:Henc; simpl;
      eexists; eexists; exists [rq]; (split; [ reflexivity | ]);
      repeat split; try exact Hd; try apply Hm.
    + apply (harvested_set _ _ Henc Hm).
    + apply (harvested_set _ _ Henc Hm).
  - simpl. eexists; eexists; exists [rq]; (split; [ reflexivity | ]).
    repeat split; try exact Hd; apply Hm.
Qed.

Lemma for_of_fetchReferenced_completes P headers fhirBase refs :
  forall m w,
    harvested m ->
    exists m' w' directs,
      for_of refs (fetchReferenced P headers fhirBase) m w = (Ok m', w')
      /\ requests w' = directs ++ requests w
      /\ Forall (isDirectFetch fhirBase headers) directs
      /\ harvested m'.
Proof.
  induction refs as [| ref t IH]; intros m w Hm; simpl.
  - exists m, w, []. repeat split; try constructor; apply Hm.
  - destruct (fetchReferenced_completes P headers fhirBase ref m w Hm)
      as (m1 & w1 & d1 & Hrun1 & Hreq1 & Hd1 & Hm1).
    destruct (IH m1 w1 Hm1) as (m2 & w2 & d2 & Hrun2 & Hreq2 & Hd2 & Hm2).
    exists m2, w2, (d2 ++ d1). repeat split.
    + now rewrite (bind_Ok _ _ _ _ _ Hrun1).
    + rewrite Hreq2, Hreq1. now rewrite app_assoc.
    + apply Forall_app. now split.
    + apply Hm2.
    + apply Hm2.
Qed.

Lemma console_log_run e w :
  console_log e w = (Ok tt, mkWorld (requests w) (e :: console w) (ticks w)).
Proof. reflexivity. Qed.

Lemma fetchFirstPageReferences_completes P headers fhirBase bundle w :
  Forall (fun e => resource e <> None) (entries bundle) ->
  exists m' w' directs,
    fetchFirstPageReferences P headers fhirBase bundle JsMap.empty w
    = (Ok m', w')
    /\ requests w' = directs ++ requests w
    /\ Forall (isDirectFetch fhirBase headers) directs
    /\ harvested m'.
Proof.
  intros Hres. unfold fetchFirstPageReferences, entries in *.
  destruct (entry bundle) as [es |];
    [ | exists JsMap.empty, w, []; repeat split; constructor ].
  destruct (Js.equals (resourceType bundle) "Bundle");
    [ | exists JsMap.empty, w, []; repeat split; constructor ].
  assert (Hall : forallb (fun e => match resource e with
                                   | Some _ => true | None => false end) es
                 = true).
  { apply forallb_forall. intros e He. rewrite Forall_forall in Hres.
    specialize (Hres e He). now destruct (resource e). }
  rewrite Hall.
  set (conditions := filter _ es).
  set (refs := flat_map encounterRefOf conditions).
  unfold bind at 1. rewrite console_log_run.
  unfold bind at 1. rewrite console_log_run.
  set (w2 := mkWorld _ _ _).
  assert (Hwarn : exists w3,
             (if (length refs =? 0)%nat
              then console_log WarnNoReferences else ret tt) w2 = (Ok tt, w3)
             /\ requests w3 = requests w).
  { destruct (length refs =? 0)%nat; eexists; split; reflexivity. }
  destruct Hwarn as (w3 & Hw3 & Hreq3).
  rewrite (bind_Ok _ _ _ _ _ Hw3).
  destruct (for_of_fetchReferenced_completes P headers fhirBase refs
              JsMap.empty w3 harvested_empty)
    as (m1 & w4 & d & Hrun & Hreq & Hd & Hm1).
  rewrite (bind_Ok _ _ _ _ _ Hrun).
  unfold bind. rewrite console_log_run.
  eexists; eexists; exists d. split; [ reflexivity | ].
  simpl. rewrite Hreq, Hreq3. repeat split; try exact Hd; apply Hm1.
Qed.

Lemma fetchEncountersByDateRange_pages
    P fuel fhirBase token start end_ dateField patientId status count
    w pages :
  length pages <= fuel ->
  pageChain P (fhirHeaders token) (requests w)
    (Get (dateRangeUrl P fhirBase start end_ dateField patientId status count)
       (fhirHeaders token) 30000) pages ->
  exists w' gets,
    fetchEncountersByDateRange P fuel fhirBase token start end_ dateField
      patientId status count w
    = (Ok (JsMap.values (harvestAll pages JsMap.empty)), w')
    /\ requests w' = gets ++ requests w
    /\ length gets = length pages
    /\ Forall (isPageGet (fhirHeaders token)) gets.
Proof.
  intros Hfuel Hchain. unfold fetchEncountersByDateRange.
  unfold bind at 1. rewrite console_log_run.
  set (w1 := mkWorld _ _ _).
  assert (Hne : Js.nonEmpty
                  (dateRangeUrl P fhirBase start end_ dateField patientId
                     status count)
                = Some (dateRangeUrl P fhirBase start end_ dateField
                          patientId status count)).
  { unfold dateRangeUrl. cbv zeta. apply append_nonEmpty. }
  rewrite Hne.
  destruct (followPages_chain P _ _ _ _ Hchain _ fuel JsMap.empty w1
              eq_refl eq_refl Hfuel)
    as (w' & gets & Hrun & Hreq & Hlen & Hall & _ & _).
  rewrite (bind_Ok _ _ _ _ _ Hrun).
  exists w', gets. repeat split; assumption.
Qed.

Lemma size_zero_keys m : (JsMap.size (V:=Resource) m =? 0)%nat = true ->
  JsMap.keys m = [].
Proof. destruct m; [ reflexivity | discriminate ]. Qed.

(** ** The last page, and the pages of a search as they are served *)









(** ** What step 1 of the POST strategy adds to the map *)








(** Steps of a [pageChain] over concrete pages. *)
Ltac no_next_link :=
  unfold noNextLink; cbn; repeat constructor; cbn; discriminate.

Ltac next_link_after pre :=
  match goal with
  | |- nextLinkTo _ _ =>
      unfold nextLinkTo; cbn;
      eexists pre, _, _; split; [ reflexivity | ];
      split; [ repeat constructor; cbn; discriminate | ];
      split; [ reflexivity | ];
      split; [ reflexivity | discriminate ]
  end.


(* ===================================================================== *)
(** * The POST strategy returns proper, distinct Encounters *)
(* ===================================================================== *)

Lemma for_of_Ok_invariant {A S} (I : S -> Prop) (l : list A)
    (body : A -> S -> M S) :
  (forall x s w s' w', I s -> body x s w = (Ok s', w') -> I s') ->
  forall s w s' w', I s -> for_of l body s w = (Ok s', w') -> I s'.
Proof.
  intros Hbody. induction l as [| x t IH]; intros s w s' w' Hs Hrun;
    simpl in Hrun.
  - inversion Hrun; subst. exact Hs.
  - apply bind_Ok_inv in Hrun. destruct Hrun as (s1 & w1 & H1 & H2).
    eapply IH; [ | exact H2 ]. eapply Hbody; eassumption.
Qed.

Lemma fetchReferenced_harvested P headers fhirBase ref m w m' w' :
  harvested m ->
  fetchReferenced P headers fhirBase ref m w = (Ok m', w') ->
  harvested m'.
Proof.
  intros Hm Hrun.
  destruct (fetchReferenced_completes P headers fhirBase ref m w Hm)
    as (m1 & w1 & d & Hrun1 & _ & _ & Hm1).
  rewrite Hrun in Hrun1. inversion Hrun1; subst. exact Hm1.
Qed.

Lemma fetchFirstPageReferences_harvested P headers fhirBase bundle m w m' w' :
  harvested m ->
  fetchFirstPageReferences P headers fhirBase bundle m w = (Ok m', w') ->
  harvested m'.
Proof.
  intros Hm. unfold fetchFirstPageReferences.
  destruct (entry bundle) as [es |]; [ | now inversion 1; subst ].
  destruct (Js.equals (resourceType bundle) "Bundle");
    [ | now inversion 1; subst ].
  destruct (forallb _ es); [ | discriminate ].
  intros Hrun.
  apply bind_Ok_inv in Hrun. destruct Hrun as (_ & w1 & _ & Hrun).
  apply bind_Ok_inv in Hrun. destruct Hrun as (_ & w2 & _ & Hrun).
  apply bind_Ok_inv in Hrun. destruct Hrun as (_ & w3 & _ & Hrun).
  apply bind_Ok_inv in Hrun. destruct Hrun as (m1 & w4 & Hloop & Hrun).
  apply bind_Ok_inv in Hrun. destruct Hrun as (_ & w5 & _ & Hrun).
  inversion Hrun; subst.
  eapply (for_of_Ok_invariant harvested); [ | exact Hm | exact Hloop ].
  intros x s v s' v'. apply fetchReferenced_harvested.
Qed.

Lemma fetchEncounterByRef_harvested P headers fhirBase ref m w m' w' :
  harvested m ->
  fetchEncounterByRef P headers fhirBase ref m w = (Ok m', w') ->
  harvested m'.
Proof.
  intros Hm. unfold fetchEncounterByRef.
  destruct ref as [r |]; [ | now inversion 1; subst ].
  destruct (negb (Js.startsWith "Encounter/" r)); [ now inversion 1; subst | ].
  destruct (Js.segment1 r) as [i |]; [ | now inversion 1; subst ].
  destruct (negb (Js.truthy (Some i)) || JsMap.has i m);
    [ now inversion 1; subst | ].
  intros Hrun. apply bind_Ok_inv in Hrun.
  destruct Hrun as ([d |] & w1 & _ & Hrun).
  - destruct (isEncounterWithId d) eqn:Hd; inversion Hrun; subst;
      [ now apply harvested_set | exact Hm ].
  - inversion Hrun; subst. exact Hm.
Qed.

Lemma processBundleConditions_harvested P headers fhirBase b m w m' w' :
  harvested m ->
  processBundleConditions P headers fhirBase b m w = (Ok m', w') ->
  harvested m'.
Proof.
  unfold processBundleConditions.
  apply (for_of_Ok_invariant harvested).
  intros e s v s' v' Hs.
  destruct (resource e) as [res |]; [ | now inversion 1; subst ].
  destruct (Js.equals (resourceType res) "Condition");
    [ | now inversion 1; subst ].
  now apply fetchEncounterByRef_harvested.
Qed.

Lemma followFallbackPages_harvested P fuel headers fhirBase :
  forall u m w m' w',
    harvested m ->
    followFallbackPages P fuel headers fhirBase u m w = (Ok m', w') ->
    harvested m'.
Proof.
  induction fuel as [| fuel IH]; intros u m w m' w' Hm Hrun;
    destruct u as [target |]; simpl in Hrun;
    try discriminate; try (inversion Hrun; subst; exact Hm).
  apply bind_Ok_inv in Hrun. destruct Hrun as (b & w1 & _ & Hrun).
  apply bind_Ok_inv in Hrun. destruct Hrun as (m1 & w2 & Hp & Hrun).
  eapply IH; [ | exact Hrun ].
  eapply processBundleConditions_harvested; eassumption.
Qed.

(** Whatever the server does, a sequence returned by the POST strategy
    holds proper Encounters with pairwise distinct ids. *)
Lemma fetchEncountersByConditionCodesPost_proper_distinct
    P fuel fhirBase token start end_ dateField codesCsv includePatient count
    w encs w' :
  fetchEncountersByConditionCodesPost P fuel fhirBase token start end_
    dateField codesCsv includePatient count w = (Ok encs, w') ->
  Forall properEncounter encs /\ NoDup (map res_id encs).
Proof.
  unfold fetchEncountersByConditionCodesPost. intros Hrun.
  apply bind_Ok_inv in Hrun. destruct Hrun as (bundle & w1 & _ & Hrun).
  apply bind_Ok_inv in Hrun. destruct Hrun as (m1 & w2 & H1 & Hrun).
  apply bind_Ok_inv in Hrun. destruct Hrun as (m2 & w3 & H2 & Hrun).
  apply bind_Ok_inv in Hrun. destruct Hrun as (m3 & w4 & H3 & Hrun).
  inversion Hrun; subst. apply harvested_values.
  assert (Hm1 : harvested m1)
    by (eapply fetchFirstPageReferences_harvested;
        [ apply harvested_empty | exact H1 ]).
  assert (Hm2 : harvested m2)
    by (eapply followPages_harvested;
        [ apply harvestEncounters_harvested, Hm1 | exact H2 ]).
  destruct (JsMap.size m2 =? 0)%nat; [ | inversion H3; subst; exact Hm2 ].
  apply bind_Ok_inv in H3. destruct H3 as (b & w5 & _ & H3).
  apply bind_Ok_inv in H3. destruct H3 as (m4 & w6 & Hp & H3).
  eapply followFallbackPages_harvested; [ | exact H3 ].
  eapply processBundleConditions_harvested; eassumption.
Qed.

(* ===================================================================== *)
(** * Re-fetching and failed fetches in the Condition strategies *)
(* ===================================================================== *)

(** C1. At a Condition search whose response includes the Encounter that
    its Condition refers to, [fetchEncountersByConditionCodesPost] returns
    one entry for that id, but it issues [GET Encounter/1] for the included
    Encounter: step 1 runs before the harvest, on an empty map. *)
Theorem included_encounter_is_fetched_again :
  let P := Demo.includedEncounter in
  let search :=
    conditionSearch P "http://fhir" "tok" None None None None None None in
  let run :=
    fetchEncountersByConditionCodesPost P 1 "http://fhir" "tok"
      None None None None None None world0 in
  server P [] search = Resolved Demo.includingPage
  /\ pageEncounters Demo.includingPage
     = [Demo.mkEncounter "1" (Some "Patient/7")]
  /\ fst run = Ok [Demo.mkEncounter "1" (Some "Patient/7")]
  /\ rev (requests (snd run))
     = [search; Get "http://fhir/Encounter/1" (postHeaders "tok") 20000]
  /\ In (InfoPulled "1") (console (snd run)).
Proof. vm_compute. repeat split. auto 10. Qed.

(** C2. With two referenced Encounters of which the first cannot be
    fetched, pass 2 of [fetchEncountersByConditionCodes] rejects with the
    HTTP error: nothing is logged for the failure, [Encounter/2] is never
    requested and no partial result is returned.  On the same data the
    fallback of [fetchEncountersByConditionCodesPost] goes on and returns
    [Encounter/2], without a log line for the failure. *)
Theorem failed_fetch_aborts_get_strategy :
  let P := Demo.oneBrokenReference in
  let run :=
    fetchEncountersByConditionCodes P 3 "http://fhir" "tok"
      None None None None world0 in
  let runPost :=
    fetchEncountersByConditionCodesPost P 3 "http://fhir" "tok"
      None None None None None None world0 in
  fst run = Throw (AxiosError (Some 404%Z))
  /\ console (snd run)
     = [LogUrl "http://fhir/Condition?_count=100";
        LogUrl "http://fhir/Encounter?_count=100"]
  /\ hd_error (requests (snd run))
     = Some (Get "http://fhir/Encounter/1" (fhirHeaders "tok") 15000)
  /\ fst runPost = Ok [Demo.mkEncounter "2" None]
  /\ console (snd runPost)
     = [InfoTotalCollected 0; WarnNoReferences;
        InfoConditionsReferencing 0; InfoFoundConditions 0].
Proof. vm_compute. repeat split. Qed.

(* ===================================================================== *)
(** * getFhirToken: required configuration *)
(* ===================================================================== *)

Lemma need_run obj keys w :
  need obj keys w
  = match filter (fun k => missing (obj k)) keys with
    | [] => (Ok tt, w)
    | miss => (Throw (Error ("Missing env: " +++ Js.join ", " miss)), w)
    end.
Proof.
  unfold need. destruct (filter _ keys); reflexivity.
Qed.

Lemma missingAmong_app CFG a b :
  missingAmong CFG (a ++ b) = missingAmong CFG a ++ missingAmong CFG b.
Proof. apply filter_app. Qed.

Lemma stagedMissing_incl CFG k :
  In k (stagedMissing CFG) -> In k (allMissing CFG).
Proof.
  unfold stagedMissing, allMissing. rewrite missingAmong_app.
  intros H. apply in_or_app.
  destruct (missingAmong CFG commonKeys); [ now right | now left ].
Qed.

Lemma stagedMissing_nonempty CFG :
  allMissing CFG <> [] -> stagedMissing CFG <> [].
Proof.
  unfold stagedMissing, allMissing. rewrite missingAmong_app.
  destruct (missingAmong CFG commonKeys); [ | discriminate ].
  exact (fun H => H).
Qed.

(** The counterexample to C3 as stated: with the token URL and the client
    secret both missing in [CLIENT_SECRET_POST] mode, the message names the
    token URL only. *)
Lemma missing_fields_not_all_listed :
  allMissing Demo.twoFieldsMissing = ["TOKEN_URL"; "CLIENT_SECRET"]
  /\ getFhirToken (Demo.platform (Demo.serve [])) Demo.twoFieldsMissing world0
     = (Throw (Error "Missing env: TOKEN_URL"), world0).
Proof. vm_compute. split; reflexivity. Qed.

(** C3, amended. Whenever a field required by the mode is absent or blank,
    [getFhirToken] throws the configuration error in the world it started
    in, so before any network call; the message lists exactly the missing
    ones among TOKEN_URL, CLIENT_ID and FHIR_BASE when there are any, and
    otherwise exactly the missing fields of the mode.  The fields listed
    are always missing required fields. *)
Theorem getFhirToken_reports_missing_in_stages P CFG w :
  allMissing CFG <> [] ->
  getFhirToken P CFG w
  = (Throw (Error ("Missing env: " +++ Js.join ", " (stagedMissing CFG))), w)
  /\ stagedMissing CFG <> []
  /\ incl (stagedMissing CFG) (allMissing CFG).
Proof.
  intros Hmiss.
  split; [ | split; [ now apply stagedMissing_nonempty
                    | intros k; apply stagedMissing_incl ] ].
  pose proof (stagedMissing_nonempty CFG Hmiss) as Hst.
  unfold getFhirToken. unfold bind at 1. rewrite need_run.
  unfold stagedMissing in *. fold commonKeys.
  change (filter (fun k => missing (CFG_prop CFG k)) commonKeys)
    with (missingAmong CFG commonKeys).
  destruct (missingAmong CFG commonKeys) as [| k ks]; [ | reflexivity ].
  unfold modeKeys, keyMode, secretMode in *.
  destruct (String.eqb (AUTH_MODE CFG) "SOF_BACKEND"
            || String.eqb (AUTH_MODE CFG) "PRIVATE_KEY_JWT").
  - unfold bind at 1. unfold bind at 1. rewrite need_run.
    change (filter (fun k => missing (CFG_prop CFG k))
              ["KID"; "PRIVATE_KEY_PATH"])
      with (missingAmong CFG ["KID"; "PRIVATE_KEY_PATH"]).
    destruct (missingAmong CFG ["KID"; "PRIVATE_KEY_PATH"]);
      [ contradiction | reflexivity ].
  - destruct (String.eqb (AUTH_MODE CFG) "CLIENT_SECRET_BASIC").
    + simpl orb in *. cbv iota in *.
      unfold bind at 1. unfold bind at 1. rewrite need_run.
      change (filter (fun k => missing (CFG_prop CFG k)) ["CLIENT_SECRET"])
        with (missingAmong CFG ["CLIENT_SECRET"]).
      destruct (missingAmong CFG ["CLIENT_SECRET"]);
        [ contradiction | reflexivity ].
    + destruct (String.eqb (AUTH_MODE CFG) "CLIENT_SECRET_POST").
      * simpl orb in *. cbv iota in *.
        unfold bind at 1. unfold bind at 1. rewrite need_run.
        change (filter (fun k => missing (CFG_prop CFG k)) ["CLIENT_SECRET"])
          with (missingAmong CFG ["CLIENT_SECRET"]).
        destruct (missingAmong CFG ["CLIENT_SECRET"]);
          [ contradiction | reflexivity ].
      * simpl in Hst. contradiction.
Qed.

Lemma getFhirToken_reports_missing_in_stages_witness :
  getFhirToken (Demo.platform (Demo.serve [])) Demo.twoFieldsMissing world0
  = (Throw (Error ("Missing env: "
                   +++ Js.join ", " (stagedMissing Demo.twoFieldsMissing))),
     world0)
  /\ stagedMissing Demo.twoFieldsMissing <> []
  /\ incl (stagedMissing Demo.twoFieldsMissing)
          (allMissing Demo.twoFieldsMissing).
Proof.
  apply (getFhirToken_reports_missing_in_stages
           (Demo.platform (Demo.serve [])) Demo.twoFieldsMissing world0).
  vm_compute. discriminate.
Defined.

(* ===================================================================== *)
(** * getFhirToken: the token request *)
(* ===================================================================== *)

Lemma signClientAssertion_requests P clientId aud kid path w r w1 :
  signClientAssertion P clientId aud kid path w = (r, w1) ->
  requests w1 = requests w /\ console w1 = console w.
Proof.
  unfold signClientAssertion.
  destruct (readFileSync P path); [ | now inversion 1 ].
  destruct (importPKCS8 P s); [ | now inversion 1 ].
  unfold bind, tick. simpl.
  destruct (jose_sign P c _ _); now inversion 1.
Qed.

Lemma common_present CFG :
  missingAmong CFG commonKeys = [] ->
  Js.truthy (TOKEN_URL CFG) = true.
Proof.
  unfold missingAmong, commonKeys. simpl.
  change (CFG_prop CFG "TOKEN_URL") with (TOKEN_URL CFG).
  unfold missing at 1.
  destruct (Js.truthy (TOKEN_URL CFG)); [ reflexivity | ].
  simpl. discriminate.
Qed.

Lemma or_else_truthy v d :
  d <> "" -> Js.truthy (Some (Js.or_else v d)) = true.
Proof.
  intros Hd. unfold Js.or_else.
  destruct (Js.truthy v) eqn:Hv.
  - destruct v; [ exact Hv | discriminate ].
  - simpl. destruct (String.eqb_spec d ""); [ contradiction | reflexivity ].
Qed.

Lemma aud_value CFG :
  Js.truthy (TOKEN_URL CFG) = true ->
  Js.truthy (Js.or_opt (AUD CFG) (TOKEN_URL CFG)) = true
  /\ Js.str (Js.or_opt (AUD CFG) (TOKEN_URL CFG)) = audValue CFG.
Proof.
  intros Ht. unfold Js.or_opt, audValue.
  destruct (Js.truthy (AUD CFG)) eqn:Ha; split; auto.
Qed.

(** The last step of [getFhirToken]: whatever the token endpoint answers,
    exactly the token request has been added. *)
Lemma token_post_requests P u body h (w : World) :
  requests
    (snd (bind (axios P (PostForm u body h 25000))
            (fun resp =>
               if negb (Js.truthy (access_token resp))
               then throw (Error
                      ("FHIR token endpoint did not return access_token. Body: "
                       +++ JSON_stringify P resp))
               else ret (Js.str (access_token resp))) w))
  = PostForm u body h 25000 :: requests w.
Proof.
  unfold bind, axios.
  destruct (server P (requests w) _) as [d | st]; simpl; [ | reflexivity ].
  destruct (negb (Js.truthy (access_token d))); reflexivity.
Qed.

Ltac decide_fields :=
  cbn [map fst snd app In];
  intuition (try discriminate; try congruence).

Lemma token_request_shape_for_config P CFG w tok :
  In (AUTH_MODE CFG) fourModes ->
  allMissing CFG = [] ->
  Js.truthy (Some (SCOPE CFG)) = true ->
  (keyMode (AUTH_MODE CFG) = true ->
   exists w1,
     signClientAssertion P (CLIENT_ID CFG)
       (Js.or_opt (AUD CFG) (TOKEN_URL CFG)) (KID CFG) (PRIVATE_KEY_PATH CFG) w
     = (Ok tok, w1)) ->
  exists headers form m,
    requests (snd (getFhirToken P CFG w))
    = PostForm (Js.str (TOKEN_URL CFG)) (URLSearchParams_toString P form)
        headers 25000 :: requests w
    /\ (In "Authorization" (map fst headers)
        <-> AUTH_MODE CFG = "CLIENT_SECRET_BASIC")
    /\ (In "client_assertion" (map fst form)
        <-> keyMode (AUTH_MODE CFG) = true)
    /\ (In "client_assertion_type" (map fst form)
        <-> keyMode (AUTH_MODE CFG) = true)
    /\ In ("grant_type", "client_credentials") form
    /\ In ("scope", SCOPE CFG) form
    /\ (In "aud" (map fst form) <-> REQUIRE_AUD CFG = true)
    /\ (forall v, In ("aud", v) form -> v = audValue CFG)
    /\ authModeOf (AUTH_MODE CFG) = Some m
    /\ headers
       = expectedHeaders P m (Js.str (CLIENT_ID CFG))
           (Js.str (CLIENT_SECRET CFG))
    /\ form
       = expectedForm m (SCOPE CFG) (Js.str (CLIENT_ID CFG))
           (Js.str (CLIENT_SECRET CFG)) tok
           (if REQUIRE_AUD CFG then Some (audValue CFG) else None).
Proof.
  intros Hmode Hall Hscope Hsign.
  unfold allMissing in Hall. rewrite missingAmong_app in Hall.
  apply app_eq_nil in Hall. destruct Hall as [Hc Hm].
  destruct (aud_value CFG (common_present CFG Hc)) as [Haud Hval].
  unfold getFhirToken. unfold bind at 1. rewrite need_run.
  change (filter (fun k => missing (CFG_prop CFG k))
            ["TOKEN_URL"; "CLIENT_ID"; "FHIR_BASE"])
    with (missingAmong CFG commonKeys).
  rewrite Hc. rewrite Hscope, Haud, Hval, andb_true_r.
  destruct Hmode as [H | [H | [H | [H | []]]]]; rewrite <- H in *;
    cbn [String.eqb Ascii.eqb Bool.eqb orb andb keyMode secretMode modeKeys]
      in *.
  - (* SOF_BACKEND *)
    destruct (Hsign eq_refl) as (w1 & Hs).
    destruct (signClientAssertion_requests _ _ _ _ _ _ _ _ Hs) as [Hrq _].
    unfold bind at 1. unfold bind at 1. unfold bind at 1. rewrite need_run.
    change (filter (fun k => missing (CFG_prop CFG k))
              ["KID"; "PRIVATE_KEY_PATH"])
      with (missingAmong CFG ["KID"; "PRIVATE_KEY_PATH"]).
    rewrite Hm. rewrite Hs. unfold ret at 1. cbn [fst snd].
    eexists; eexists; exists SofBackend.
    split; [ rewrite token_post_requests, Hrq; reflexivity | ].
    destruct (REQUIRE_AUD CFG); decide_fields.
  - (* PRIVATE_KEY_JWT *)
    destruct (Hsign eq_refl) as (w1 & Hs).
    destruct (signClientAssertion_requests _ _ _ _ _ _ _ _ Hs) as [Hrq _].
    unfold bind at 1. unfold bind at 1. unfold bind at 1. rewrite need_run.
    change (filter (fun k => missing (CFG_prop CFG k))
              ["KID"; "PRIVATE_KEY_PATH"])
      with (missingAmong CFG ["KID"; "PRIVATE_KEY_PATH"]).
    rewrite Hm. rewrite Hs. unfold ret at 1. cbn [fst snd].
    eexists; eexists; exists PrivateKeyJwt.
    split; [ rewrite token_post_requests, Hrq; reflexivity | ].
    destruct (REQUIRE_AUD CFG); decide_fields.
  - (* CLIENT_SECRET_BASIC *)
    unfold bind at 1. unfold bind at 1. rewrite need_run.
    change (filter (fun k => missing (CFG_prop CFG k)) ["CLIENT_SECRET"])
      with (missingAmong CFG ["CLIENT_SECRET"]).
    rewrite Hm. unfold ret at 1. cbn [fst snd].
    eexists; eexists; exists ClientSecretBasic.
    split; [ rewrite token_post_requests; reflexivity | ].
    destruct (REQUIRE_AUD CFG); decide_fields.
  - (* CLIENT_SECRET_POST *)
    unfold bind at 1. unfold bind at 1. rewrite need_run.
    change (filter (fun k => missing (CFG_prop CFG k)) ["CLIENT_SECRET"])
      with (missingAmong CFG ["CLIENT_SECRET"]).
    rewrite Hm. unfold ret at 1. cbn [fst snd].
    eexists; eexists; exists ClientSecretPost.
    split; [ rewrite token_post_requests; reflexivity | ].
    destruct (REQUIRE_AUD CFG); decide_fields.
Qed.

(** C5. For each of the four auth modes and a complete configuration (in
    the key-based modes, with a key that signs), [getFhirToken] issues
    exactly one request, the form POST to the token URL, and that request
    is the one of the mode.  Its headers are [Accept] and [Content-Type],
    with [Authorization: Basic base64(id:secret)] in CLIENT_SECRET_BASIC
    and in no other mode.  Its form is [grant_type=client_credentials] and
    the [scope] (default [system/*.read]), then the credentials of the
    mode: [client_id], [client_assertion_type] and the signed
    [client_assertion] in SOF_BACKEND and PRIVATE_KEY_JWT only, [client_id]
    and [client_secret] in CLIENT_SECRET_POST, nothing in
    CLIENT_SECRET_BASIC; then [aud], exactly when REQUIRE_AUD is set, with
    the override or else the token URL as its value. *)
Theorem getFhirToken_request_shape P env w tok :
  In (AUTH_MODE (loadConfig env)) fourModes ->
  allMissing (loadConfig env) = [] ->
  (keyMode (AUTH_MODE (loadConfig env)) = true ->
   exists w1,
     signClientAssertion P (CLIENT_ID (loadConfig env))
       (Js.or_opt (AUD (loadConfig env)) (TOKEN_URL (loadConfig env)))
       (KID (loadConfig env)) (PRIVATE_KEY_PATH (loadConfig env)) w
     = (Ok tok, w1)) ->
  exists headers form m,
    requests (snd (getFhirToken P (loadConfig env) w))
    = PostForm (Js.str (env "TOKEN_URL")) (URLSearchParams_toString P form)
        headers 25000 :: requests w
    /\ (In "Authorization" (map fst headers)
        <-> AUTH_MODE (loadConfig env) = "CLIENT_SECRET_BASIC")
    /\ (In "client_assertion" (map fst form)
        <-> keyMode (AUTH_MODE (loadConfig env)) = true)
    /\ (In "client_assertion_type" (map fst form)
        <-> keyMode (AUTH_MODE (loadConfig env)) = true)
    /\ In ("grant_type", "client_credentials") form
    /\ In ("scope", Js.or_else (env "SCOPE") "system/*.read") form
    /\ (In "aud" (map fst form) <-> REQUIRE_AUD (loadConfig env) = true)
    /\ (forall v, In ("aud", v) form -> v = audValue (loadConfig env))
    /\ authModeOf (AUTH_MODE (loadConfig env)) = Some m
    /\ headers
       = expectedHeaders P m (Js.str (env "CLIENT_ID"))
           (Js.str (env "CLIENT_SECRET"))
    /\ form
       = expectedForm m (Js.or_else (env "SCOPE") "system/*.read")
           (Js.str (env "CLIENT_ID")) (Js.str (env "CLIENT_SECRET")) tok
           (if REQUIRE_AUD (loadConfig env)
            then Some (audValue (loadConfig env)) else None).
Proof.
  intros Hmode Hall Hsign.
  apply (token_request_shape_for_config P (loadConfig env) w tok Hmode Hall);
    [ | exact Hsign ].
  apply or_else_truthy. discriminate.
Qed.

Lemma getFhirToken_request_shape_witness :
  let P := Demo.platform (Demo.serve []) in
  let CFG := loadConfig Demo.backendEnv in
  exists headers form m,
    requests (snd (getFhirToken P CFG world0))
    = [PostForm "http://auth/token" (Demo.toString form) headers 25000]
    /\ (In "Authorization" (map fst headers)
        <-> AUTH_MODE CFG = "CLIENT_SECRET_BASIC")
    /\ (In "client_assertion" (map fst form) <-> keyMode (AUTH_MODE CFG) = true)
    /\ (In "client_assertion_type" (map fst form)
        <-> keyMode (AUTH_MODE CFG) = true)
    /\ In ("grant_type", "client_credentials") form
    /\ In ("scope", "system/*.read") form
    /\ (In "aud" (map fst form) <-> REQUIRE_AUD CFG = true)
    /\ (forall v, In ("aud", v) form -> v = audValue CFG)
    /\ authModeOf (AUTH_MODE CFG) = Some m
    /\ headers = expectedHeaders P m "app" "undefined"
    /\ form
       = expectedForm m "system/*.read" "app" "undefined"
           "header.payload.signature" (Some "http://auth/token").
Proof.
  apply (getFhirToken_request_shape (Demo.platform (Demo.serve []))
           Demo.backendEnv world0 "header.payload.signature").
  - vm_compute. now left.
  - vm_compute. reflexivity.
  - intros _. eexists. vm_compute. reflexivity.
Defined.

(** The token requests of the two secret-based modes, on a concrete
    configuration. *)
Example token_request_of_secret_modes :
  let P := Demo.platform (Demo.serve []) in
  let secretEnv mode :=
    Demo.env [("AUTH_MODE", mode); ("TOKEN_URL", "http://auth/token");
              ("CLIENT_ID", "app"); ("CLIENT_SECRET", "s3cret");
              ("FHIR_BASE", "http://fhir"); ("REQUIRE_AUD", "false")] in
  requests (snd (getFhirToken P (loadConfig (secretEnv "client_secret_basic"))
                   world0))
  = [PostForm "http://auth/token"
       (Demo.toString [("grant_type", "client_credentials");
                       ("scope", "system/*.read")])
       [("Accept", "application/json");
        ("Content-Type", "application/x-www-form-urlencoded");
        ("Authorization", "Basic " +++ base64 P "app:s3cret")]
       25000]
  /\ requests (snd (getFhirToken P
                      (loadConfig (secretEnv "CLIENT_SECRET_POST")) world0))
     = [PostForm "http://auth/token"
          (Demo.toString [("grant_type", "client_credentials");
                          ("scope", "system/*.read");
                          ("client_id", "app");
                          ("client_secret", "s3cret")])
          [("Accept", "application/json");
           ("Content-Type", "application/x-www-form-urlencoded")]
          25000].
Proof. vm_compute. split; reflexivity. Qed.

(* ===================================================================== *)
(** * signClientAssertion *)
(* ===================================================================== *)

Lemma signClientAssertion_Ok_inv P clientId audience keyId path w tok w1 :
  signClientAssertion P clientId audience keyId path w = (Ok tok, w1) ->
  exists key,
    jose_sign P key (mkJwtHeader "RS256" keyId)
      (mkJwtPayload clientId clientId audience (uuidv4 P (S (ticks w)))
         (Date_now P (ticks w) / 1000)
         (Date_now P (ticks w) / 1000 + 300))
    = Some tok
    /\ ticks w1 = S (S (ticks w)).
Proof.
  unfold signClientAssertion.
  destruct (readFileSync P path) as [pem |]; [ | discriminate ].
  destruct (importPKCS8 P pem) as [key |]; [ | discriminate ].
  unfold bind, tick. simpl.
  destruct (jose_sign P key _ _) as [t |] eqn:Hs; [ | discriminate ].
  intros H. inversion H; subst. exists key. split; [ exact Hs | reflexivity ].
Qed.

(** C6. A successful [signClientAssertion] returns the signature of the
    protected header [{alg: RS256, kid}] and of a payload whose [iss] and
    [sub] are the client id, whose [aud] is the given audience, whose [iat]
    is the current time in seconds and whose [exp] is [iat + 300]; its
    [jti] is a fresh draw of the identifier source, so with a source that
    does not repeat, the [jti] of a later call ([w2] is any later world,
    the next call being the case [w2 = w1]) differs. *)
Theorem signClientAssertion_token
    P clientId audience keyId path w tok w1
    clientId' audience' keyId' path' w2 tok' w3 :
  (forall i j, i <> j -> uuidv4 P i <> uuidv4 P j) ->
  signClientAssertion P clientId audience keyId path w = (Ok tok, w1) ->
  ticks w1 <= ticks w2 ->
  signClientAssertion P clientId' audience' keyId' path' w2 = (Ok tok', w3) ->
  exists key p key' p',
    jose_sign P key (mkJwtHeader "RS256" keyId) p = Some tok
    /\ iss p = clientId /\ sub p = clientId /\ aud p = audience
    /\ iat p = (Date_now P (ticks w) / 1000)%Z
    /\ (exp p - iat p = 300)%Z
    /\ jose_sign P key' (mkJwtHeader "RS256" keyId') p' = Some tok'
    /\ (exp p' - iat p' = 300)%Z
    /\ jti p <> jti p'.
Proof.
  intros Hfresh H1 Hle H2.
  destruct (signClientAssertion_Ok_inv _ _ _ _ _ _ _ _ H1) as (key & Hs & Ht).
  destruct (signClientAssertion_Ok_inv _ _ _ _ _ _ _ _ H2) as (key' & Hs' & _).
  eexists key, _, key', _.
  split; [ exact Hs | ]. cbn [iss sub aud iat exp jti].
  repeat (split; [ reflexivity || lia | ]).
  split; [ exact Hs' | ]. cbn [iat exp jti].
  split; [ lia | ]. apply Hfresh. lia.
Qed.

Lemma unary_length n : String.length (Demo.unary n) = n.
Proof. induction n; simpl; congruence. Qed.

Lemma unary_fresh i j : i <> j -> Demo.unary i <> Demo.unary j.
Proof.
  intros Hne Heq. apply Hne.
  rewrite <- (unary_length i), <- (unary_length j). now rewrite Heq.
Qed.

Lemma signClientAssertion_token_witness :
  let P := Demo.platform (Demo.serve []) in
  exists key p key' p',
    jose_sign P key (mkJwtHeader "RS256" (Some "key-1")) p
    = Some "header.payload.signature"
    /\ iss p = Some "app" /\ sub p = Some "app"
    /\ aud p = Some "http://auth/token"
    /\ iat p = (Date_now P 0 / 1000)%Z
    /\ (exp p - iat p = 300)%Z
    /\ jose_sign P key' (mkJwtHeader "RS256" (Some "key-1")) p'
       = Some "header.payload.signature"
    /\ (exp p' - iat p' = 300)%Z
    /\ jti p <> jti p'.
Proof.
  apply (signClientAssertion_token (Demo.platform (Demo.serve []))
           (Some "app") (Some "http://auth/token") (Some "key-1")
           (Some "private.pem") world0 "header.payload.signature"
           (mkWorld [] [] 2)
           (Some "app") (Some "http://auth/token") (Some "key-1")
           (Some "private.pem") (mkWorld [] [] 2) "header.payload.signature"
           (mkWorld [] [] 4)).
  - intros i j. apply unary_fresh.
  - vm_compute. reflexivity.
  - simpl. lia.
  - vm_compute. reflexivity.
Defined.

(* ===================================================================== *)
(** * buildNotificationBundle *)
(* ===================================================================== *)

Lemma replaceXY_completes P c w :
  exists d w', Notification.replaceXY P c w = (Ok d, w').
Proof.
  unfold Notification.replaceXY.
  destruct (Ascii.eqb c "x" || Ascii.eqb c "y"); eexists; eexists;
    reflexivity.
Qed.

Lemma replaceAll_completes P template :
  forall w, exists r w', Notification.replaceAll P template w = (Ok r, w').
Proof.
  induction template as [| c t IH]; intros w; simpl.
  - eexists; eexists; reflexivity.
  - destruct (replaceXY_completes P c w) as (d & w1 & Hd).
    destruct (IH w1) as (r & w2 & Hr).
    exists (String d r), w2.
    rewrite (bind_Ok _ _ _ _ _ Hd), (bind_Ok _ _ _ _ _ Hr). reflexivity.
Qed.

Lemma cryptoRandomUuid_completes P w :
  exists u w', Notification.cryptoRandomUuid P w = (Ok u, w').
Proof.
  unfold Notification.cryptoRandomUuid.
  generalize "xxxxxxxx-xxxx-4xxx-yxxx-xxxxxxxxxxxx" as template.
  intros template. unfold try_catch, randomUUID.
  destruct (crypto_randomUUID P) as [gen |].
  - eexists; eexists; reflexivity.
  - apply replaceAll_completes.
Qed.

Lemma derivedFullUrl_source i :
  (if match i with
      | Some s => Js.startsWith "Encounter/" s
      | None => false
      end
   then Js.str i
   else "Encounter/" +++ Js.or_else i "unknown")
  = derivedFullUrl i.
Proof.
  unfold derivedFullUrl, Js.or_else, Js.truthy.
  destruct i as [s |]; [ | reflexivity ].
  destruct (String.eqb_spec s "") as [-> | Hne]; [ reflexivity | ].
  destruct (Js.startsWith "Encounter/" s); reflexivity.
Qed.

(** C7. For every Encounter, [buildNotificationBundle] returns a Bundle of
    type ['history'] with exactly two entries: a Parameters resource whose
    [status] parameter has valueCode ['active'], and the Encounter itself
    under a fullUrl derived from its id: ['Encounter/123'] for the id
    ['123'], ['Encounter/unknown'] when there is no id. *)
Theorem buildNotificationBundle_shape P encounter o w :
  exists b w' e1 e2 p,
    Notification.buildNotificationBundle P encounter o w = (Ok b, w')
    /\ Notification.resourceType b = "Bundle"
    /\ Notification.type b = "history"
    /\ Notification.entry b = [e1; e2]
    /\ Notification.resource e1 = Notification.ParametersResource p
    /\ Notification.p_resourceType p = "Parameters"
    /\ In (Notification.mkParameter "status"
             (Notification.valueCode "active"))
          (Notification.parameter p)
    /\ Notification.resource e2 = Notification.EncounterResource encounter
    /\ Notification.fullUrl e2 = derivedFullUrl (res_id encounter)
    /\ derivedFullUrl (Some "123") = "Encounter/123"
    /\ derivedFullUrl None = "Encounter/unknown"
    /\ derivedFullUrl (Some "") = "Encounter/unknown".
Proof.
  unfold Notification.buildNotificationBundle.
  unfold bind at 1. unfold tick at 1.
  set (w1 := mkWorld _ _ _).
  destruct (cryptoRandomUuid_completes P w1) as (u & w' & Hu).
  rewrite (bind_Ok _ _ _ _ _ Hu). unfold ret.
  eexists; exists w'; eexists; eexists; eexists.
  split; [ reflexivity | ].
  cbn [Notification.resourceType Notification.type Notification.entry
       Notification.resource Notification.fullUrl Notification.p_resourceType
       Notification.parameter].
  repeat match goal with |- _ /\ _ => split end; try reflexivity.
  - cbn [In Notification.parameter]. auto 10.
  - apply derivedFullUrl_source.
Qed.

(* ===================================================================== *)
(** * The launch flow *)
(* ===================================================================== *)

Lemma getPatientIdFromEncounter_segment enc :
  getPatientIdFromEncounter enc = patientIdSegment enc.
Proof.
  unfold getPatientIdFromEncounter, patientIdSegment.
  destruct (subject enc) as [[[ref |]] |]; try reflexivity.
  cbn [reference]. unfold Js.or_else, Js.truthy.
  destruct (String.eqb_spec ref "") as [-> | Hne]; [ reflexivity | ].
  cbn [negb]. unfold Js.startsWith.
  destruct (String.prefix "Patient/" ref) eqn:Hp; [ | reflexivity ].
  rewrite (prefix_dropChars _ _ Hp) at 1.
  apply segment1_Patient.
Qed.

Lemma quiet_refl w : quiet w w.
Proof. split; reflexivity. Qed.

Lemma quiet_trans a b c : quiet a b -> quiet b c -> quiet a c.
Proof. intros [H1 H2] [H3 H4]. split; congruence. Qed.

Lemma q_ret {A} (a : A) : keeps quiet (ret a).
Proof. apply keeps_ret, quiet_refl. Qed.

Lemma q_throw {A} e : keeps quiet (@throw A e).
Proof. apply keeps_throw, quiet_refl. Qed.

Lemma q_out_of_fuel {A} : keeps quiet (@out_of_fuel A).
Proof. apply keeps_out_of_fuel, quiet_refl. Qed.

Lemma q_bind {A B} (m : M A) (k : A -> M B) :
  keeps quiet m -> (forall a, keeps quiet (k a)) -> keeps quiet (bind m k).
Proof. apply keeps_bind, quiet_trans. Qed.

Lemma q_tick : keeps quiet tick.
Proof. intros w. split; reflexivity. Qed.

Lemma postsOf_cons rq rs : postsOf (rq :: rs) = postsOf rs ++ postOf rq.
Proof.
  unfold postsOf. simpl. rewrite flat_map_app. simpl. now rewrite app_nil_r.
Qed.

Lemma warningsOf_cons e c :
  warningsOf (e :: c) = warningsOf c ++ warningOf e.
Proof.
  unfold warningsOf. simpl. rewrite flat_map_app. simpl.
  now rewrite app_nil_r.
Qed.

Lemma q_console_log e : isSkip e = false -> keeps quiet (console_log e).
Proof.
  intros He w. split; [ reflexivity | ].
  unfold skipWarnings. simpl. rewrite warningsOf_cons.
  destruct e; try discriminate; apply app_nil_r.
Qed.

Lemma q_axios P rq : isLaunch rq = false -> keeps quiet (axios P rq).
Proof.
  intros Hrq w. unfold axios.
  assert (H : quiet w (mkWorld (rq :: requests w) (console w) (ticks w))).
  { split; [ | reflexivity ].
    unfold launchPosts. simpl. rewrite postsOf_cons.
    destruct rq; try discriminate; apply app_nil_r. }
  destruct (server P (requests w) rq); exact H.
Qed.

Lemma q_need obj keys : keeps quiet (need obj keys).
Proof.
  intros w. rewrite need_run. destruct (filter _ keys); apply quiet_refl.
Qed.

Ltac quiet_steps :=
  repeat (intros;
          match goal with
          | |- keeps quiet (bind _ _) => apply q_bind
          | |- keeps quiet (ret _) => apply q_ret
          | |- keeps quiet (throw _) => apply q_throw
          | |- keeps quiet out_of_fuel => apply q_out_of_fuel
          | |- keeps quiet tick => apply q_tick
          | |- keeps quiet (need _ _) => apply q_need
          | |- keeps quiet (console_log _) => apply q_console_log; reflexivity
          | |- keeps quiet (axios _ _) => apply q_axios; reflexivity
          | |- keeps quiet (if ?c then _ else _) => destruct c
          | |- keeps quiet (match ?x with _ => _ end) => destruct x
          end).

Lemma q_signClientAssertion P clientId audience keyId path :
  keeps quiet (signClientAssertion P clientId audience keyId path).
Proof. unfold signClientAssertion. quiet_steps. Qed.

Lemma q_getFhirToken P CFG : keeps quiet (getFhirToken P CFG).
Proof.
  unfold getFhirToken. cbv zeta.
  apply q_bind; [ apply q_need | intros _ ].
  apply q_bind.
  - destruct (String.eqb (AUTH_MODE CFG) "SOF_BACKEND"
              || String.eqb (AUTH_MODE CFG) "PRIVATE_KEY_JWT").
    + apply q_bind; [ apply q_need | intros _ ].
      apply q_bind; [ apply q_signClientAssertion | intros tok; apply q_ret ].
    + quiet_steps.
  - quiet_steps.
Qed.

Lemma q_getEcrToken P CFG : keeps quiet (getEcrToken P CFG).
Proof. unfold getEcrToken. cbv zeta. quiet_steps. Qed.

Lemma q_followPages P fuel headers :
  forall u m, keeps quiet (followPages P fuel headers u m).
Proof.
  induction fuel as [| fuel IH]; intros u m; destruct u; simpl.
  - apply q_out_of_fuel.
  - apply q_ret.
  - apply q_bind; [ apply q_axios; reflexivity | intros b; apply IH ].
  - apply q_ret.
Qed.

Lemma q_fetchEncountersByDateRange
    P fuel fhirBase token start end_ dateField patientId status count :
  keeps quiet (fetchEncountersByDateRange P fuel fhirBase token start end_
                 dateField patientId status count).
Proof.
  unfold fetchEncountersByDateRange. cbv zeta.
  apply q_bind; [ apply q_console_log; reflexivity | intros _ ].
  apply q_bind; [ apply q_followPages | intros m; apply q_ret ].
Qed.

Lemma keeps_run (R : World -> World -> Prop) {A} (m : M A) w r w' :
  keeps R m -> m w = (r, w') -> R w w'.
Proof. intros H Hrun. specialize (H w). now rewrite Hrun in H. Qed.

Lemma q_acquireAndResolve P fuel CFG :
  keeps quiet (acquireAndResolve P fuel CFG).
Proof.
  unfold acquireAndResolve.
  repeat first
    [ apply q_getFhirToken | apply q_getEcrToken
    | apply q_fetchEncountersByDateRange | apply q_need | apply q_ret
    | apply q_console_log; reflexivity
    | apply q_bind; [ | intros ? ] ].
Qed.

(** One turn of the loop: a POST when both ids are there, else a warning;
    the outcome of the POST does not matter. *)
Lemma launchEncounter_run P CFG bearer enc w gen :
  crypto_randomUUID P = Some gen ->
  exists w',
    launchEncounter P CFG bearer
      (ECRNOW_API_BASE CFG +++ "/api/launchPatient") enc w = (Ok tt, w')
    /\ launchPosts w'
       = launchPosts w ++ (if launchable enc then [launchOf CFG enc] else [])
    /\ skipWarnings w'
       = skipWarnings w ++ (if launchable enc then [] else [skipOf enc]).
Proof.
  intros Hgen. unfold launchEncounter, launchable, launchOf, skipOf.
  destruct (Js.truthy (res_id enc) && Js.truthy (getPatientIdFromEncounter enc))
    eqn:Hl.
  - apply andb_prop in Hl. destruct Hl as [-> ->]. cbn [negb orb].
    unfold bind at 1. rewrite console_log_run.
    unfold try_catch, randomUUID. rewrite Hgen.
    unfold bind, tick, axios, ret. cbv beta iota zeta.
    cbn [requests console ticks].
    match goal with
    | |- context [server P ?h ?rq] => destruct (server P h rq) as [d | st]
    end; cbn [console_log requests console ticks];
      eexists; (split; [ reflexivity | ]);
      unfold launchPosts, skipWarnings; cbn [requests console];
      rewrite postsOf_cons, !warningsOf_cons; cbn [postOf warningOf];
      rewrite !app_nil_r; split; reflexivity.
  - assert (Hc : negb (Js.truthy (res_id enc))
                 || negb (Js.truthy (getPatientIdFromEncounter enc)) = true).
    { destruct (Js.truthy (res_id enc)),
        (Js.truthy (getPatientIdFromEncounter enc)); simpl in *;
        congruence. }
    rewrite Hc. rewrite console_log_run.
    eexists. split; [ reflexivity | ].
    unfold launchPosts, skipWarnings. cbn [requests console].
    rewrite warningsOf_cons. cbn [warningOf]. now rewrite app_nil_r.
Qed.

Lemma launch_loop_run P CFG bearer gen encs :
  crypto_randomUUID P = Some gen ->
  forall w,
  exists w',
    for_of encs
      (fun enc _ =>
         launchEncounter P CFG bearer
           (ECRNOW_API_BASE CFG +++ "/api/launchPatient") enc) tt w
    = (Ok tt, w')
    /\ launchPosts w'
       = launchPosts w ++ map (launchOf CFG) (filter launchable encs)
    /\ skipWarnings w'
       = skipWarnings w
         ++ map skipOf (filter (fun e => negb (launchable e)) encs).
Proof.
  intros Hgen. induction encs as [| enc t IH]; intros w; simpl.
  - exists w. now rewrite !app_nil_r.
  - destruct (launchEncounter_run P CFG bearer enc w gen Hgen)
      as (w1 & Hrun & Hp & Hs).
    destruct (IH w1) as (w2 & Hrun2 & Hp2 & Hs2).
    exists w2. rewrite (bind_Ok _ _ _ _ _ Hrun).
    split; [ exact Hrun2 | ].
    rewrite Hp2, Hs2, Hp, Hs.
    destruct (launchable enc); simpl; rewrite <- !app_assoc; split;
      reflexivity.
Qed.

Lemma launch_of_both_ids CFG enc :
  (if launchable enc then [launchOf CFG enc] else []) = expectedLaunch CFG enc
  /\ (if launchable enc then [] else [skipOf enc]) = expectedWarning enc
  /\ launchable enc = resolvable enc.
Proof.
  unfold launchable, launchOf, skipOf, expectedLaunch, expectedWarning,
    resolvable, bothIds, presentId, Js.truthy.
  rewrite getPatientIdFromEncounter_segment.
  generalize (patientIdSegment enc) as pat. intros pat.
  destruct (res_id enc) as [i |]; destruct pat as [p |];
    repeat match goal with
           | |- context [String.eqb ?x ""] => destruct (String.eqb x "")
           end;
    cbn [negb andb]; repeat split; reflexivity.
Qed.

Lemma launches_of_both_ids CFG encs :
  map (launchOf CFG) (filter launchable encs)
  = flat_map (expectedLaunch CFG) encs
  /\ map skipOf (filter (fun e => negb (launchable e)) encs)
     = flat_map expectedWarning encs.
Proof.
  induction encs as [| enc t [IH1 IH2]]; [ split; reflexivity | ].
  destruct (launch_of_both_ids CFG enc) as (H1 & H2 & _).
  cbn [filter flat_map]. rewrite <- H1, <- H2, <- IH1, <- IH2.
  destruct (launchable enc); split; reflexivity.
Qed.

Lemma expected_counts CFG encs :
  length (flat_map (expectedLaunch CFG) encs)
  = length (filter resolvable encs)
  /\ length (flat_map expectedWarning encs)
     = length (filter (fun e => negb (resolvable e)) encs).
Proof.
  induction encs as [| enc t [IH1 IH2]]; [ split; reflexivity | ].
  cbn [filter flat_map]. rewrite !length_app, IH1, IH2.
  unfold expectedLaunch, expectedWarning, resolvable.
  destruct (bothIds enc) as [[e p] |]; split; reflexivity.
Qed.

(** The counterexample to C8 as stated: on a runtime without the global
    [crypto.randomUUID], which the request headers call, the encounter 1
    of the launch scenario has both ids and yet no launch POST is issued
    for it; the flow completes all the same. *)
Lemma both_ids_without_launch_post :
  let P := Cases.launchWithoutCrypto in
  let CFG := loadConfig Demo.launchEnv in
  let e1 := Demo.mkEncounter "1" (Some "Patient/56089") in
  let e2 := Demo.mkEncounter "2" None in
  let r := runLaunchFlow P 3 CFG world0 in
  crypto_randomUUID P = None
  /\ fst (acquireAndResolve P 3 CFG world0) = Ok (Some "ecr-token", [e1; e2])
  /\ bothIds e1 = Some ("1", "56089")
  /\ fst r = Ok tt
  /\ launchPosts (snd r) = []
  /\ launchPosts (snd r) <> flat_map (expectedLaunch CFG) [e1; e2].
Proof.
  cbv zeta. repeat match goal with |- _ /\ _ => split end;
    try (vm_compute; reflexivity).
  vm_compute. discriminate.
Qed.

(** C8, amended. In the launch flow, on a runtime that provides the global
    [crypto.randomUUID] which the request headers call, once the encounters
    are resolved the loop completes whatever the launch POSTs answer, and
    a launch POST is issued for an encounter if and only if both ids
    resolve: its non-empty [id], and the non-empty path segment that
    follows ['Patient/'] in its subject reference.  The POSTs are, in the
    order of the encounters, those of the encounters with both ids, each
    to [/api/launchPatient] with the two ids in its body; every other
    encounter gets one skip warning and nothing else.  So the numbers of
    POSTs and of warnings are the numbers of encounters with and without
    both ids. *)
Theorem runLaunchFlow_posts_iff_both_ids
    P fuel CFG w gen ecrBearer encounters w1 :
  crypto_randomUUID P = Some gen ->
  acquireAndResolve P fuel CFG w = (Ok (ecrBearer, encounters), w1) ->
  exists w',
    runLaunchFlow P fuel CFG w = (Ok tt, w')
    /\ launchPosts w'
       = launchPosts w ++ flat_map (expectedLaunch CFG) encounters
    /\ skipWarnings w'
       = skipWarnings w ++ flat_map expectedWarning encounters
    /\ length (launchPosts w')
       = length (launchPosts w) + length (filter resolvable encounters)
    /\ length (skipWarnings w')
       = length (skipWarnings w)
         + length (filter (fun e => negb (resolvable e)) encounters).
Proof.
  intros Hgen Hres.
  destruct (keeps_run quiet _ _ _ _ (q_acquireAndResolve P fuel CFG) Hres)
    as [Hq1 Hq2].
  unfold runLaunchFlow. rewrite (bind_Ok _ _ _ _ _ Hres). cbn [fst snd].
  unfold bind at 1. rewrite console_log_run.
  set (w2 := mkWorld _ _ _).
  destruct (launch_loop_run P CFG (Js.str ecrBearer) gen encounters Hgen w2)
    as (w' & Hrun & Hp & Hs).
  destruct (launches_of_both_ids CFG encounters) as [Hl Hk].
  destruct (expected_counts CFG encounters) as [Hc1 Hc2].
  assert (Hposts : launchPosts w'
                   = launchPosts w ++ flat_map (expectedLaunch CFG) encounters).
  { rewrite Hp, Hl. unfold w2, launchPosts. cbn [requests].
    fold (launchPosts w1) (launchPosts w). now rewrite Hq1. }
  assert (Hwarn : skipWarnings w'
                  = skipWarnings w ++ flat_map expectedWarning encounters).
  { rewrite Hs, Hk. unfold w2, skipWarnings. cbn [console].
    rewrite warningsOf_cons. cbn [warningOf].
    fold (skipWarnings w1) (skipWarnings w). now rewrite Hq2, app_nil_r. }
  exists w'. split; [ exact Hrun | ].
  split; [ exact Hposts | ]. split; [ exact Hwarn | ].
  rewrite Hposts, Hwarn, !length_app, Hc1, Hc2. split; reflexivity.
Qed.

Lemma runLaunchFlow_posts_iff_both_ids_witness :
  let P := Demo.launchScenario in
  let CFG := loadConfig Demo.launchEnv in
  exists w',
    runLaunchFlow P 3 CFG world0 = (Ok tt, w')
    /\ launchPosts w'
       = [("http://localhost:8081/api/launchPatient",
           {| fhirServerURL := Some "http://fhir";
              patientId := "56089";
              encounterId := "1";
              validationMode := "false";
              throttleContext := "1" |})]
    /\ skipWarnings w' = [(Some "2", None)]
    /\ length (launchPosts w') = 1
    /\ length (skipWarnings w') = 1.
Proof.
  destruct (runLaunchFlow_posts_iff_both_ids Demo.launchScenario 3
              (loadConfig Demo.launchEnv) world0 Demo.unary (Some "ecr-token")
              [Demo.mkEncounter "1" (Some "Patient/56089");
               Demo.mkEncounter "2" None]
              (snd (acquireAndResolve Demo.launchScenario 3
                      (loadConfig Demo.launchEnv) world0)))
    as (w' & Hrun & Hp & Hs & Hn1 & Hn2).
  - reflexivity.
  - vm_compute. reflexivity.
  - exists w'. split; [ exact Hrun | ].
    split; [ rewrite Hp; vm_compute; reflexivity | ].
    split; [ rewrite Hs; vm_compute; reflexivity | ].
    split; [ rewrite Hn1; vm_compute; reflexivity
           | rewrite Hn2; vm_compute; reflexivity ].
Defined.

(** The end-to-end scenario: FLOW_MODE=launch, CLIENT_SECRET_POST and a
    date range, against a server with the Encounters 1 (with a patient
    reference) and 2 (without).  The process ends with exit code 0 after
    one launch POST, for Encounter 1, and one skip warning, for
    Encounter 2. *)
Example launch_scenario :
  let r := main Demo.launchScenario 3 (loadConfig Demo.launchEnv) world0 in
  fst r = Ok 0%Z
  /\ map (fun p => encounterId (snd p)) (launchPosts (snd r)) = ["1"]
  /\ skipWarnings (snd r) = [(Some "2", None)].
Proof. vm_compute. repeat split. Qed.

(* ===================================================================== *)
(** * getPatientIdFromEncounter *)
(* ===================================================================== *)

(** The counterexample to C10 as stated: for a versioned reference the
    result is the id segment, not the substring after ['Patient/']. *)
Lemma versioned_reference_not_substring :
  let ref := "Patient/56089/_history/1" in
  subject Demo.versionedReference = Some (mkReference (Some ref))
  /\ Js.startsWith "Patient/" ref = true
  /\ dropChars 8 ref = "56089/_history/1"
  /\ getPatientIdFromEncounter Demo.versionedReference = Some "56089"
  /\ getPatientIdFromEncounter Demo.versionedReference
     <> Some (dropChars 8 ref).
Proof.
  cbv zeta. repeat match goal with |- _ /\ _ => split end;
    try reflexivity.
  intros H. vm_compute in H. discriminate H.
Qed.

(** C10, amended. [getPatientIdFromEncounter] returns the path segment
    that follows ['Patient/'] (the reference after ['Patient/'], up to the
    next slash) exactly when the subject reference starts with
    ['Patient/'], and null for every other input; consequently the launch
    loop issues no request at all, only the skip warning, for an encounter
    whose reference does not start with ['Patient/']. *)
Theorem getPatientIdFromEncounter_is_segment P CFG bearer target enc w :
  getPatientIdFromEncounter enc = patientIdSegment enc
  /\ (patientIdSegment enc = None ->
      launchEncounter P CFG bearer target enc w
      = (Ok tt,
         mkWorld (requests w)
           (WarnSkipping (res_id enc) None :: console w) (ticks w))).
Proof.
  split; [ apply getPatientIdFromEncounter_segment | ].
  intros Hnone. unfold launchEncounter.
  rewrite getPatientIdFromEncounter_segment, Hnone.
  cbn [Js.truthy negb]. rewrite orb_true_r. reflexivity.
Qed.

Lemma getPatientIdFromEncounter_is_segment_witness :
  let P := Demo.launchScenario in
  let CFG := loadConfig Demo.launchEnv in
  getPatientIdFromEncounter Demo.absoluteReference
  = patientIdSegment Demo.absoluteReference
  /\ launchEncounter P CFG "ecr-token" "http://ecr/api/launchPatient"
       Demo.absoluteReference world0
     = (Ok tt, mkWorld [] [WarnSkipping (Some "1") None] 0).
Proof.
  destruct (getPatientIdFromEncounter_is_segment Demo.launchScenario
              (loadConfig Demo.launchEnv) "ecr-token"
              "http://ecr/api/launchPatient" Demo.absoluteReference world0)
    as [H1 H2].
  split; [ exact H1 | apply H2; reflexivity ].
Defined.

(* ===================================================================== *)
(** * need and buildCodeParam *)
(* ===================================================================== *)

Lemma is_ws_blank c : Js.is_ws c = blank c.
Proof. destruct c as [[] [] [] [] [] [] [] []]; vm_compute; reflexivity. Qed.

Lemma trimStart_empty_iff s :
  Js.trimStart s = "" <-> allWhitespace s = true.
Proof.
  induction s as [| c r IH]; [ split; reflexivity | ].
  cbn [Js.trimStart allWhitespace]. rewrite <- is_ws_blank.
  destruct (Js.is_ws c); cbn [andb]; [ exact IH | ].
  split; discriminate.
Qed.

Lemma trimStart_head s c r :
  Js.trimStart s = String c r -> Js.is_ws c = false.
Proof.
  induction s as [| d t IH]; simpl; [ discriminate | ].
  destruct (Js.is_ws d) eqn:Hd; [ exact IH | ].
  intros H. inversion H; subst. exact Hd.
Qed.

Lemma trimEnd_cons c r :
  Js.trimEnd (String c r)
  = if String.eqb (Js.trimEnd r) "" && Js.is_ws c then ""
    else String c (Js.trimEnd r).
Proof.
  simpl. destruct (Js.trimEnd r); simpl; [ | reflexivity ].
  destruct (Js.is_ws c); reflexivity.
Qed.

Lemma trim_empty_iff s : Js.trim s = "" <-> allWhitespace s = true.
Proof.
  rewrite <- trimStart_empty_iff. unfold Js.trim.
  destruct (Js.trimStart s) as [| c r] eqn:Hs; [ simpl; tauto | ].
  rewrite trimEnd_cons, (trimStart_head _ _ _ Hs), andb_false_r.
  split; discriminate.
Qed.

Lemma missing_iff v :
  missing v = false <-> exists s, v = Some s /\ allWhitespace s = false.
Proof.
  unfold missing, Js.truthy. destruct v as [s |]; simpl.
  - destruct (String.eqb_spec (Js.trim s) "") as [He | Hne].
    + rewrite orb_true_r. apply trim_empty_iff in He.
      split; [ discriminate | ]. intros (s' & Hs & Hw).
      inversion Hs; subst. congruence.
    + rewrite orb_false_r.
      assert (Hw : allWhitespace s = false).
      { destruct (allWhitespace s) eqn:Hw; [ | reflexivity ].
        apply trim_empty_iff in Hw. contradiction. }
      destruct (String.eqb_spec s "") as [-> | Hs]; [ discriminate | ].
      simpl. split; [ intros _; now exists s | reflexivity ].
  - split; [ discriminate | ]. intros (s & Hs & _). discriminate.
Qed.

(** X1. For values of characters below U+0100, [need] passes exactly when
    every listed key has a value with at least one character that is not
    blank, that is, none of TAB, LF, VT, FF, CR, SPACE and NO-BREAK SPACE;
    otherwise it throws an [Error]; in both cases the world is left as it
    was. *)
Theorem need_passes_iff obj keys w :
  snd (need obj keys w) = w
  /\ (fst (need obj keys w) = Ok tt
      <-> forall k, In k keys ->
                    exists s, obj k = Some s /\ allWhitespace s = false)
  /\ (fst (need obj keys w) = Ok tt
      \/ exists message, fst (need obj keys w) = Throw (Error message)).
Proof.
  rewrite need_run.
  destruct (filter (fun k => missing (obj k)) keys) as [| k0 ks] eqn:Hf;
    simpl.
  - split; [ reflexivity | ]. split; [ | now left ].
    split; [ intros _ k Hk | reflexivity ].
    apply missing_iff.
    destruct (missing (obj k)) eqn:Hm; [ | reflexivity ].
    assert (Hin : In k (filter (fun k => missing (obj k)) keys))
      by (apply filter_In; now split).
    rewrite Hf in Hin. destruct Hin.
  - split; [ reflexivity | ]. split; [ | right; eexists; reflexivity ].
    split; [ discriminate | intros Hall ].
    assert (Hin : In k0 (filter (fun k => missing (obj k)) keys))
      by (rewrite Hf; now left).
    apply filter_In in Hin. destruct Hin as [Hk Hm].
    apply Hall, missing_iff in Hk. congruence.
Qed.

Lemma trimEnd_idem s : Js.trimEnd (Js.trimEnd s) = Js.trimEnd s.
Proof.
  induction s as [| c r IH]; [ reflexivity | ].
  rewrite trimEnd_cons.
  destruct (String.eqb (Js.trimEnd r) "" && Js.is_ws c) eqn:Hc;
    [ reflexivity | ].
  rewrite trimEnd_cons, IH, Hc. reflexivity.
Qed.

Lemma trim_idem s : Js.trim (Js.trim s) = Js.trim s.
Proof.
  unfold Js.trim.
  destruct (Js.trimStart s) as [| c r] eqn:Hs; [ reflexivity | ].
  pose proof (trimStart_head _ _ _ Hs) as Hc.
  rewrite trimEnd_cons, Hc, andb_false_r.
  simpl Js.trimStart. rewrite Hc.
  rewrite trimEnd_cons, Hc, andb_false_r, trimEnd_idem. reflexivity.
Qed.

Lemma occursIn_trimStart c s :
  occursIn c s = false -> occursIn c (Js.trimStart s) = false.
Proof.
  induction s as [| d r IH]; simpl; [ reflexivity | ].
  intros H. apply orb_false_elim in H. destruct H as [Hd Hr].
  destruct (Js.is_ws d); [ now apply IH | ].
  simpl. now rewrite Hd, Hr.
Qed.

Lemma occursIn_trimEnd c s :
  occursIn c s = false -> occursIn c (Js.trimEnd s) = false.
Proof.
  induction s as [| d r IH]; [ reflexivity | ].
  intros H. simpl in H. apply orb_false_elim in H. destruct H as [Hd Hr].
  rewrite trimEnd_cons.
  destruct (String.eqb (Js.trimEnd r) "" && Js.is_ws d); [ reflexivity | ].
  simpl. now rewrite Hd, IH.
Qed.

Lemma occursIn_trim c s :
  occursIn c s = false -> occursIn c (Js.trim s) = false.
Proof.
  intros H. unfold Js.trim. now apply occursIn_trimEnd, occursIn_trimStart.
Qed.

Lemma split_segments_free sep s :
  Forall (fun seg => occursIn sep seg = false) (Js.split sep s).
Proof.
  induction s as [| c r IH]; simpl.
  - repeat constructor.
  - destruct (Ascii.eqb c sep) eqn:Hc.
    + constructor; [ reflexivity | exact IH ].
    + destruct (Js.split sep r) as [| h t].
      * constructor; [ simpl; now rewrite Hc | constructor ].
      * inversion IH; subst. constructor; [ simpl; now rewrite Hc | assumption ].
Qed.

Lemma split_free sep s : occursIn sep s = false -> Js.split sep s = [s].
Proof.
  induction s as [| c r IH]; simpl; [ reflexivity | ].
  intros H. apply orb_false_elim in H. destruct H as [Hc Hr].
  rewrite Hc, (IH Hr). reflexivity.
Qed.

Lemma split_app_sep sep a b :
  occursIn sep a = false ->
  Js.split sep (a +++ String sep b) = a :: Js.split sep b.
Proof.
  induction a as [| c r IH]; simpl.
  - intros _. now rewrite Ascii.eqb_refl.
  - intros H. apply orb_false_elim in H. destruct H as [Hc Hr].
    rewrite Hc, (IH Hr). reflexivity.
Qed.

Lemma split_join sep l :
  l <> [] ->
  Forall (fun seg => occursIn sep seg = false) l ->
  Js.split sep (Js.join (String sep "") l) = l.
Proof.
  unfold Js.join. induction l as [| x t IH]; [ congruence | ].
  intros _ Hall. inversion Hall as [| ? ? Hx Ht]; subst.
  destruct t as [| y t'].
  - simpl. now apply split_free.
  - change (String.concat (String sep "") (x :: y :: t'))
      with (x +++ String sep (String.concat (String sep "") (y :: t'))).
    rewrite (split_app_sep _ _ _ Hx), IH; [ reflexivity | discriminate | exact Ht ].
Qed.

Lemma join_empty_iff sep l :
  Forall (fun x => x <> "") l -> (Js.join sep l = "" <-> l = []).
Proof.
  unfold Js.join. intros Hall. split; [ | now intros -> ].
  destruct l as [| x t]; [ reflexivity | ].
  inversion Hall as [| ? ? Hx _]; subst.
  destruct x as [| c r]; [ congruence | ].
  destruct t; simpl; discriminate.
Qed.

(** The segments [buildCodeParam] joins. *)
Lemma codeSegments_normal csv :
  Forall (fun x => x <> "" /\ Js.trim x = x /\ occursIn "," x = false)
    (filter (fun s => negb (String.eqb s ""))
       (map Js.trim (Js.split "," (Js.or_else csv "")))).
Proof.
  apply Forall_forall. intros x Hx. apply filter_In in Hx.
  destruct Hx as [Hin Hne]. apply in_map_iff in Hin.
  destruct Hin as (y & <- & Hy).
  split; [ | split ].
  - destruct (String.eqb_spec (Js.trim y) ""); [ discriminate | assumption ].
  - apply trim_idem.
  - apply occursIn_trim.
    pose proof (split_segments_free "," (Js.or_else csv "")) as Hf.
    rewrite Forall_forall in Hf. now apply Hf.
Qed.

(** X2. For code lists of characters below U+0100, the code filter is
    omitted exactly when every comma-separated segment of the list is
    empty or made of blank characters only (TAB, LF, VT, FF, CR, SPACE,
    NO-BREAK SPACE), in particular for an absent or empty list. *)
Theorem buildCodeParam_empty_iff csv :
  (buildCodeParam csv = ""
   <-> Forall (fun seg => allWhitespace seg = true)
         (Js.split "," (Js.or_else csv "")))
  /\ (codeParams (buildCodeParam csv) = [] <-> buildCodeParam csv = "")
  /\ buildCodeParam None = "" /\ buildCodeParam (Some "") = "".
Proof.
  split; [ | split; [ | split; reflexivity ] ].
  - unfold buildCodeParam.
    rewrite join_empty_iff
      by (eapply Forall_impl; [ | apply codeSegments_normal ];
          now intros x [H _]).
    generalize (Js.split "," (Js.or_else csv "")) as l.
    induction l as [| y t IH]; simpl.
    + split; [ constructor | reflexivity ].
    + destruct (String.eqb_spec (Js.trim y) "") as [He | Hne]; simpl.
      * rewrite IH. apply trim_empty_iff in He.
        split; [ now constructor | now inversion 1 ].
      * split; [ discriminate | ]. inversion 1; subst.
        exfalso. apply Hne. now apply trim_empty_iff.
  - unfold codeParams, Js.truthy.
    destruct (String.eqb_spec (buildCodeParam csv) ""); simpl;
      split; congruence.
Qed.

Lemma or_else_Some_empty s : Js.or_else (Some s) "" = s.
Proof.
  unfold Js.or_else, Js.truthy.
  destruct (String.eqb_spec s "") as [-> | _]; reflexivity.
Qed.

(** X3. [buildCodeParam] normalises: applied to its own result it changes
    nothing. *)
Theorem buildCodeParam_idempotent csv :
  buildCodeParam (Some (buildCodeParam csv)) = buildCodeParam csv.
Proof.
  unfold buildCodeParam at 1 3. rewrite or_else_Some_empty.
  pose proof (codeSegments_normal csv) as Hn.
  set (segs := filter _ (map Js.trim (Js.split "," (Js.or_else csv "")))) in *.
  unfold buildCodeParam. fold segs.
  destruct segs as [| x t] eqn:Hs; [ reflexivity | ].
  change "," with (String "," "") at 2.
  rewrite split_join;
    [ | discriminate
      | eapply Forall_impl; [ | exact Hn ]; now intros y (_ & _ & H) ].
  assert (Hmap : map Js.trim (x :: t) = x :: t).
  { rewrite <- (map_id (x :: t)) at 2. apply map_ext_Forall.
    eapply Forall_impl; [ | exact Hn ]. now intros y (_ & H & _). }
  rewrite Hmap.
  assert (Hfil : filter (fun s => negb (String.eqb s "")) (x :: t) = x :: t).
  { apply forallb_filter_id. apply forallb_forall. intros y Hy.
    rewrite Forall_forall in Hn. destruct (Hn y Hy) as (Hne & _).
    destruct (String.eqb_spec y ""); [ contradiction | reflexivity ]. }
  rewrite Hfil. reflexivity.
Qed.

(* ===================================================================== *)
(** * Token acquisition: outcomes *)
(* ===================================================================== *)



(** X5. With the common fields present, an AUTH_MODE that is none of the
    four supported values makes [getFhirToken] throw
    [Unsupported AUTH_MODE: <mode>] before anything is sent. *)
Theorem getFhirToken_unsupported_mode P CFG w :
  missingAmong CFG commonKeys = [] ->
  ~ In (AUTH_MODE CFG) fourModes ->
  getFhirToken P CFG w
  = (Throw (Error ("Unsupported AUTH_MODE: " +++ AUTH_MODE CFG)), w).
Proof.
  intros Hc Hmode. unfold getFhirToken. unfold bind at 1. rewrite need_run.
  change (filter (fun k => missing (CFG_prop CFG k))
            ["TOKEN_URL"; "CLIENT_ID"; "FHIR_BASE"])
    with (missingAmong CFG commonKeys).
  rewrite Hc. cbv zeta.
  assert (H1 : String.eqb (AUTH_MODE CFG) "SOF_BACKEND" = false)
    by (apply String.eqb_neq; intros H; apply Hmode; rewrite H; simpl; auto).
  assert (H2 : String.eqb (AUTH_MODE CFG) "PRIVATE_KEY_JWT" = false)
    by (apply String.eqb_neq; intros H; apply Hmode; rewrite H; simpl; auto).
  assert (H3 : String.eqb (AUTH_MODE CFG) "CLIENT_SECRET_BASIC" = false)
    by (apply String.eqb_neq; intros H; apply Hmode; rewrite H; simpl; auto).
  assert (H4 : String.eqb (AUTH_MODE CFG) "CLIENT_SECRET_POST" = false)
    by (apply String.eqb_neq; intros H; apply Hmode; rewrite H; simpl; auto).
  rewrite H1, H2, H3, H4. reflexivity.
Qed.

Lemma getFhirToken_unsupported_mode_witness :
  getFhirToken (Demo.platform (Demo.serve [])) Cases.passwordMode world0
  = (Throw (Error ("Unsupported AUTH_MODE: " +++ "PASSWORD")), world0).
Proof.
  apply (getFhirToken_unsupported_mode (Demo.platform (Demo.serve []))
           Cases.passwordMode world0).
  - vm_compute. reflexivity.
  - vm_compute. intros H. repeat destruct H as [H | H]; try discriminate H.
    exact H.
Defined.

Lemma sameLog_refl w : sameLog w w.
Proof. split; reflexivity. Qed.

Lemma sameLog_trans a b c : sameLog a b -> sameLog b c -> sameLog a c.
Proof. intros [H1 H2] [H3 H4]. split; congruence. Qed.

Lemma s_need obj keys : keeps sameLog (need obj keys).
Proof.
  intros w. rewrite need_run. destruct (filter _ keys); apply sameLog_refl.
Qed.

Lemma s_signClientAssertion P clientId audience keyId path :
  keeps sameLog (signClientAssertion P clientId audience keyId path).
Proof.
  intros w.
  destruct (signClientAssertion P clientId audience keyId path w)
    as [r w1] eqn:Hs.
  exact (signClientAssertion_requests _ _ _ _ _ _ _ _ Hs).
Qed.

Ltac sameLog_steps :=
  repeat (intros;
          match goal with
          | |- keeps sameLog (bind _ _) =>
              apply keeps_bind; [ exact sameLog_trans | | ]
          | |- keeps sameLog (ret _) => apply keeps_ret; exact sameLog_refl
          | |- keeps sameLog (throw _) => apply keeps_throw; exact sameLog_refl
          | |- keeps sameLog (need _ _) => apply s_need
          | |- keeps sameLog (signClientAssertion _ _ _ _ _) =>
              apply s_signClientAssertion
          | |- keeps sameLog (if ?c then _ else _) => destruct c
          end).

(** X6. When [getFhirToken] returns, it has sent exactly one request, the
    form POST to the token URL, that request was answered with an
    [access_token], and the token returned is that one: never empty. *)
Theorem getFhirToken_returns_the_token P CFG w tok w' :
  getFhirToken P CFG w = (Ok tok, w') ->
  tok <> ""
  /\ console w' = console w
  /\ exists body headers d,
       let rq := PostForm (Js.str (TOKEN_URL CFG)) body headers 25000 in
       requests w' = rq :: requests w
       /\ server P (requests w) rq = Resolved d
       /\ access_token d = Some tok.
Proof.
  unfold getFhirToken. cbv zeta. intros Hrun.
  apply bind_Ok_inv in Hrun. destruct Hrun as ([] & w1 & Hneed & Hrun).
  pose proof (keeps_run sameLog _ _ _ _ (s_need _ _) Hneed) as [Hr1 Hc1].
  apply bind_Ok_inv in Hrun. destruct Hrun as (hf & w2 & Hhf & Hrun).
  assert (Hs : sameLog w1 w2).
  { eapply keeps_run; [ | exact Hhf ]. sameLog_steps. }
  destruct Hs as [Hr2 Hc2].
  unfold bind, axios in Hrun. rewrite Hr2, Hr1 in Hrun.
  destruct (server P (requests w) _) as [d | st] eqn:Hsrv; [ | discriminate ].
  destruct (Js.truthy (access_token d)) eqn:Ht; simpl in Hrun;
    [ | discriminate ].
  inversion Hrun; subst; clear Hrun.
  destruct (access_token d) as [t |] eqn:Hat; [ | discriminate ].
  simpl. split; [ | split ].
  - intros ->. discriminate.
  - simpl. congruence.
  - eexists; eexists; exists d. cbv zeta.
    split; [ reflexivity | ]. split; [ exact Hsrv | exact Hat ].
Qed.

(** X7. In the key-based modes, a client assertion that cannot be made
    (key file unreadable, key not importable, signing refused) ends
    [getFhirToken] with that error before anything is sent. *)
Theorem getFhirToken_assertion_failure P CFG w e w1 :
  keyMode (AUTH_MODE CFG) = true ->
  allMissing CFG = [] ->
  signClientAssertion P (CLIENT_ID CFG)
    (Js.or_opt (AUD CFG) (TOKEN_URL CFG)) (KID CFG) (PRIVATE_KEY_PATH CFG) w
  = (Throw e, w1) ->
  getFhirToken P CFG w = (Throw e, w1)
  /\ requests w1 = requests w.
Proof.
  intros Hk Hall Hs.
  unfold allMissing in Hall. rewrite missingAmong_app in Hall.
  apply app_eq_nil in Hall. destruct Hall as [Hc Hm].
  unfold modeKeys in Hm. rewrite Hk in Hm.
  split; [ | exact (proj1 (signClientAssertion_requests _ _ _ _ _ _ _ _ Hs)) ].
  unfold getFhirToken. cbv zeta. unfold bind at 1. rewrite need_run.
  change (filter (fun k => missing (CFG_prop CFG k))
            ["TOKEN_URL"; "CLIENT_ID"; "FHIR_BASE"])
    with (missingAmong CFG commonKeys).
  rewrite Hc. unfold keyMode in Hk. rewrite Hk.
  unfold bind at 1. unfold bind at 1. unfold bind at 1. rewrite need_run.
  change (filter (fun k => missing (CFG_prop CFG k))
            ["KID"; "PRIVATE_KEY_PATH"])
    with (missingAmong CFG ["KID"; "PRIVATE_KEY_PATH"]).
  rewrite Hm, Hs. reflexivity.
Qed.

Lemma getFhirToken_assertion_failure_witness :
  getFhirToken Cases.noKeyFile (loadConfig Demo.backendEnv) world0
  = (Throw FsError, world0)
  /\ requests world0 = requests world0.
Proof.
  apply (getFhirToken_assertion_failure Cases.noKeyFile
           (loadConfig Demo.backendEnv) world0 FsError world0).
  - vm_compute. reflexivity.
  - vm_compute. reflexivity.
  - vm_compute. reflexivity.
Defined.

Lemma getFhirToken_returns_the_token_witness :
  let P := Demo.launchScenario in
  "fhir-token" <> ""
  /\ console (snd (getFhirToken P (loadConfig Demo.launchEnv) world0))
     = console world0
  /\ exists body headers d,
       let rq := PostForm (Js.str (TOKEN_URL (loadConfig Demo.launchEnv)))
                   body headers 25000 in
       requests (snd (getFhirToken P (loadConfig Demo.launchEnv) world0))
       = rq :: requests world0
       /\ server P (requests world0) rq = Resolved d
       /\ access_token d = Some "fhir-token".
Proof.
  apply (getFhirToken_returns_the_token Demo.launchScenario
           (loadConfig Demo.launchEnv) world0 "fhir-token").
  vm_compute. reflexivity.
Defined.

(* ===================================================================== *)
(** * The flows: failing fast, the runtime, the exit code *)
(* ===================================================================== *)

(** X8. If the case-reporting token endpoint answers without a usable
    [access_token] (none, empty or blank), [runLaunchFlow] throws
    [Missing env: ecrBearer] right after that answer: no FHIR search and
    no launch POST is sent. *)
Theorem runLaunchFlow_empty_reporting_token P fuel CFG w tok w1 b w2 :
  getFhirToken P CFG
    (mkWorld (requests w)
       (LogGettingFhirToken (AUTH_MODE CFG) :: console w) (ticks w))
  = (Ok tok, w1) ->
  getEcrToken P CFG
    (mkWorld (requests w1)
       (LogGettingEcrToken :: LogFhirTokenOk :: console w1) (ticks w1))
  = (Ok b, w2) ->
  missing b = true ->
  runLaunchFlow P fuel CFG w = (Throw (Error "Missing env: ecrBearer"), w2).
Proof.
  intros Hf He Hb. unfold runLaunchFlow, acquireAndResolve.
  unfold bind at 1. unfold bind at 1. rewrite console_log_run.
  unfold bind at 1. rewrite Hf.
  unfold bind at 1. rewrite console_log_run. cbn [requests console ticks].
  unfold bind at 1. rewrite console_log_run. cbn [requests console ticks].
  unfold bind at 1. rewrite He.
  unfold bind at 1. rewrite need_run. simpl filter. rewrite Hb. reflexivity.
Qed.

Lemma runLaunchFlow_empty_reporting_token_witness :
  exists w2,
    runLaunchFlow Cases.noReportingToken 3 (loadConfig Demo.launchEnv) world0
    = (Throw (Error "Missing env: ecrBearer"), w2)
    /\ length (requests w2) = 2.
Proof.
  eexists. split.
  - eapply (runLaunchFlow_empty_reporting_token Cases.noReportingToken 3
              (loadConfig Demo.launchEnv) world0 "fhir-token" _ None).
    + vm_compute. reflexivity.
    + vm_compute. reflexivity.
    + reflexivity.
  - reflexivity.
Defined.

(** One turn of the launch loop on a runtime without [crypto.randomUUID]:
    the ReferenceError is caught like a failed POST. *)
Lemma launchEncounter_without_crypto P CFG bearer target enc w :
  crypto_randomUUID P = None ->
  exists w',
    launchEncounter P CFG bearer target enc w = (Ok tt, w')
    /\ requests w' = requests w /\ ticks w' = ticks w.
Proof.
  intros Hc. unfold launchEncounter.
  destruct (negb (Js.truthy (res_id enc))
            || negb (Js.truthy (getPatientIdFromEncounter enc))).
  - eexists. split; [ reflexivity | split; reflexivity ].
  - unfold bind at 1. rewrite console_log_run.
    unfold try_catch, randomUUID. rewrite Hc.
    eexists. split; [ reflexivity | split; reflexivity ].
Qed.

(** X9. On a runtime without the global [crypto.randomUUID], the launch
    flow still completes once the encounters are resolved, but it sends no
    launch POST at all: building the request headers fails inside the
    [try], for every encounter. *)
Theorem runLaunchFlow_without_crypto P fuel CFG w ecrBearer encounters w1 :
  crypto_randomUUID P = None ->
  acquireAndResolve P fuel CFG w = (Ok (ecrBearer, encounters), w1) ->
  exists w',
    runLaunchFlow P fuel CFG w = (Ok tt, w')
    /\ requests w' = requests w1
    /\ launchPosts w' = launchPosts w.
Proof.
  intros Hc Hres.
  destruct (keeps_run quiet _ _ _ _ (q_acquireAndResolve P fuel CFG) Hres)
    as [Hq _].
  unfold runLaunchFlow. rewrite (bind_Ok _ _ _ _ _ Hres). cbn [fst snd].
  unfold bind at 1. rewrite console_log_run.
  set (w2 := mkWorld _ _ _).
  assert (Hloop : forall encs v,
             exists v',
               for_of encs
                 (fun enc _ =>
                    launchEncounter P CFG (Js.str ecrBearer)
                      (ECRNOW_API_BASE CFG +++ "/api/launchPatient") enc)
                 tt v = (Ok tt, v')
               /\ requests v' = requests v).
  { induction encs as [| enc t IH]; intros v; simpl.
    - exists v. split; reflexivity.
    - destruct (launchEncounter_without_crypto P CFG (Js.str ecrBearer)
                  (ECRNOW_API_BASE CFG +++ "/api/launchPatient") enc v Hc)
        as (v1 & Hrun & Hr & _).
      destruct (IH v1) as (v2 & Hrun2 & Hr2).
      exists v2. rewrite (bind_Ok _ _ _ _ _ Hrun).
      split; [ exact Hrun2 | congruence ]. }
  destruct (Hloop encounters w2) as (w' & Hrun & Hr).
  exists w'. split; [ exact Hrun | ].
  split; [ exact Hr | ].
  unfold launchPosts. rewrite Hr. exact Hq.
Qed.

Lemma runLaunchFlow_without_crypto_witness :
  exists w',
    runLaunchFlow Cases.launchWithoutCrypto 3 (loadConfig Demo.launchEnv)
      world0 = (Ok tt, w')
    /\ length (requests w') = 3
    /\ launchPosts w' = launchPosts world0.
Proof.
  destruct (runLaunchFlow_without_crypto Cases.launchWithoutCrypto 3
              (loadConfig Demo.launchEnv) world0 (Some "ecr-token")
              [Demo.mkEncounter "1" (Some "Patient/56089");
               Demo.mkEncounter "2" None]
              (snd (acquireAndResolve Cases.launchWithoutCrypto 3
                      (loadConfig Demo.launchEnv) world0)))
    as (w' & Hrun & Hr & Hp).
  - reflexivity.
  - vm_compute. reflexivity.
  - exists w'. split; [ exact Hrun | ]. split; [ | exact Hp ].
    rewrite Hr. vm_compute. reflexivity.
Defined.





Lemma main_launch_run P fuel CFG w :
  FLOW_MODE CFG = "launch" ->
  main P fuel CFG w
  = match runLaunchFlow P fuel CFG w with
    | (Ok _, w1) =>
        (Ok 0%Z, mkWorld (requests w1) (LogDone :: console w1) (ticks w1))
    | (Throw e, w1) =>
        (Ok 1%Z,
         mkWorld (requests w1) (ErrorFatal e :: console w1) (ticks w1))
    | (OutOfFuel, w1) => (OutOfFuel, w1)
    end.
Proof.
  intros Hl. unfold main, try_catch. rewrite Hl. simpl String.eqb.
  unfold bind at 1.
  destruct (runLaunchFlow P fuel CFG w) as [[u | e |] w1]; reflexivity.
Qed.

(** X11. [main] never rejects.  With FLOW_MODE other than ['launch'] it
    runs the placeholder flow: nothing is sent and the exit code is 0.
    With FLOW_MODE ['launch'] the exit code is 0 exactly when
    [runLaunchFlow] returns and 1 exactly when it throws, and [main] sends
    nothing of its own. *)
Theorem main_exit_code P fuel CFG w :
  (forall e, fst (main P fuel CFG w) <> Throw e)
  /\ (FLOW_MODE CFG <> "launch" ->
      main P fuel CFG w
      = (Ok 0%Z,
         mkWorld (requests w) (LogDone :: LogNotifyFlow :: console w)
           (ticks w)))
  /\ (FLOW_MODE CFG = "launch" ->
      (fst (main P fuel CFG w) = Ok 0%Z
       <-> fst (runLaunchFlow P fuel CFG w) = Ok tt)
      /\ (fst (main P fuel CFG w) = Ok 1%Z
          <-> exists e, fst (runLaunchFlow P fuel CFG w) = Throw e)
      /\ requests (snd (main P fuel CFG w))
         = requests (snd (runLaunchFlow P fuel CFG w))).
Proof.
  destruct (String.eqb_spec (FLOW_MODE CFG) "launch") as [Hl | Hn].
  - rewrite (main_launch_run P fuel CFG w Hl).
    destruct (runLaunchFlow P fuel CFG w) as [[u | e |] w1];
      [ destruct u | | ]; simpl;
      (split; [ discriminate | ]); (split; [ contradiction | intros _ ]);
      repeat split; intros; try discriminate; try reflexivity;
      try match goal with
          | H : exists _, _ |- _ => destruct H; discriminate
          end.
    eexists; reflexivity.
  - assert (Hrun : main P fuel CFG w
                   = (Ok 0%Z,
                      mkWorld (requests w)
                        (LogDone :: LogNotifyFlow :: console w) (ticks w))).
    { unfold main, try_catch, runNotifyFlow.
      destruct (String.eqb_spec (FLOW_MODE CFG) "launch");
        [ contradiction | reflexivity ]. }
    rewrite Hrun. simpl.
    split; [ discriminate | ]. split; [ reflexivity | ].
    intros H. contradiction.
Qed.

Lemma main_exit_code_witness :
  main (Demo.platform (Demo.serve [])) 3 (loadConfig Demo.backendEnv) world0
  = (Ok 0%Z, mkWorld [] [LogDone; LogNotifyFlow] 0)
  /\ (fst (main Demo.launchScenario 3 (loadConfig Demo.launchEnv) world0)
      = Ok 0%Z
      <-> fst (runLaunchFlow Demo.launchScenario 3
                 (loadConfig Demo.launchEnv) world0) = Ok tt).
Proof.
  split.
  - apply (main_exit_code (Demo.platform (Demo.serve [])) 3
             (loadConfig Demo.backendEnv) world0).
    vm_compute. discriminate.
  - apply (main_exit_code Demo.launchScenario 3 (loadConfig Demo.launchEnv)
             world0).
    vm_compute. reflexivity.
Defined.

(* ===================================================================== *)
(** * Pagination: failures and endless links *)
(* ===================================================================== *)

Lemma followPages_broken P headers h rq n st :
  brokenChain P headers h rq n st ->
  forall u fuel m w,
    rq = Get u headers 30000 ->
    h = requests w ->
    n < fuel ->
    exists w',
      followPages P fuel headers (Some u) m w = (Throw (AxiosError st), w')
      /\ length (requests w') = S n + length (requests w)
      /\ console w' = console w.
Proof.
  induction 1 as [h rq st Hsrv | h rq b u' n st Hsrv Hnext _ IH];
    intros u fuel m w -> -> Hfuel;
    (destruct fuel as [| fuel]; [ lia | ]); simpl.
  - unfold bind, axios. rewrite Hsrv. eexists.
    split; [ reflexivity | split; reflexivity ].
  - unfold bind at 1. unfold axios at 1. rewrite Hsrv.
    rewrite (nextUrl_nextLinkTo _ _ Hnext).
    set (w1 := mkWorld _ _ _).
    destruct (IH u' fuel (harvestEncounters b m) w1 eq_refl eq_refl)
      as (w' & Hrun & Hlen & Hcon); [ lia | ].
    exists w'. split; [ exact Hrun | ].
    split; [ rewrite Hlen; simpl; lia | exact Hcon ].
Qed.

(** X12. [fetchEncountersByDateRange] keeps no partial result: when the
    request for a page is rejected after [n] pages were received, the
    function rejects with that HTTP error, after [n + 1] requests, and the
    Encounters of the pages received are lost.  The only line it has
    written to the console is the search URL, logged before the first
    request. *)
Theorem fetchEncountersByDateRange_no_partial_result
    P fuel fhirBase token start end_ dateField patientId status count
    w n st :
  brokenChain P (fhirHeaders token) (requests w)
    (Get (dateRangeUrl P fhirBase start end_ dateField patientId status count)
       (fhirHeaders token) 30000) n st ->
  n < fuel ->
  exists w',
    fetchEncountersByDateRange P fuel fhirBase token start end_ dateField
      patientId status count w = (Throw (AxiosError st), w')
    /\ length (requests w') = S n + length (requests w)
    /\ console w'
       = LogUrl (dateRangeUrl P fhirBase start end_ dateField patientId
                   status count) :: console w.
Proof.
  intros Hchain Hfuel. unfold fetchEncountersByDateRange.
  unfold bind at 1. rewrite console_log_run.
  set (w1 := mkWorld _ _ _).
  assert (Hne : Js.nonEmpty
                  (dateRangeUrl P fhirBase start end_ dateField patientId
                     status count)
                = Some (dateRangeUrl P fhirBase start end_ dateField
                          patientId status count)).
  { unfold dateRangeUrl. cbv zeta. apply append_nonEmpty. }
  rewrite Hne.
  destruct (followPages_broken P _ _ _ _ _ Hchain _ fuel JsMap.empty w1
              eq_refl eq_refl Hfuel) as (w' & Hrun & Hlen & Hcon).
  exists w'. rewrite (bind_Throw _ _ _ _ _ Hrun).
  split; [ reflexivity | ]. split; [ exact Hlen | exact Hcon ].
Qed.

Lemma fetchEncountersByDateRange_no_partial_result_witness :
  exists w',
    fetchEncountersByDateRange Cases.secondPageFails 5 "http://fhir" "tok"
      None None None None None None world0
    = (Throw (AxiosError (Some 404%Z)), w')
    /\ length (requests w') = 2 + length (requests world0)
    /\ console w'
       = LogUrl (dateRangeUrl Cases.secondPageFails "http://fhir"
                   None None None None None None) :: console world0.
Proof.
  apply (fetchEncountersByDateRange_no_partial_result Cases.secondPageFails
           5 "http://fhir" "tok" None None None None None None world0 1
           (Some 404%Z)).
  - eapply broken_later; [ vm_compute; reflexivity | | ].
    + next_link_after [mkLink (Some "self") (Some "http://fhir/self")].
    + apply broken_here. vm_compute. reflexivity.
  - lia.
Defined.

Lemma followPages_endless P headers urls :
  endless P headers urls ->
  forall fuel u m w,
    urls u ->
    exists w',
      followPages P fuel headers (Some u) m w = (OutOfFuel, w')
      /\ length (requests w') = fuel + length (requests w).
Proof.
  intros Hend. induction fuel as [| fuel IH]; intros u m w Hu; simpl.
  - exists w. split; reflexivity.
  - destruct (Hend u Hu) as (b & u' & Hsrv & Hnext & Hu').
    unfold bind at 1. unfold axios at 1. rewrite Hsrv.
    rewrite (nextUrl_nextLinkTo _ _ Hnext).
    set (w1 := mkWorld _ _ _).
    destruct (IH u' (harvestEncounters b m) w1 Hu') as (w' & Hrun & Hlen).
    exists w'. split; [ exact Hrun | ]. rewrite Hlen. simpl. lia.
Qed.

(** X13. The page loop has no guard against links that never end: when
    the first URL belongs to a set of URLs whose pages only link to each
    other (a page linking to itself, a cycle), [fetchEncountersByDateRange]
    does not return, whatever the number of iterations allowed; it sends
    one request per iteration. *)
Theorem fetchEncountersByDateRange_follows_links_forever
    P fuel fhirBase token start end_ dateField patientId status count
    w urls :
  endless P (fhirHeaders token) urls ->
  urls (dateRangeUrl P fhirBase start end_ dateField patientId status count) ->
  exists w',
    fetchEncountersByDateRange P fuel fhirBase token start end_ dateField
      patientId status count w = (OutOfFuel, w')
    /\ length (requests w') = fuel + length (requests w).
Proof.
  intros Hend Hu. unfold fetchEncountersByDateRange.
  unfold bind at 1. rewrite console_log_run.
  set (w1 := mkWorld _ _ _).
  assert (Hne : Js.nonEmpty
                  (dateRangeUrl P fhirBase start end_ dateField patientId
                     status count)
                = Some (dateRangeUrl P fhirBase start end_ dateField
                          patientId status count)).
  { unfold dateRangeUrl. cbv zeta. apply append_nonEmpty. }
  rewrite Hne.
  destruct (followPages_endless P _ _ Hend fuel _ JsMap.empty w1 Hu)
    as (w' & Hrun & Hlen).
  exists w'. rewrite (bind_OutOfFuel _ _ _ _ Hrun).
  split; [ reflexivity | exact Hlen ].
Qed.

Lemma fetchEncountersByDateRange_follows_links_forever_witness :
  exists w',
    fetchEncountersByDateRange Cases.selfLink 7 "http://fhir" "tok"
      None None None None None None world0 = (OutOfFuel, w')
    /\ length (requests w') = 7 + length (requests world0).
Proof.
  apply (fetchEncountersByDateRange_follows_links_forever Cases.selfLink 7
           "http://fhir" "tok" None None None None None None world0
           (fun u => u = "http://fhir/Encounter?_count=100")).
  - intros u ->. eexists; eexists.
    split; [ intros h; vm_compute; reflexivity | ].
    split; [ | reflexivity ].
    next_link_after [mkLink (Some "self") (Some "http://fhir/self")].
  - vm_compute. reflexivity.
Defined.

(* ===================================================================== *)
(** * Which version of an Encounter is returned *)
(* ===================================================================== *)

Lemma mapGet_set_same {V} k (v : V) m : mapGet k (JsMap.set k v m) = Some v.
Proof.
  induction m as [| [k' v'] r IH]; simpl.
  - now rewrite String.eqb_refl.
  - destruct (String.eqb_spec k' k) as [-> | Hne]; simpl.
    + now rewrite String.eqb_refl.
    + destruct (String.eqb_spec k' k); [ contradiction | exact IH ].
Qed.

Lemma mapGet_set_other {V} k k0 (v : V) m :
  k <> k0 -> mapGet k0 (JsMap.set k v m) = mapGet k0 m.
Proof.
  intros Hne. induction m as [| [k' v'] r IH]; simpl.
  - destruct (String.eqb_spec k k0); [ contradiction | reflexivity ].
  - destruct (String.eqb_spec k' k) as [-> | Hk]; simpl.
    + destruct (String.eqb_spec k k0); [ contradiction | reflexivity ].
    + now rewrite IH.
Qed.

Lemma mapGet_In {V} k (v : V) m :
  NoDup (JsMap.keys m) -> In (k, v) m -> mapGet k m = Some v.
Proof.
  induction m as [| [k' v'] r IH]; simpl; [ contradiction | ].
  intros Hnd [Heq | Hin].
  - inversion Heq; subst. now rewrite String.eqb_refl.
  - inversion Hnd as [| ? ? Hnot Hnd']; subst.
    destruct (String.eqb_spec k' k) as [-> | _]; [ | now apply IH ].
    exfalso. apply Hnot. change k with (fst (k, v)). now apply in_map.
Qed.

Lemma mapGet_harvestEntry k m e :
  mapGet k (harvestEntry m e)
  = lastFrom k (mapGet k m)
      (match resource e with
       | Some r => if isEncounterWithId r then [r] else []
       | None => []
       end).
Proof.
  unfold harvestEntry, lastFrom.
  destruct (resource e) as [r |]; [ | reflexivity ].
  destruct (isEncounterWithId r); [ | reflexivity ]. simpl.
  destruct (String.eqb_spec (Js.str (res_id r)) k) as [<- | Hne].
  - apply mapGet_set_same.
  - now apply mapGet_set_other.
Qed.

Lemma lastFrom_app k acc l1 l2 :
  lastFrom k acc (l1 ++ l2) = lastFrom k (lastFrom k acc l1) l2.
Proof. unfold lastFrom. apply fold_left_app. Qed.

Lemma mapGet_harvestEncounters k b m :
  mapGet k (harvestEncounters b m) = lastFrom k (mapGet k m) (pageEncounters b).
Proof.
  unfold harvestEncounters, pageEncounters.
  generalize (entries b) as es. intros es. revert m.
  induction es as [| e t IH]; intros m; simpl; [ reflexivity | ].
  rewrite IH, mapGet_harvestEntry, lastFrom_app. reflexivity.
Qed.

Lemma mapGet_harvestAll k pages m :
  mapGet k (harvestAll pages m) = lastFrom k (mapGet k m) (allEncounters pages).
Proof.
  unfold harvestAll, allEncounters. revert m.
  induction pages as [| b t IH]; intros m; simpl; [ reflexivity | ].
  rewrite IH, mapGet_harvestEncounters, lastFrom_app. reflexivity.
Qed.

Lemma lastFrom_None_split k l r :
  lastFrom k None l = Some r ->
  exists l1 l2,
    l = l1 ++ r :: l2
    /\ Js.str (res_id r) = k
    /\ Forall (fun r' => Js.str (res_id r') <> k) l2.
Proof.
  induction l as [| x l' IH] using rev_ind; [ discriminate | ].
  rewrite lastFrom_app. simpl.
  destruct (String.eqb_spec (Js.str (res_id x)) k) as [Hx | Hx].
  - intros H. inversion H; subst. exists l', []. repeat split. constructor.
  - intros H. destruct (IH H) as (l1 & l2 & -> & Hk & Hall).
    exists l1, (l2 ++ [x]). split; [ now rewrite <- app_assoc | ].
    split; [ exact Hk | ].
    apply Forall_app. split; [ exact Hall | now repeat constructor ].
Qed.

(** X14. When an Encounter id occurs several times in the pages of a
    search, [fetchEncountersByDateRange] returns the last occurrence: every
    returned resource is an entry of some page after which no entry with
    the same id comes. *)
Theorem fetchEncountersByDateRange_last_version
    P fuel fhirBase token start end_ dateField patientId status count
    w pages :
  length pages <= fuel ->
  pageChain P (fhirHeaders token) (requests w)
    (Get (dateRangeUrl P fhirBase start end_ dateField patientId status count)
       (fhirHeaders token) 30000) pages ->
  exists encs w',
    fetchEncountersByDateRange P fuel fhirBase token start end_ dateField
      patientId status count w = (Ok encs, w')
    /\ forall r, In r encs ->
         exists l1 l2,
           allEncounters pages = l1 ++ r :: l2
           /\ Forall (fun r' => res_id r' <> res_id r) l2.
Proof.
  intros Hfuel Hchain.
  destruct (fetchEncountersByDateRange_pages P fuel fhirBase token start
              end_ dateField patientId status count w pages Hfuel Hchain)
    as (w' & gets & Hrun & _).
  eexists; exists w'. split; [ exact Hrun | ].
  intros r Hr.
  pose proof (harvestAll_harvested pages _ harvested_empty) as [Hnd Hall].
  unfold JsMap.values in Hr. apply in_map_iff in Hr.
  destruct Hr as ([k r0] & Heq & Hin). simpl in Heq. subst r0.
  rewrite Forall_forall in Hall. destruct (Hall _ Hin) as [_ Hid].
  simpl in Hid.
  pose proof (mapGet_In _ _ _ Hnd Hin) as Hget.
  rewrite mapGet_harvestAll in Hget. simpl in Hget.
  destruct (lastFrom_None_split _ _ _ Hget) as (l1 & l2 & Hsplit & _ & Hl2).
  exists l1, l2. split; [ exact Hsplit | ].
  eapply Forall_impl; [ | exact Hl2 ].
  intros r' Hne Heq. apply Hne. rewrite Heq, Hid. reflexivity.
Qed.

Lemma fetchEncountersByDateRange_last_version_witness :
  exists encs w',
    fetchEncountersByDateRange Demo.twoPages 2 "http://fhir" "tok"
      (Some "2025-02-25") (Some "2025-02-27") None None None None world0
    = (Ok encs, w')
    /\ In (Demo.mkEncounter "1" (Some "Patient/8")) encs.
Proof.
  destruct (fetchEncountersByDateRange_last_version Demo.twoPages 2
              "http://fhir" "tok" (Some "2025-02-25") (Some "2025-02-27")
              None None None None world0
              [Demo.mkBundle [Demo.mkEncounter "1" (Some "Patient/7");
                              Demo.mkCondition "c" None]
                 (Some "http://fhir/page2");
               Demo.mkBundle [Demo.mkEncounter "2" None;
                              Demo.mkEncounter "1" (Some "Patient/8")] None]
              (le_n 2)) as (encs & w' & Hrun & _).
  - eapply chain_next; [ vm_compute; reflexivity | | ].
    + next_link_after [mkLink (Some "self") (Some "http://fhir/self")].
    + apply chain_last; [ vm_compute; reflexivity | no_next_link ].
  - exists encs, w'. split; [ exact Hrun | ].
    revert Hrun. vm_compute. intros Hrun. inversion Hrun. now left.
Defined.

(* ===================================================================== *)
(** * fetchEncountersByConditionCodes *)
(* ===================================================================== *)

(** X15. When the Encounter search of [fetchEncountersByConditionCodes]
    finds at least one Encounter, the function returns the Encounters of
    its pages, after exactly one request per page: the Condition search and
    the fetches by id of pass 2 are not made. *)
Theorem fetchEncountersByConditionCodes_first_pass
    P fuel fhirBase token start end_ dateField codesCsv w pages :
  length pages <= fuel ->
  pageChain P (fhirHeaders token) (requests w)
    (Get (conditionCodesUrl P fhirBase "/Encounter?" start end_ dateField
            codesCsv) (fhirHeaders token) 30000) pages ->
  allEncounters pages <> [] ->
  exists encs w' gets,
    fetchEncountersByConditionCodes P fuel fhirBase token start end_
      dateField codesCsv w = (Ok encs, w')
    /\ requests w' = gets ++ requests w
    /\ length gets = length pages
    /\ Forall (isPageGet (fhirHeaders token)) gets
    /\ (forall r, In r encs -> In r (allEncounters pages))
    /\ (forall r, In r (allEncounters pages) ->
                  exists r', In r' encs /\ res_id r' = res_id r)
    /\ NoDup (map res_id encs).
Proof.
  intros Hfuel Hchain Hne.
  unfold fetchEncountersByConditionCodes. cbv zeta.
  unfold bind at 1. rewrite console_log_run.
  set (w1 := mkWorld _ _ _).
  change (fhirBase +++ "/Encounter?" +++ _)
    with (conditionCodesUrl P fhirBase "/Encounter?" start end_ dateField
            codesCsv).
  assert (Hu : Js.nonEmpty (conditionCodesUrl P fhirBase "/Encounter?" start
                              end_ dateField codesCsv)
               = Some (conditionCodesUrl P fhirBase "/Encounter?" start end_
                         dateField codesCsv)).
  { unfold conditionCodesUrl. apply append_nonEmpty. }
  rewrite Hu.
  destruct (followPages_chain P _ _ _ _ Hchain _ fuel JsMap.empty w1
              eq_refl eq_refl Hfuel)
    as (w' & gets & Hrun & Hreq & Hlen & Hall & _ & _).
  rewrite (bind_Ok _ _ _ _ _ Hrun).
  pose proof (harvestAll_harvested pages _ harvested_empty) as Hinv.
  assert (Hsize : (JsMap.size (harvestAll pages JsMap.empty) =? 0)%nat
                  = false).
  { destruct (JsMap.size (harvestAll pages JsMap.empty) =? 0)%nat eqn:Hz;
      [ | reflexivity ].
    apply size_zero_keys in Hz.
    destruct (allEncounters pages) as [| r rs] eqn:Ha; [ contradiction | ].
    pose proof (harvestAll_adds pages JsMap.empty r) as Hin.
    rewrite Ha, Hz in Hin. destruct (Hin (or_introl eq_refl)). }
  rewrite Hsize. unfold bind, ret.
  exists (JsMap.values (harvestAll pages JsMap.empty)), w', gets.
  split; [ reflexivity | ]. split; [ exact Hreq | ].
  split; [ exact Hlen | ]. split; [ exact Hall | ].
  split; [ | split ].
  - intros r Hr. destruct (harvestAll_values _ _ _ Hr) as [[] | H]. exact H.
  - intros r Hr. apply harvestAll_union; [ apply harvested_empty | exact Hr ].
  - now apply harvested_values.
Qed.

Lemma fetchEncountersByConditionCodes_first_pass_witness :
  exists encs w' gets,
    fetchEncountersByConditionCodes Cases.encounterFound 1 "http://fhir"
      "tok" None None None None world0 = (Ok encs, w')
    /\ requests w' = gets ++ requests world0
    /\ length gets = 1.
Proof.
  destruct (fetchEncountersByConditionCodes_first_pass Cases.encounterFound 1
              "http://fhir" "tok" None None None None world0
              [Demo.mkBundle [Demo.mkEncounter "1" None] None] (le_n 1))
    as (encs & w' & gets & Hrun & Hreq & Hlen & _).
  - apply chain_last; [ vm_compute; reflexivity | no_next_link ].
  - cbn. discriminate.
  - exists encs, w', gets. repeat split; assumption.
Defined.

Lemma append_inj a x y : a +++ x = a +++ y -> x = y.
Proof.
  induction a as [| c a IH]; simpl; [ auto | ].
  intros H. inversion H. auto.
Qed.

Lemma for_of_outcome {A S} (Pre : S -> World -> Prop) (Wk : World -> Prop)
    (l : list A) (body : A -> S -> M S) :
  (forall x s w, Pre s w ->
     match body x s w with
     | (Ok s', w') => Pre s' w'
     | (_, w') => Wk w'
     end) ->
  forall s w, Pre s w ->
    match for_of l body s w with
    | (Ok s', w') => Pre s' w'
    | (_, w') => Wk w'
    end.
Proof.
  intros Hbody. induction l as [| x t IH]; intros s w Hs; simpl.
  - exact Hs.
  - unfold bind. specialize (Hbody x s w Hs).
    destruct (body x s w) as [[s1 | e |] w1]; [ now apply IH | | ];
      exact Hbody.
Qed.

Lemma fetchedOnce_weaken fhirBase m w0 w :
  since w0 (fetchedOnce fhirBase m) w ->
  since w0 (fun new => NoDup (directTargets new)) w.
Proof. intros (new & Hr & Hn & _). now exists new. Qed.

Lemma followReference_outcome P headers fhirBase w0 e m w :
  since w0 (fetchedOnce fhirBase m) w ->
  match followReference P headers fhirBase e m w with
  | (Ok m', w') => since w0 (fetchedOnce fhirBase m') w'
  | (_, w') => since w0 (fun new => NoDup (directTargets new)) w'
  end.
Proof.
  intros Hs. unfold followReference.
  destruct (resource e) as [c |]; [ | exact Hs ].
  destruct (Js.equals (resourceType c) "Condition"); [ | exact Hs ].
  destruct (encounter c) as [[[ref |]] |]; try exact Hs.
  destruct (Js.startsWith "Encounter/" ref); [ | exact Hs ].
  destruct (Js.segment1 ref) as [i |]; [ | exact Hs ].
  destruct (JsMap.has i m) eqn:Hhas; [ exact Hs | ].
  apply JsMapFacts.has_false_not_In in Hhas.
  destruct Hs as (new & Hr & Hn & Hall).
  assert (Hfresh : ~ In (fhirBase +++ "/Encounter/" +++ i) (directTargets new)).
  { intros Hin. rewrite Forall_forall in Hall.
    destruct (Hall _ Hin) as (j & Heq & Hj).
    apply append_inj in Heq. apply (append_inj "/Encounter/") in Heq.
    subst j. contradiction. }
  cbn [negb]. unfold bind, axios, ret. cbv beta zeta.
  destruct (server P (requests w) _) as [er | st].
  - exists (Get (fhirBase +++ "/Encounter/" +++ i) headers 15000 :: new).
    split; [ simpl; now rewrite Hr | ]. split.
    + simpl. constructor; assumption.
    + simpl. constructor.
      * exists i. split; [ reflexivity | apply JsMapFacts.key_set_In ].
      * eapply Forall_impl; [ | exact Hall ].
        intros u (j & Hu & Hj). exists j. split; [ exact Hu | ].
        now apply JsMapFacts.keys_set_incl.
  - exists (Get (fhirBase +++ "/Encounter/" +++ i) headers 15000 :: new).
    split; [ simpl; now rewrite Hr | ].
    simpl. constructor; assumption.
Qed.

Lemma followConditions_outcome P headers fhirBase w0 fuel :
  forall u m w,
    since w0 (fetchedOnce fhirBase m) w ->
    match followConditions P fuel headers fhirBase u m w with
    | (Ok m', w') => since w0 (fetchedOnce fhirBase m') w'
    | (_, w') => since w0 (fun new => NoDup (directTargets new)) w'
    end.
Proof.
  induction fuel as [| fuel IH]; intros u m w Hs;
    destruct u as [target |]; simpl; try exact Hs.
  - eapply fetchedOnce_weaken; eassumption.
  - unfold bind at 1. unfold axios at 1.
    destruct Hs as (new & Hr & Hn & Hall).
    assert (Hs1 : since w0 (fetchedOnce fhirBase m)
                    (mkWorld (Get target headers 30000 :: requests w)
                       (console w) (ticks w))).
    { exists (Get target headers 30000 :: new).
      split; [ simpl; now rewrite Hr | ]. split; assumption. }
    destruct (server P (requests w) _) as [b | st];
      [ | eapply fetchedOnce_weaken; eassumption ].
    unfold bind.
    pose proof (for_of_outcome
                  (fun s v => since w0 (fetchedOnce fhirBase s) v)
                  (since w0 (fun new => NoDup (directTargets new)))
                  (entries b) (followReference P headers fhirBase)
                  (fun x s v => followReference_outcome P headers fhirBase
                                  w0 x s v)
                  m _ Hs1) as Hloop.
    destruct (for_of (entries b) (followReference P headers fhirBase) m _)
      as [[m1 | e |] w1]; [ now apply IH | | ]; exact Hloop.
Qed.

Lemma followPages_no_direct P headers fuel :
  forall u m w,
    since w (fun new => directTargets new = [])
      (snd (followPages P fuel headers u m w)).
Proof.
  induction fuel as [| fuel IH]; intros u m w; destruct u as [target |];
    simpl; try (exists []; split; reflexivity).
  unfold bind at 1. unfold axios at 1.
  set (w1 := mkWorld _ _ _).
  destruct (server P (requests w) _) as [b | st];
    [ | exists [Get target headers 30000]; split; reflexivity ].
  destruct (IH (nextUrl b) (harvestEncounters b m) w1) as (new & Hr & Hd).
  exists (new ++ [Get target headers 30000]).
  split; [ rewrite Hr; simpl; now rewrite <- app_assoc | ].
  unfold directTargets in *. rewrite flat_map_app, Hd. reflexivity.
Qed.

(** X16. In one run, [fetchEncountersByConditionCodes] never fetches the
    same Encounter by id twice, whatever the server answers and however
    the run ends: the targets of its [Encounter/{id}] GETs are pairwise
    different. *)
Theorem fetchEncountersByConditionCodes_fetches_once
    P fuel fhirBase token start end_ dateField codesCsv w :
  exists new,
    requests (snd (fetchEncountersByConditionCodes P fuel fhirBase token
                     start end_ dateField codesCsv w))
    = new ++ requests w
    /\ NoDup (directTargets new).
Proof.
  unfold fetchEncountersByConditionCodes. cbv zeta.
  unfold bind at 1. rewrite console_log_run.
  set (w1 := mkWorld _ _ _).
  set (u1 := Js.nonEmpty _).
  unfold bind at 1.
  destruct (followPages_no_direct P (fhirHeaders token) fuel u1 JsMap.empty w1)
    as (new1 & Hr1 & Hd1).
  destruct (followPages P fuel (fhirHeaders token) u1 JsMap.empty w1)
    as [[m1 | e |] w2]; simpl in Hr1;
    try (exists new1; split; [ exact Hr1 | rewrite Hd1; constructor ]).
  assert (Hs : since w (fetchedOnce fhirBase m1) w2).
  { exists new1. split; [ exact Hr1 | ]. unfold fetchedOnce. rewrite Hd1.
    split; constructor. }
  unfold bind at 1.
  destruct (JsMap.size m1 =? 0)%nat.
  - unfold bind at 1. rewrite console_log_run.
    set (w3 := mkWorld _ _ _).
    assert (Hs3 : since w (fetchedOnce fhirBase m1) w3) by exact Hs.
    pose proof (followConditions_outcome P (fhirHeaders token) fhirBase w
                  fuel
                  (Js.nonEmpty
                     (fhirBase +++ "/Condition?"
                      +++ URLSearchParams_toString P
                            (codeParams (buildCodeParam codesCsv)
                             ++ dateParams dateField start end_
                             ++ [("_count", "100")])))
                  m1 w3 Hs3) as Hout.
    destruct (followConditions P fuel (fhirHeaders token) fhirBase _ m1 w3)
      as [[m2 | e |] w4]; simpl;
      [ apply fetchedOnce_weaken in Hout | | ]; exact Hout.
  - simpl. eapply fetchedOnce_weaken; eassumption.
Qed.

(** Two Conditions that refer to the same Encounter: one direct fetch. *)
Example same_reference_fetched_once :
  let run :=
    fetchEncountersByConditionCodes Cases.sameReferenceTwice 3 "http://fhir"
      "tok" None None None None world0 in
  fst run = Ok [Demo.mkEncounter "2" None]
  /\ directTargets (requests (snd run)) = ["http://fhir/Encounter/2"].
Proof. vm_compute. split; reflexivity. Qed.

(* ===================================================================== *)
(** * fetchEncountersByConditionCodesPost: the fallback and the first page *)
(* ===================================================================== *)

Lemma fetchEncounterByRef_run P headers fhirBase ref m w :
  exists m' directs,
    fetchEncounterByRef P headers fhirBase ref m w
    = (Ok m', mkWorld (directs ++ requests w) (console w) (ticks w))
    /\ Forall (isDirectFetch fhirBase headers) directs
    /\ length directs <= 1
    /\ incl (JsMap.keys m) (JsMap.keys m').
Proof.
  assert (Hstay : exists m' directs,
             (Ok m, w)
             = (Ok m', mkWorld (directs ++ requests w) (console w) (ticks w))
             /\ Forall (isDirectFetch fhirBase headers) directs
             /\ length directs <= 1
             /\ incl (JsMap.keys m) (JsMap.keys m')).
  { exists m, []. destruct w as [rs cs t]. simpl.
    repeat split; [ constructor | lia | apply incl_refl ]. }
  unfold fetchEncounterByRef.
  destruct ref as [r |]; [ | exact Hstay ].
  destruct (negb (Js.startsWith "Encounter/" r)); [ exact Hstay | ].
  destruct (Js.segment1 r) as [i |]; [ | exact Hstay ].
  destruct (negb (Js.truthy (Some i)) || JsMap.has i m); [ exact Hstay | ].
  clear Hstay. unfold bind, try_catch, axios, ret. cbv beta zeta.
  set (rq := Get (fhirBase +++ "/Encounter/" +++ i) headers 20000).
  assert (Hd : Forall (isDirectFetch fhirBase headers) [rq])
    by (repeat constructor; now exists i).
  destruct (server P (requests w) rq) as [d | st]; cbv beta iota.
  - destruct (isEncounterWithId d).
    + exists (JsMap.set (Js.str (res_id d)) d m), [rq].
      repeat split; [ exact Hd | simpl; lia | ].
      intros k Hk. now apply JsMapFacts.keys_set_incl.
    + exists m, [rq].
      repeat split; [ exact Hd | simpl; lia | apply incl_refl ].
  - exists m, [rq].
    repeat split; [ exact Hd | simpl; lia | apply incl_refl ].
Qed.

Lemma processBundleConditions_run P headers fhirBase page m w :
  exists m' directs,
    processBundleConditions P headers fhirBase page m w
    = (Ok m', mkWorld (directs ++ requests w) (console w) (ticks w))
    /\ Forall (isDirectFetch fhirBase headers) directs
    /\ length directs <= length (entries page)
    /\ incl (JsMap.keys m) (JsMap.keys m').
Proof.
  unfold processBundleConditions.
  generalize (entries page) as es. intros es. revert m w.
  induction es as [| e es IH]; intros m w; simpl.
  - exists m, []. destruct w as [rs cs t]. simpl.
    repeat split; [ constructor | lia | apply incl_refl ].
  - assert (Hstep : exists m1 d1,
               match resource e with
               | Some res =>
                   if Js.equals (resourceType res) "Condition"
                   then fetchEncounterByRef P headers fhirBase
                          match encounter res with
                          | Some r => reference r
                          | None => None
                          end m
                   else ret m
               | None => ret m
               end w
               = (Ok m1, mkWorld (d1 ++ requests w) (console w) (ticks w))
               /\ Forall (isDirectFetch fhirBase headers) d1
               /\ length d1 <= 1
               /\ incl (JsMap.keys m) (JsMap.keys m1)).
    { assert (Hstay : exists m1 d1,
                 ret m w
                 = (Ok m1, mkWorld (d1 ++ requests w) (console w) (ticks w))
                 /\ Forall (isDirectFetch fhirBase headers) d1
                 /\ length d1 <= 1
                 /\ incl (JsMap.keys m) (JsMap.keys m1)).
      { exists m, []. destruct w as [rs cs t]. simpl.
        repeat split; [ constructor | lia | apply incl_refl ]. }
      destruct (resource e) as [res |]; [ | exact Hstay ].
      destruct (Js.equals (resourceType res) "Condition"); [ | exact Hstay ].
      apply fetchEncounterByRef_run. }
    destruct Hstep as (m1 & d1 & Hrun1 & Hd1 & Hlen1 & Hincl1).
    destruct (IH m1 (mkWorld (d1 ++ requests w) (console w) (ticks w)))
      as (m2 & d2 & Hrun2 & Hd2 & Hlen2 & Hincl2).
    exists m2, (d2 ++ d1).
    rewrite (bind_Ok _ _ _ _ _ Hrun1), Hrun2. simpl.
    rewrite <- app_assoc.
    repeat split.
    + apply Forall_app. now split.
    + rewrite length_app. lia.
    + eapply incl_tran; eassumption.
Qed.

(** X17. Step 3 of the POST strategy cannot fail on a page:
    [processBundleConditions] always completes, whatever the server
    answers to the direct fetches.  It writes nothing to the console, its
    only requests are [GET {fhirBase}/Encounter/{id}] with a 20 s timeout,
    at most one per entry of the page, and every id collected before is
    still a key of the map afterwards. *)
Theorem processBundleConditions_never_fails P headers fhirBase page m w :
  exists m' directs,
    processBundleConditions P headers fhirBase page m w
    = (Ok m', mkWorld (directs ++ requests w) (console w) (ticks w))
    /\ Forall (isDirectFetch fhirBase headers) directs
    /\ length directs <= length (entries page)
    /\ incl (JsMap.keys m) (JsMap.keys m').
Proof. apply processBundleConditions_run. Qed.

(** X18. When the first Condition search is answered with a Bundle in which
    some entry has no [resource], [fetchEncountersByConditionCodesPost]
    rejects with a TypeError straight after the search request: nothing is
    logged, no further request is made and no Encounter of that page is
    returned. *)
Theorem fetchEncountersByConditionCodesPost_entry_without_resource
    P fuel fhirBase token start end_ dateField codesCsv includePatient count
    w bundle es e :
  server P (requests w)
    (conditionSearch P fhirBase token start end_ dateField codesCsv
       includePatient count)
  = Resolved bundle ->
  Js.equals (resourceType bundle) "Bundle" = true ->
  entry bundle = Some es ->
  In e es ->
  resource e = None ->
  fetchEncountersByConditionCodesPost P fuel fhirBase token start end_
    dateField codesCsv includePatient count w
  = (Throw TypeError,
     mkWorld
       (conditionSearch P fhirBase token start end_ dateField codesCsv
          includePatient count :: requests w)
       (console w) (ticks w)).
Proof.
  intros Hsrv Hbundle Hentry Hin Hnone.
  unfold fetchEncountersByConditionCodesPost. cbv zeta.
  unfold bind at 1. unfold axios at 1. cbv beta zeta. rewrite Hsrv.
  unfold bind at 1. unfold fetchFirstPageReferences.
  rewrite Hentry, Hbundle.
  assert (Hall : forallb (fun x => match resource x with
                                   | Some _ => true | None => false end) es
                 = false).
  { destruct (forallb _ es) eqn:Hf; [ | reflexivity ].
    rewrite forallb_forall in Hf. specialize (Hf e Hin).
    rewrite Hnone in Hf. discriminate. }
  rewrite Hall. reflexivity.
Qed.

Lemma fetchEncountersByConditionCodesPost_entry_without_resource_witness :
  fetchEncountersByConditionCodesPost Cases.entryWithoutResource 1
    "http://fhir" "tok" None None None None None None world0
  = (Throw TypeError,
     mkWorld
       [conditionSearch Cases.entryWithoutResource "http://fhir" "tok"
          None None None None None None]
       [] 0).
Proof.
  apply (fetchEncountersByConditionCodesPost_entry_without_resource
           Cases.entryWithoutResource 1 "http://fhir" "tok"
           None None None None None None world0
           (mkResource (Some "Bundle") None None None
              (Some [mkEntry (Some (Demo.mkEncounter "1" None));
                     mkEntry None])
              None None "")
           [mkEntry (Some (Demo.mkEncounter "1" None)); mkEntry None]
           (mkEntry None)).
  - vm_compute. reflexivity.
  - vm_compute. reflexivity.
  - reflexivity.
  - simpl. right. left. reflexivity.
  - reflexivity.
Defined.

(* ===================================================================== *)
(** * cryptoRandomUuid and the identifiers of the notification Bundle *)
(* ===================================================================== *)

Lemma hexDigit_isHexDigit r :
  (0 <= r < 16)%Z -> isHexDigit (Notification.hexDigit r) = true.
Proof.
  intros Hr.
  assert (Hc : (r = 0 \/ r = 1 \/ r = 2 \/ r = 3 \/ r = 4 \/ r = 5 \/ r = 6
                \/ r = 7 \/ r = 8 \/ r = 9 \/ r = 10 \/ r = 11 \/ r = 12
                \/ r = 13 \/ r = 14 \/ r = 15)%Z) by lia.
  repeat (destruct Hc as [-> | Hc]); try subst r; vm_compute; reflexivity.
Qed.

Lemma hexDigit_isVariantDigit r :
  (0 <= r < 16)%Z ->
  isVariantDigit (Notification.hexDigit (Z.lor (Z.land r 3) 8)) = true.
Proof.
  intros Hr.
  assert (Hc : (r = 0 \/ r = 1 \/ r = 2 \/ r = 3 \/ r = 4 \/ r = 5 \/ r = 6
                \/ r = 7 \/ r = 8 \/ r = 9 \/ r = 10 \/ r = 11 \/ r = 12
                \/ r = 13 \/ r = 14 \/ r = 15)%Z) by lia.
  repeat (destruct Hc as [-> | Hc]); try subst r; vm_compute; reflexivity.
Qed.

Lemma replaceXY_run P c w :
  exists d,
    Notification.replaceXY P c w
    = (Ok d,
       mkWorld (requests w) (console w)
         ((if Ascii.eqb c "x" || Ascii.eqb c "y" then 1 else 0) + ticks w))
    /\ conformsChar c d = true.
Proof.
  unfold Notification.replaceXY, conformsChar.
  assert (Hr : (0 <= Math_random16 P (ticks w) mod 16 < 16)%Z)
    by (apply Z.mod_pos_bound; lia).
  destruct (Ascii.eqb c "x") eqn:Hx; [ | destruct (Ascii.eqb c "y") eqn:Hy ];
    cbn [orb]; unfold bind, tick, ret; cbv beta iota zeta.
  - eexists. split; [ reflexivity | ]. now apply hexDigit_isHexDigit.
  - eexists. split; [ reflexivity | ]. now apply hexDigit_isVariantDigit.
  - exists c. destruct w as [rs cs t]. split; [ reflexivity | ].
    apply Ascii.eqb_refl.
Qed.

Lemma replaceAll_run P template :
  forall w, exists u,
    Notification.replaceAll P template w
    = (Ok u, mkWorld (requests w) (console w) (draws template + ticks w))
    /\ conforms template u = true.
Proof.
  induction template as [| c t IH]; intros w.
  - exists EmptyString. destruct w as [rs cs n]. split; reflexivity.
  - destruct (replaceXY_run P c w) as (d & Hd & Hc).
    destruct (IH (mkWorld (requests w) (console w)
                    ((if Ascii.eqb c "x" || Ascii.eqb c "y" then 1 else 0)
                     + ticks w)))
      as (r & Hr & Hconf).
    exists (String d r). split.
    + cbn [Notification.replaceAll].
      rewrite (bind_Ok _ _ _ _ _ Hd), (bind_Ok _ _ _ _ _ Hr).
      unfold ret. cbn [requests console ticks draws]. do 2 f_equal. lia.
    + cbn [conforms]. now rewrite Hc, Hconf.
Qed.

Lemma conforms_length template :
  forall u, conforms template u = true ->
            String.length u = String.length template.
Proof.
  induction template as [| c t IH]; intros [| d r] H; simpl in *;
    try discriminate; [ reflexivity | ].
  apply andb_prop in H. destruct H as [_ H]. now rewrite (IH r H).
Qed.

Lemma isVariantDigit_isHexDigit d :
  isVariantDigit d = true -> isHexDigit d = true.
Proof.
  unfold isVariantDigit, isHexDigit. cbn [existsb list_ascii_of_string].
  intros H.
  repeat (apply orb_prop in H; destruct H as [H | H]);
    try discriminate; rewrite H; repeat rewrite orb_true_r; reflexivity.
Qed.

Lemma conforms_free sep template :
  occursIn sep template = false ->
  isHexDigit sep = false ->
  forall u, conforms template u = true -> occursIn sep u = false.
Proof.
  intros Ht Hsep.
  induction template as [| c t IH]; intros [| d r] H; simpl in *;
    try discriminate; [ reflexivity | ].
  apply orb_false_elim in Ht. destruct Ht as [Hc Ht].
  apply andb_prop in H. destruct H as [Hcd H].
  rewrite (IH Ht r H), orb_false_r.
  destruct (Ascii.eqb_spec d sep) as [-> | Hne]; [ | reflexivity ].
  unfold conformsChar in Hcd.
  destruct (Ascii.eqb c "x").
  - congruence.
  - destruct (Ascii.eqb c "y").
    + apply isVariantDigit_isHexDigit in Hcd. congruence.
    + congruence.
Qed.

(** X19. [cryptoRandomUuid] always returns a string.  Where the runtime has
    [crypto.randomUUID] it is that function's value.  Where it has none,
    the fallback makes 31 random draws and returns 36 characters in the
    shape of the template: dashes at the template's places, [4] as the
    version digit, one of [8 9 a b] as the variant digit, and lower-case
    hexadecimal digits elsewhere. *)
Theorem cryptoRandomUuid_result P w :
  exists u n,
    Notification.cryptoRandomUuid P w
    = (Ok u, mkWorld (requests w) (console w) (n + ticks w))
    /\ match crypto_randomUUID P with
       | Some gen => u = gen (ticks w) /\ n = 1
       | None =>
           conforms "xxxxxxxx-xxxx-4xxx-yxxx-xxxxxxxxxxxx" u = true
           /\ n = 31
           /\ String.length u = 36
           /\ String.get 14 u = Some "4"%char
       end.
Proof.
  unfold Notification.cryptoRandomUuid, try_catch, randomUUID.
  destruct (crypto_randomUUID P) as [gen |].
  - exists (gen (ticks w)), 1. split; [ reflexivity | split; reflexivity ].
  - unfold throw.
    destruct (replaceAll_run P "xxxxxxxx-xxxx-4xxx-yxxx-xxxxxxxxxxxx" w)
      as (u & Hu & Hconf).
    exists u, 31. split; [ exact Hu | ].
    split; [ exact Hconf | ]. split; [ reflexivity | ].
    split; [ exact (conforms_length _ _ Hconf) | ].
    do 14 (destruct u as [| ? u]; [ discriminate Hconf | ];
           cbn [conforms] in Hconf;
           apply andb_prop in Hconf; destruct Hconf as [_ Hconf]).
    destruct u as [| d u]; [ discriminate Hconf | ].
    cbn [conforms] in Hconf.
    apply andb_prop in Hconf. destruct Hconf as [Hc _].
    change (Ascii.eqb "4" d = true) in Hc.
    cbn [String.get]. f_equal. symmetry. now apply Ascii.eqb_eq.
Qed.

Lemma cryptoRandomUuid_colon_free P w u w' :
  colonFree P ->
  Notification.cryptoRandomUuid P w = (Ok u, w') ->
  occursIn ":" u = false /\ requests w' = requests w
  /\ console w' = console w.
Proof.
  intros Hfree Hrun.
  destruct (cryptoRandomUuid_result P w) as (u1 & n & Hrun1 & Hu).
  rewrite Hrun in Hrun1. inversion Hrun1; subst u1 w'. clear Hrun1.
  split; [ | split; reflexivity ].
  unfold colonFree in Hfree.
  destruct (crypto_randomUUID P) as [gen |].
  - destruct Hu as [-> _]. apply Hfree.
  - destruct Hu as (Hconf & _).
    eapply conforms_free; [ | | exact Hconf ]; reflexivity.
Qed.

Lemma pop_urn u :
  occursIn ":" u = false ->
  Notification.pop (Js.split ":" ("urn:uuid:" +++ u)) = u.
Proof.
  intros Hu.
  change ("urn:uuid:" +++ u)
    with ("urn" +++ String ":" ("uuid" +++ String ":" u)).
  rewrite (split_app_sep ":" "urn" _ eq_refl).
  rewrite (split_app_sep ":" "uuid" _ eq_refl).
  rewrite (split_free _ _ Hu). reflexivity.
Qed.

(** X20. The identifiers of the notification Bundle agree.  When the
    runtime's [crypto.randomUUID], if there is one, yields strings without
    a colon, the id of the Parameters resource is the UUID drawn by
    [cryptoRandomUuid] and the fullUrl of its entry is ['urn:uuid:'] with
    that id.  The Bundle's timestamp and both [meta.lastUpdated] are the
    one clock reading taken first, and the entry's [GET] request is for
    [$status] under the very subscription URL that the [subscription]
    parameter carries.  Building the Bundle sends nothing and logs
    nothing. *)
Theorem buildNotificationBundle_identifiers P encounter o w :
  colonFree P ->
  exists b w' e1 e2 p u sub,
    Notification.buildNotificationBundle P encounter o w = (Ok b, w')
    /\ Notification.cryptoRandomUuid P
         (mkWorld (requests w) (console w) (S (ticks w)))
       = (Ok u, w')
    /\ Notification.entry b = [e1; e2]
    /\ Notification.resource e1 = Notification.ParametersResource p
    /\ Notification.p_id p = u
    /\ Notification.fullUrl e1 = "urn:uuid:" +++ Notification.p_id p
    /\ Notification.timestamp b = toISOString P (Date_now P (ticks w))
    /\ Notification.lastUpdated (Notification.meta b)
       = Notification.timestamp b
    /\ Notification.lastUpdated (Notification.p_meta p)
       = Notification.timestamp b
    /\ In (Notification.mkParameter "subscription"
             (Notification.valueReference sub))
          (Notification.parameter p)
    /\ Notification.request e1
       = Some (Notification.mkEntryRequest "GET" (sub +++ "/$status"))
    /\ requests w' = requests w
    /\ console w' = console w.
Proof.
  intros Hfree.
  unfold Notification.buildNotificationBundle.
  unfold bind at 1. unfold tick at 1.
  set (w1 := mkWorld _ _ _).
  destruct (cryptoRandomUuid_completes P w1) as (u & w' & Hu).
  destruct (cryptoRandomUuid_colon_free P w1 u w' Hfree Hu)
    as (Hcolon & Hreq & Hcons).
  rewrite (bind_Ok _ _ _ _ _ Hu). unfold ret.
  eexists; exists w'; eexists; eexists; eexists; exists u; eexists.
  split; [ reflexivity | ].
  split; [ exact Hu | ].
  cbn [Notification.entry Notification.resource Notification.fullUrl
       Notification.p_id Notification.timestamp Notification.meta
       Notification.p_meta Notification.lastUpdated Notification.parameter
       Notification.request].
  rewrite (pop_urn u Hcolon).
  repeat match goal with |- _ /\ _ => split end;
    try reflexivity; try assumption.
  cbn [In]. left. reflexivity.
Qed.

Lemma buildNotificationBundle_identifiers_witness :
  colonFree Cases.fixedUuid
  /\ exists b w' e1 e2 p u sub,
    Notification.buildNotificationBundle Cases.fixedUuid
      (Demo.mkEncounter "1" None) Notification.noOptions world0 = (Ok b, w')
    /\ Notification.cryptoRandomUuid Cases.fixedUuid
         (mkWorld (requests world0) (console world0) (S (ticks world0)))
       = (Ok u, w')
    /\ Notification.entry b = [e1; e2]
    /\ Notification.resource e1 = Notification.ParametersResource p
    /\ Notification.p_id p = u
    /\ Notification.fullUrl e1 = "urn:uuid:" +++ Notification.p_id p
    /\ Notification.timestamp b
       = toISOString Cases.fixedUuid (Date_now Cases.fixedUuid (ticks world0))
    /\ Notification.lastUpdated (Notification.meta b)
       = Notification.timestamp b
    /\ Notification.lastUpdated (Notification.p_meta p)
       = Notification.timestamp b
    /\ In (Notification.mkParameter "subscription"
             (Notification.valueReference sub))
          (Notification.parameter p)
    /\ Notification.request e1
       = Some (Notification.mkEntryRequest "GET" (sub +++ "/$status"))
    /\ requests w' = requests world0
    /\ console w' = console world0.
Proof.
  assert (Hfree : colonFree Cases.fixedUuid)
    by (intros t; vm_compute; reflexivity).
  split; [ exact Hfree | ].
  apply (buildNotificationBundle_identifiers Cases.fixedUuid
           (Demo.mkEncounter "1" None) Notification.noOptions world0 Hfree).
Defined.

(** The fallback on a runtime without [crypto]: the id of the Parameters
    resource is a template-shaped UUID. *)
Example fallback_uuid_in_bundle :
  let run :=
    Notification.buildNotificationBundle Cases.withoutCrypto
      (Demo.mkEncounter "1" None) Notification.noOptions world0 in
  match fst run with
  | Ok b =>
      match Notification.entry b with
      | e1 :: _ =>
          Notification.fullUrl e1
          = "urn:uuid:a18f6d4b-2907-4e5c-ba18-f6d4b2907e5c"
      | [] => False
      end
  | _ => False
  end
  /\ ticks (snd run) = 32.
Proof. vm_compute. split; reflexivity. Qed.

(* ===================================================================== *)
(** * What can abort the POST strategy *)
(* ===================================================================== *)

Lemma bind_Throw_inv {A B} (m : M A) (k : A -> M B) w e w' :
  bind m k w = (Throw e, w') ->
  m w = (Throw e, w')
  \/ exists a w1, m w = (Ok a, w1) /\ k a w1 = (Throw e, w').
Proof.
  unfold bind. destruct (m w) as [[a | e1 |] w1]; try discriminate.
  - intros H. right. exists a, w1. split; [ reflexivity | exact H ].
  - intros H. left. inversion H. reflexivity.
Qed.

Lemma axios_Throw P rq w e w' :
  searchOrPage rq = true ->
  axios P rq w = (Throw e, w') -> abortedBy P e w'.
Proof.
  intros Hrq. unfold axios.
  destruct (server P (requests w) rq) as [d | st] eqn:Hsrv;
    [ discriminate | ].
  intros H. inversion H; subst. exists rq, (requests w), st.
  repeat split; assumption.
Qed.

Lemma followPages_Throw P headers fuel :
  forall u m w e w',
    followPages P fuel headers u m w = (Throw e, w') -> abortedBy P e w'.
Proof.
  induction fuel as [| fuel IH]; intros u m w e w' Hrun;
    destruct u as [target |]; simpl in Hrun; try discriminate.
  apply bind_Throw_inv in Hrun.
  destruct Hrun as [Hax | (b & w1 & _ & Hrest)].
  - eapply axios_Throw; [ | exact Hax ]. reflexivity.
  - eapply IH; exact Hrest.
Qed.

Lemma followFallbackPages_Throw P headers fhirBase fuel :
  forall u m w e w',
    followFallbackPages P fuel headers fhirBase u m w = (Throw e, w') ->
    abortedBy P e w'.
Proof.
  induction fuel as [| fuel IH]; intros u m w e w' Hrun;
    destruct u as [target |]; simpl in Hrun; try discriminate.
  apply bind_Throw_inv in Hrun.
  destruct Hrun as [Hax | (b & w1 & _ & Hrest)].
  - eapply axios_Throw; [ | exact Hax ]. reflexivity.
  - apply bind_Throw_inv in Hrest.
    destruct Hrest as [Hp | (m1 & w2 & _ & Hrest)].
    + destruct (processBundleConditions_run P headers fhirBase b m w1)
        as (m1 & d & Hok & _).
      rewrite Hok in Hp. discriminate.
    + eapply IH; exact Hrest.
Qed.

Lemma fetchFirstPageReferences_Throw P headers fhirBase bundle w e w' :
  fetchFirstPageReferences P headers fhirBase bundle JsMap.empty w
  = (Throw e, w') ->
  e = TypeError /\ w' = w.
Proof.
  intros Hrun.
  destruct (forallb (fun x => match resource x with
                              | Some _ => true | None => false end)
              (entries bundle)) eqn:Hall.
  - assert (Hres : Forall (fun x => resource x <> None) (entries bundle)).
    { apply Forall_forall. intros x Hx.
      rewrite forallb_forall in Hall. specialize (Hall x Hx).
      destruct (resource x); [ discriminate | discriminate Hall ]. }
    destruct (fetchFirstPageReferences_completes P headers fhirBase bundle w
                Hres) as (m1 & w1 & d & Hok & _).
    rewrite Hok in Hrun. discriminate.
  - unfold fetchFirstPageReferences, entries in *.
    destruct (entry bundle) as [es |]; [ | discriminate ].
    destruct (Js.equals (resourceType bundle) "Bundle"); [ | discriminate ].
    rewrite Hall in Hrun. inversion Hrun. split; reflexivity.
Qed.

(** X21. Only two things can make [fetchEncountersByConditionCodesPost]
    reject: a first page with an entry that has no [resource] (a TypeError
    straight after the search), or the rejection of a search or page
    request (the two POSTs and the [next] links, all sent with a 30 s
    timeout), which is then the last request made.  A direct
    [Encounter/{id}] fetch that fails never aborts the strategy. *)
Theorem fetchEncountersByConditionCodesPost_failure_cause
    P fuel fhirBase token start end_ dateField codesCsv includePatient count
    w e w' :
  fetchEncountersByConditionCodesPost P fuel fhirBase token start end_
    dateField codesCsv includePatient count w
  = (Throw e, w') ->
  (e = TypeError
   /\ requests w'
      = conditionSearch P fhirBase token start end_ dateField codesCsv
          includePatient count :: requests w)
  \/ abortedBy P e w'.
Proof.
  unfold fetchEncountersByConditionCodesPost. cbv zeta. intros Hrun.
  apply bind_Throw_inv in Hrun.
  destruct Hrun as [Hax | (bundle & w1 & Hax & Hrun)].
  { right. eapply axios_Throw; [ | exact Hax ]. reflexivity. }
  assert (Hw1 : requests w1
                = conditionSearch P fhirBase token start end_ dateField
                    codesCsv includePatient count :: requests w).
  { unfold axios in Hax. destruct (server P (requests w) _);
      inversion Hax; reflexivity. }
  apply bind_Throw_inv in Hrun.
  destruct Hrun as [Hfirst | (m1 & w2 & _ & Hrun)].
  { apply fetchFirstPageReferences_Throw in Hfirst.
    destruct Hfirst as [-> ->]. left. split; [ reflexivity | exact Hw1 ]. }
  right.
  apply bind_Throw_inv in Hrun.
  destruct Hrun as [Hpages | (m2 & w3 & _ & Hrun)].
  { eapply followPages_Throw; exact Hpages. }
  apply bind_Throw_inv in Hrun.
  destruct Hrun as [Hfb | (m3 & w4 & _ & Hret)]; [ | discriminate Hret ].
  destruct (JsMap.size m2 =? 0)%nat; [ | discriminate Hfb ].
  apply bind_Throw_inv in Hfb.
  destruct Hfb as [Hax2 | (b & w4 & _ & Hfb)].
  { eapply axios_Throw; [ | exact Hax2 ]. reflexivity. }
  apply bind_Throw_inv in Hfb.
  destruct Hfb as [Hp | (m3 & w5 & _ & Hfb)].
  - destruct (processBundleConditions_run P (postHeaders token) fhirBase b
                m2 w4) as (m3 & d & Hok & _).
    rewrite Hok in Hp. discriminate.
  - eapply followFallbackPages_Throw; exact Hfb.
Qed.

Lemma fetchEncountersByConditionCodesPost_failure_cause_witness :
  exists e w',
    fetchEncountersByConditionCodesPost Cases.nothingServed 1 "http://fhir"
      "tok" None None None None None None world0
    = (Throw e, w')
    /\ ((e = TypeError
         /\ requests w'
            = conditionSearch Cases.nothingServed "http://fhir" "tok"
                None None None None None None :: requests world0)
        \/ abortedBy Cases.nothingServed e w').
Proof.
  eexists. eexists. split.
  - vm_compute. reflexivity.
  - apply (fetchEncountersByConditionCodesPost_failure_cause
             Cases.nothingServed 1 "http://fhir" "tok"
             None None None None None None world0).
    vm_compute. reflexivity.
Defined.
